(** * Milo robot: a shallow embedding of [milo_integrated.ino]

    The sketch is a single-loop controller with three modes (Bluetooth
    joystick, ultrasonic auto-follow, scripted self-test).  Every [void]
    function of the sketch becomes a state transformer [State -> State];
    [getDistanceCM] returns a value together with the new state.

    Modelling conventions
    - The target is an AVR board (Arduino Mega): [int] is 16 bits wide,
      [long] and [unsigned long] are 32 bits wide, [float] and [double] are
      both IEEE 754 binary32.
    - [unsigned long] values are integers reduced modulo [2^32].
    - The joystick values [rotation] and [magnitude] are binary32 numbers
      ([spec_float] of the Standard Library at precision 24), with NaN and
      the infinities; the product [maxSpeed * mag] is rounded to nearest
      even, the conversion to [int] truncates toward zero and keeps the low
      16 bits.
    - The quotient [duration / 58.0] of [getDistanceCM] is taken on the
      rationals: [pulseIn] returns at most 30000, and on that range the
      truncated binary32 quotient is the truncated exact quotient.
    - The board is a set of registers (pin level, PWM duty, pin direction)
      plus a chronological trace of the calls made to the Arduino core.
    - The millisecond clock, the bytes waiting on the two serial ports and
      the width of the next ultrasonic echo are inputs owned by the
      environment; a tick reads one clock value, and blocking calls are
      recorded in the trace.
    - Arduino core functions ([String], [Serial], pin I/O) are modelled from
      their documented behaviour; [String::toFloat] is left abstract. *)

From Stdlib Require Import ZArith QArith Qround Qpower Lqa Lia Bool List.
From Stdlib Require Import Ascii String.
From Stdlib Require Import Floats.SpecFloat.
Import ListNotations.

Local Open Scope Z_scope.

(** ** Constants (lines 12-28) *)

Definition IN1 : Z := 8.
Definition IN2 : Z := 9.
Definition IN3 : Z := 10.
Definition IN4 : Z := 11.
Definition ENA : Z := 5.
Definition ENB : Z := 6.

Definition pingPin : Z := 7.

Definition maxSpeed : Z := 180.
Definition autoFollowSpeed : Z := 160.
Definition testSpeed : Z := 100.
Definition bluetoothTimeout : Z := 300.
Definition autoFollowDelay : Z := 200.

Definition HIGH : bool := true.
Definition LOW : bool := false.

(** ** [float] (IEEE 754 binary32)

    A finite number is [m * 2^e], negated when the sign [s] is set;
    [prec] counts the bits of the mantissa and [emax] is the exponent of
    the infinities. *)

Definition float : Set := spec_float.

Definition prec : Z := 24.
Definition emax : Z := 128.

(** The numbers of the format (mantissa of at most 24 bits, exponent in
    range); zeros, infinities and NaN belong to it. *)
Definition binary32 (x : float) : Prop := valid_binary prec emax x = true.

Definition is_finite (x : float) : bool :=
  match x with
  | S754_zero _ | S754_finite _ _ _ => true
  | _ => false
  end.

Definition is_nan (x : float) : bool :=
  match x with
  | S754_nan => true
  | _ => false
  end.

(** [m * 2^e] as a rational. *)
Definition dyadic (m e : Z) : Q :=
  match e with
  | Zneg p => m # 2 ^ p
  | _ => inject_Z (m * 2 ^ e)
  end.

(** The number a float denotes (0 for NaN and the infinities, which denote
    none). *)
Definition F2Q (x : float) : Q :=
  match x with
  | S754_finite s m e =>
      if s then (- dyadic (Z.pos m) e)%Q else dyadic (Z.pos m) e
  | _ => 0%Q
  end.

(** Comparison: unordered as soon as one operand is NaN, an infinity is
    beyond every number, two numbers compare by value. *)
Definition fcompare (x y : float) : option comparison :=
  match x, y with
  | S754_nan, _ | _, S754_nan => None
  | S754_infinity s1, S754_infinity s2 =>
      Some (if Bool.eqb s1 s2 then Eq else if s1 then Lt else Gt)
  | S754_infinity s, _ => Some (if s then Lt else Gt)
  | _, S754_infinity s => Some (if s then Gt else Lt)
  | _, _ => Some (F2Q x ?= F2Q y)%Q
  end.

(** [x < y] and [x >= y]; both are false when the operands are unordered. *)
Definition flt (x y : float) : bool :=
  match fcompare x y with
  | Some Lt => true
  | _ => false
  end.

Definition fge (x y : float) : bool :=
  match fcompare x y with
  | Some (Gt | Eq) => true
  | _ => false
  end.

(** Conversion of an [int] to [float] and the product of two floats, both
    rounded to nearest even. *)
Definition float_of_int (n : Z) : float := binary_normalize prec emax n 0 false.

Definition fmul : float -> float -> float := SFmul prec emax.

Definition fdiv : float -> float -> float := SFdiv prec emax.

(** Conversion of a [float] to a 16-bit [int]: the fraction is dropped and
    the low 16 bits of the integer are kept, as two's complement.  C++
    leaves the result open when the integer does not fit (and for NaN and
    the infinities, taken as 0 here). *)
Definition ftrunc (x : float) : Z :=
  match x with
  | S754_finite s m e =>
      let n := Z.shiftl (Z.pos m) e in
      if s then - n else n
  | _ => 0
  end.

Definition int16 (z : Z) : Z := (z + 2 ^ 15) mod 2 ^ 16 - 2 ^ 15.

Definition float_to_int16 (x : float) : Z := int16 (ftrunc x).

(** The literal [0.15]: the binary32 number nearest to 0.15, which is
    10066330 / 2^26 = 0.1500000059604645. *)
Definition float_0_15 : float := S754_finite false 10066330 (-26).

(** ** Mode enumeration (lines 31-35) *)

Inductive RobotMode : Set :=
| MODE_BLUETOOTH
| MODE_AUTO_FOLLOW
| MODE_TEST.

Definition RobotMode_eqb (a b : RobotMode) : bool :=
  match a, b with
  | MODE_BLUETOOTH, MODE_BLUETOOTH
  | MODE_AUTO_FOLLOW, MODE_AUTO_FOLLOW
  | MODE_TEST, MODE_TEST => true
  | _, _ => false
  end.

(** ** The board *)

Inductive PinDir : Set := INPUT | OUTPUT.

(** One constructor per Arduino core call the sketch makes. *)
Inductive Event : Type :=
| EvPinMode (pin : Z) (d : PinDir)
| EvDigitalWrite (pin : Z) (v : bool)
| EvAnalogWrite (pin : Z) (v : Z)
| EvDelay (ms : Z)
| EvDelayMicroseconds (us : Z)
| EvPulseIn (pin : Z) (v : bool) (timeout : Z)
| EvSerialBegin (port : Z) (baud : Z)
| EvSerialTimeout
| EvPrint (text : string)
| EvPrintln (text : string)
| EvPrintLong (n : Z)
| EvPrintFloat (x : float)
| EvPrintlnFloat (x : float).

(** ** Program state: the sketch's globals (lines 37-46) and the board *)

Record State : Type := mkState {
  currentMode : RobotMode;
  lastCommandTime : Z;
  inputLine : string;
  testStartTime : Z;
  testPhase : Z;
  testRunning : bool;
  pinLevel : Z -> bool;
  pinDuty : Z -> Z;
  pinDir : Z -> PinDir;
  clock : Z;
  serialRx : string;
  serial1Rx : string;
  echo : Z;
  trace : list Event
}.

Definition set_currentMode (v : RobotMode) (s : State) : State :=
  mkState v (lastCommandTime s) (inputLine s) (testStartTime s) (testPhase s)
    (testRunning s) (pinLevel s) (pinDuty s) (pinDir s) (clock s)
    (serialRx s) (serial1Rx s) (echo s) (trace s).

Definition set_lastCommandTime (v : Z) (s : State) : State :=
  mkState (currentMode s) v (inputLine s) (testStartTime s) (testPhase s)
    (testRunning s) (pinLevel s) (pinDuty s) (pinDir s) (clock s)
    (serialRx s) (serial1Rx s) (echo s) (trace s).

Definition set_inputLine (v : string) (s : State) : State :=
  mkState (currentMode s) (lastCommandTime s) v (testStartTime s) (testPhase s)
    (testRunning s) (pinLevel s) (pinDuty s) (pinDir s) (clock s)
    (serialRx s) (serial1Rx s) (echo s) (trace s).

Definition set_testStartTime (v : Z) (s : State) : State :=
  mkState (currentMode s) (lastCommandTime s) (inputLine s) v (testPhase s)
    (testRunning s) (pinLevel s) (pinDuty s) (pinDir s) (clock s)
    (serialRx s) (serial1Rx s) (echo s) (trace s).

Definition set_testPhase (v : Z) (s : State) : State :=
  mkState (currentMode s) (lastCommandTime s) (inputLine s) (testStartTime s) v
    (testRunning s) (pinLevel s) (pinDuty s) (pinDir s) (clock s)
    (serialRx s) (serial1Rx s) (echo s) (trace s).

Definition set_testRunning (v : bool) (s : State) : State :=
  mkState (currentMode s) (lastCommandTime s) (inputLine s) (testStartTime s)
    (testPhase s) v (pinLevel s) (pinDuty s) (pinDir s) (clock s)
    (serialRx s) (serial1Rx s) (echo s) (trace s).

Definition set_pinLevel (v : Z -> bool) (s : State) : State :=
  mkState (currentMode s) (lastCommandTime s) (inputLine s) (testStartTime s)
    (testPhase s) (testRunning s) v (pinDuty s) (pinDir s) (clock s)
    (serialRx s) (serial1Rx s) (echo s) (trace s).

Definition set_pinDuty (v : Z -> Z) (s : State) : State :=
  mkState (currentMode s) (lastCommandTime s) (inputLine s) (testStartTime s)
    (testPhase s) (testRunning s) (pinLevel s) v (pinDir s) (clock s)
    (serialRx s) (serial1Rx s) (echo s) (trace s).

Definition set_pinDir (v : Z -> PinDir) (s : State) : State :=
  mkState (currentMode s) (lastCommandTime s) (inputLine s) (testStartTime s)
    (testPhase s) (testRunning s) (pinLevel s) (pinDuty s) v (clock s)
    (serialRx s) (serial1Rx s) (echo s) (trace s).

Definition set_clock (v : Z) (s : State) : State :=
  mkState (currentMode s) (lastCommandTime s) (inputLine s) (testStartTime s)
    (testPhase s) (testRunning s) (pinLevel s) (pinDuty s) (pinDir s) v
    (serialRx s) (serial1Rx s) (echo s) (trace s).

Definition set_serialRx (v : string) (s : State) : State :=
  mkState (currentMode s) (lastCommandTime s) (inputLine s) (testStartTime s)
    (testPhase s) (testRunning s) (pinLevel s) (pinDuty s) (pinDir s) (clock s)
    v (serial1Rx s) (echo s) (trace s).

Definition set_serial1Rx (v : string) (s : State) : State :=
  mkState (currentMode s) (lastCommandTime s) (inputLine s) (testStartTime s)
    (testPhase s) (testRunning s) (pinLevel s) (pinDuty s) (pinDir s) (clock s)
    (serialRx s) v (echo s) (trace s).

Definition emit (e : Event) (s : State) : State :=
  mkState (currentMode s) (lastCommandTime s) (inputLine s) (testStartTime s)
    (testPhase s) (testRunning s) (pinLevel s) (pinDuty s) (pinDir s) (clock s)
    (serialRx s) (serial1Rx s) (echo s) (trace s ++ [e]).

(** Statement sequencing: [f ;; g] runs [f] and then [g]. *)
Definition seq (f g : State -> State) : State -> State :=
  fun s => g (f s).

Declare Scope stmt_scope.
Delimit Scope stmt_scope with stmt.
Notation "f ;; g" := (seq f g) (at level 61, left associativity) : stmt_scope.
Local Open Scope stmt_scope.

Definition skip : State -> State := fun s => s.

(** ** Arduino core calls *)

Definition write_reg {A : Type} (regs : Z -> A) (pin : Z) (v : A) : Z -> A :=
  fun p => if p =? pin then v else regs p.

Definition pinMode (pin : Z) (d : PinDir) : State -> State :=
  fun s => emit (EvPinMode pin d) (set_pinDir (write_reg (pinDir s) pin d) s).

Definition digitalWrite (pin : Z) (v : bool) : State -> State :=
  fun s =>
    emit (EvDigitalWrite pin v) (set_pinLevel (write_reg (pinLevel s) pin v) s).

Definition analogWrite (pin : Z) (v : Z) : State -> State :=
  fun s =>
    emit (EvAnalogWrite pin v) (set_pinDuty (write_reg (pinDuty s) pin v) s).

Definition delay (ms : Z) : State -> State := emit (EvDelay ms).

Definition delayMicroseconds (us : Z) : State -> State :=
  emit (EvDelayMicroseconds us).

Definition two32 : Z := 2 ^ 32.

(** [millis()] reads the environment's clock as an [unsigned long]. *)
Definition millis (s : State) : Z := clock s mod two32.

(** Subtraction of two [unsigned long] values. *)
Definition usub (a b : Z) : Z := (a - b) mod two32.

(** [pulseIn(pin, v, timeout)] yields the width of the echo the environment
    provides; the core returns 0 when no pulse completes within [timeout]. *)
Definition pulseIn (pin : Z) (v : bool) (timeout : Z) (s : State) : Z * State :=
  (echo s, emit (EvPulseIn pin v timeout) s).

Definition Serial_print (text : string) : State -> State := emit (EvPrint text).
Definition Serial_println (text : string) : State -> State :=
  emit (EvPrintln text).
Definition Serial_print_long (n : Z) : State -> State := emit (EvPrintLong n).
Definition Serial_print_float (x : float) : State -> State :=
  emit (EvPrintFloat x).
Definition Serial_println_float (x : float) : State -> State :=
  emit (EvPrintlnFloat x).

(** ** Motor control functions (lines 293-338) *)

Definition moveForward (spd : Z) : State -> State :=
  digitalWrite IN1 HIGH ;;
  digitalWrite IN2 LOW ;;
  digitalWrite IN3 HIGH ;;
  digitalWrite IN4 LOW ;;
  analogWrite ENA spd ;;
  analogWrite ENB spd.

Definition moveBackward (spd : Z) : State -> State :=
  digitalWrite IN1 LOW ;;
  digitalWrite IN2 HIGH ;;
  digitalWrite IN3 LOW ;;
  digitalWrite IN4 HIGH ;;
  analogWrite ENA spd ;;
  analogWrite ENB spd.

Definition turnLeft (spd : Z) : State -> State :=
  digitalWrite IN1 LOW ;;
  digitalWrite IN2 HIGH ;;
  digitalWrite IN3 HIGH ;;
  digitalWrite IN4 LOW ;;
  analogWrite ENA spd ;;
  analogWrite ENB spd.

Definition turnRight (spd : Z) : State -> State :=
  digitalWrite IN1 HIGH ;;
  digitalWrite IN2 LOW ;;
  digitalWrite IN3 LOW ;;
  digitalWrite IN4 HIGH ;;
  analogWrite ENA spd ;;
  analogWrite ENB spd.

Definition stopMoving : State -> State :=
  digitalWrite IN1 LOW ;;
  digitalWrite IN2 LOW ;;
  digitalWrite IN3 LOW ;;
  digitalWrite IN4 LOW ;;
  analogWrite ENA 0 ;;
  analogWrite ENB 0.

(** *** Reading the motor driver

    Lines 13-18 assign [IN1]/[IN2]/[ENA] to the left motor and
    [IN3]/[IN4]/[ENB] to the right motor.  [moveForward] fixes the polarity:
    a motor runs forward when its first direction pin is high and its
    second is low. *)

Inductive Rotation : Set := Forwards | Backwards | Released | Braked.

Definition rotation_of (pin1 pin2 : bool) : Rotation :=
  match pin1, pin2 with
  | true, false => Forwards
  | false, true => Backwards
  | false, false => Released
  | true, true => Braked
  end.

Definition leftMotor (s : State) : Rotation :=
  rotation_of (pinLevel s IN1) (pinLevel s IN2).

Definition rightMotor (s : State) : Rotation :=
  rotation_of (pinLevel s IN3) (pinLevel s IN4).

Definition leftSpeed (s : State) : Z := pinDuty s ENA.
Definition rightSpeed (s : State) : Z := pinDuty s ENB.

(** Both motors released (all four direction pins low) at zero speed. *)
Definition motorsStopped (s : State) : Prop :=
  pinLevel s IN1 = LOW /\ pinLevel s IN2 = LOW /\
  pinLevel s IN3 = LOW /\ pinLevel s IN4 = LOW /\
  pinDuty s ENA = 0 /\ pinDuty s ENB = 0.

(** The events a call appended to the trace. *)
Definition emitted (before after : State) : list Event :=
  skipn (List.length (trace before)) (trace after).

(** The five operations of the actuation layer. *)
Inductive Command : Set := Forward | Backward | TurnLeft | TurnRight | Stop.

Definition issue (c : Command) (spd : Z) : State -> State :=
  match c with
  | Forward => moveForward spd
  | Backward => moveBackward spd
  | TurnLeft => turnLeft spd
  | TurnRight => turnRight spd
  | Stop => stopMoving
  end.

(** ** Arduino [String] operations used by the sketch *)

Local Open Scope string_scope.
Local Open Scope Z_scope.

Definition isspace (c : ascii) : bool :=
  let n := nat_of_ascii c in
  Nat.eqb n 32 || (Nat.leb 9 n && Nat.leb n 13).

Definition tolower (c : ascii) : ascii :=
  let n := nat_of_ascii c in
  if Nat.leb 65 n && Nat.leb n 90 then ascii_of_nat (n + 32) else c.

Fixpoint toLowerCase (s : string) : string :=
  match s with
  | EmptyString => EmptyString
  | String c r => String (tolower c) (toLowerCase r)
  end.

Fixpoint trimLeading (s : string) : string :=
  match s with
  | EmptyString => EmptyString
  | String c r => if isspace c then trimLeading r else s
  end.

Fixpoint trimTrailing (s : string) : string :=
  match s with
  | EmptyString => EmptyString
  | String c r =>
      match trimTrailing r with
      | EmptyString => if isspace c then EmptyString else String c EmptyString
      | r' => String c r'
      end
  end.

(** [String::trim]: drop leading and trailing white space. *)
Definition trim (s : string) : string := trimTrailing (trimLeading s).

(** [String::startsWith]. *)
Definition startsWith (pre s : string) : bool := String.prefix pre s.

(** [String::indexOf(char)]: position of the first occurrence, or -1. *)
Fixpoint indexOf (c : ascii) (s : string) : Z :=
  match s with
  | EmptyString => -1
  | String d r =>
      if Ascii.eqb d c then 0
      else let i := indexOf c r in if i <? 0 then -1 else i + 1
  end.

(** [String::substring(left, right)]: the bounds are swapped when out of
    order, the result is empty when [left] is past the end, and [right] is
    clipped to the length. *)
Definition substring (left right : Z) (s : string) : string :=
  let (left, right) := if right <? left then (right, left) else (left, right) in
  let len := Z.of_nat (String.length s) in
  if len <=? left then EmptyString
  else
    let right := if len <? right then len else right in
    String.substring (Z.to_nat left) (Z.to_nat (right - left)) s.

(** [String::substring(left)]. *)
Definition substringFrom (left : Z) (s : string) : string :=
  substring left (Z.of_nat (String.length s)) s.

(** ** Serial input *)

Definition newline : ascii := ascii_of_nat 10.
Definition carriageReturn : ascii := ascii_of_nat 13.

Definition Serial_available (s : State) : bool :=
  negb (String.eqb (serialRx s) EmptyString).

(** Split at the first terminator; [None] when the input runs dry first. *)
Fixpoint takeUntil (t : ascii) (rx : string) : string * option string :=
  match rx with
  | EmptyString => (EmptyString, None)
  | String c r =>
      if Ascii.eqb c t then (EmptyString, Some r)
      else let (l, rest) := takeUntil t r in (String c l, rest)
  end.

(** [Serial.readStringUntil(t)]: the terminator is consumed and dropped; when
    none is buffered the call returns what it has after the stream timeout. *)
Definition Serial_readStringUntil (t : ascii) (s : State) : string * State :=
  match takeUntil t (serialRx s) with
  | (l, Some rest) => (l, set_serialRx rest s)
  | (l, None) => (l, emit EvSerialTimeout (set_serialRx EmptyString s))
  end.

(** ** Conversion of a quotient to [long] *)

(** Truncation toward zero of an exact quotient (used by [getDistanceCM]). *)
Definition float_to_int (x : Q) : Z := Z.quot (Qnum x) (Z.pos (Qden x)).

(** ** Mode switching (lines 116-142) *)

Definition switchMode (newMode : RobotMode) : State -> State :=
  fun s =>
    if negb (RobotMode_eqb (currentMode s) newMode) then
      (stopMoving ;;
       set_currentMode newMode ;;
       set_inputLine "" ;;
       set_testRunning false ;;
       set_testPhase 0 ;;
       Serial_print "Mode switched to: " ;;
       match newMode with
       | MODE_BLUETOOTH => Serial_println "BLUETOOTH"
       | MODE_AUTO_FOLLOW => Serial_println "AUTO_FOLLOW"
       | MODE_TEST =>
           Serial_println "TEST" ;;
           (fun s => set_testStartTime (millis s) s) ;;
           set_testRunning true
       end) s
    else s.

(** ** [checkModeSwitch] (lines 100-114) *)

Definition checkModeSwitch_body (s : State) : State :=
  let (command, s) := Serial_readStringUntil newline s in
  let command := trim command in
  let command := toLowerCase command in
  if String.eqb command "auto" then switchMode MODE_AUTO_FOLLOW s
  else if String.eqb command "bluetooth" then switchMode MODE_BLUETOOTH s
  else if String.eqb command "test" then switchMode MODE_TEST s
  else s.

(** The [while (Serial.available())] loop; every iteration consumes at least
    one byte, so the number of buffered bytes bounds the iterations. *)
Fixpoint checkModeSwitch_loop (fuel : nat) (s : State) : State :=
  match fuel with
  | O => s
  | S fuel' =>
      if Serial_available s
      then checkModeSwitch_loop fuel' (checkModeSwitch_body s)
      else s
  end.

Definition checkModeSwitch (s : State) : State :=
  checkModeSwitch_loop (String.length (serialRx s)) s.

(** ** Bluetooth mode (lines 147-205) *)

Definition controlMotors (rot mag : float) : State -> State :=
  if flt mag float_0_15 then stopMoving
  else
    let speed := float_to_int16 (fmul (float_of_int maxSpeed) mag) in
    if fge rot (float_of_int 330) || flt rot (float_of_int 30) then
      turnRight speed
    else if fge rot (float_of_int 30) && flt rot (float_of_int 150) then
      moveBackward speed
    else if fge rot (float_of_int 150) && flt rot (float_of_int 210) then
      turnLeft speed
    else if fge rot (float_of_int 210) && flt rot (float_of_int 330) then
      moveForward speed
    else skip.

Section Sketch.

(** [String::toFloat] belongs to the Arduino core, not to the sketch. *)
Variable toFloat : string -> float.

Definition processJoystickCommand (cmd : string) : State -> State :=
  if negb (startsWith "J0:" cmd) then skip
  else
    let commaIndex := indexOf "," cmd in
    if commaIndex =? -1 then skip
    else
      let rotation := toFloat (substring 3 commaIndex cmd) in
      let magnitude := toFloat (substringFrom (commaIndex + 1) cmd) in
      Serial_print "Angle = " ;;
      Serial_print_float rotation ;;
      Serial_print "Â°, Magnitude = " ;;
      Serial_println_float magnitude ;;
      (fun s => set_lastCommandTime (millis s) s) ;;
      controlMotors rotation magnitude.

(** The [while (Serial1.available())] loop, one byte per iteration. *)
Fixpoint processBluetoothMode_loop (rx : string) (s : State) : State :=
  match rx with
  | EmptyString => s
  | String c rest =>
      let s := set_serial1Rx rest s in
      if Ascii.eqb c newline || Ascii.eqb c carriageReturn then
        processBluetoothMode_loop rest
          (set_inputLine "" (processJoystickCommand (inputLine s) s))
      else
        processBluetoothMode_loop rest
          (set_inputLine (String.append (inputLine s) (String c EmptyString)) s)
  end.

Definition processBluetoothMode (s : State) : State :=
  let s := processBluetoothMode_loop (serial1Rx s) s in
  if usub (millis s) (lastCommandTime s) >? bluetoothTimeout
  then stopMoving s
  else s.

End Sketch.

(** ** Ultrasonic sensor (lines 343-361) *)

Definition getDistanceCM (pin : Z) (s : State) : Z * State :=
  let s := (pinMode pin OUTPUT ;;
            digitalWrite pin LOW ;;
            delayMicroseconds 2 ;;
            digitalWrite pin HIGH ;;
            delayMicroseconds 5 ;;
            digitalWrite pin LOW ;;
            pinMode pin INPUT) s in
  let (duration, s) := pulseIn pin HIGH 30000 s in
  if duration =? 0 then (999, s)
  else (float_to_int (inject_Z duration / 58)%Q, s).

(** ** Auto-follow mode (lines 210-233) *)

Definition processAutoFollowMode (s : State) : State :=
  let (distance, s) := getDistanceCM pingPin s in
  let s := (Serial_print "Distance: " ;;
            Serial_print_long distance ;;
            Serial_println " cm") s in
  let s :=
    if distance >? 60 then
      (moveForward autoFollowSpeed ;; Serial_println "Moving forward") s
    else if distance <? 25 then
      (stopMoving ;; Serial_println "Stopped (too close)") s
    else
      (stopMoving ;; Serial_println "Stopped (maintaining distance)") s in
  delay autoFollowDelay s.

(** ** Test mode (lines 238-288) *)

Definition processTestMode_init (s : State) : State :=
  if negb (testRunning s) then
    ((fun s => set_testStartTime (millis s) s) ;;
     set_testRunning true ;;
     set_testPhase 0) s
  else s.

Definition processTestMode (s : State) : State :=
  let s := processTestMode_init s in
  let elapsed := usub (millis s) (testStartTime s) in
  if testPhase s =? 0 then
    if elapsed <? 2000 then
      (moveForward testSpeed ;; Serial_println "Test: Moving forward") s
    else if elapsed <? 3000 then
      (stopMoving ;; Serial_println "Test: Stopped") s
    else if elapsed <? 5000 then
      (moveBackward testSpeed ;; Serial_println "Test: Moving backward") s
    else if elapsed <? 6000 then
      (stopMoving ;; Serial_println "Test: Stopped") s
    else
      (set_testPhase 1 ;; (fun s => set_testStartTime (millis s) s)) s
  else if testPhase s =? 1 then
    if elapsed <? 10000 then
      (turnLeft testSpeed ;; Serial_println "Test: Rotating (circle)") s
    else if elapsed <? 13000 then
      (stopMoving ;; Serial_println "Test: Stopped") s
    else
      (set_testPhase 0 ;;
       (fun s => set_testStartTime (millis s) s) ;;
       Serial_println "Test: Cycle restarted") s
  else s.

(** ** Main loop (lines 79-95) *)

Definition loop (toFloat : string -> float) (s : State) : State :=
  let s := checkModeSwitch s in
  match currentMode s with
  | MODE_BLUETOOTH => processBluetoothMode toFloat s
  | MODE_AUTO_FOLLOW => processAutoFollowMode s
  | MODE_TEST => processTestMode s
  end.

(** ** Power-on state and [setup] (lines 37-46, 51-74) *)

Definition powerOn : State :=
  mkState MODE_BLUETOOTH 0 "" 0 0 false
    (fun _ => LOW) (fun _ => 0) (fun _ => INPUT) 0 "" "" 0 [].

Definition setup : State -> State :=
  pinMode IN1 OUTPUT ;;
  pinMode IN2 OUTPUT ;;
  pinMode IN3 OUTPUT ;;
  pinMode IN4 OUTPUT ;;
  pinMode ENA OUTPUT ;;
  pinMode ENB OUTPUT ;;
  pinMode pingPin OUTPUT ;;
  emit (EvSerialBegin 0 9600) ;;
  emit (EvSerialBegin 1 9600) ;;
  Serial_println "Milo Robot - Integrated Control System" ;;
  Serial_println "Mode: BLUETOOTH (default)" ;;
  Serial_println "Commands: 'auto', 'bluetooth', 'test'" ;;
  stopMoving.

(** A plain decimal reading of [String::toFloat] (optional sign, digits,
    optional fraction; 0 when no digit is found), used to run examples: the
    digits read as an integer, divided by the power of ten of the fraction. *)
Definition digitValue (c : ascii) : option Z :=
  let n := nat_of_ascii c in
  if Nat.leb 48 n && Nat.leb n 57 then Some (Z.of_nat (n - 48)) else None.

Fixpoint readDigits (acc : Z) (count : nat) (s : string) : Z * nat * string :=
  match s with
  | EmptyString => (acc, count, s)
  | String c r =>
      match digitValue c with
      | Some d => readDigits (10 * acc + d) (S count) r
      | None => (acc, count, s)
      end
  end.

Definition decimalToFloat (s : string) : float :=
  let s := trimLeading s in
  let (negative, s) :=
    match s with
    | String "-" r => (true, r)
    | String "+" r => (false, r)
    | _ => (false, s)
    end in
  let '(whole, _, s) := readDigits 0 0 s in
  let '(num, places) :=
    match s with
    | String "." r => let '(n, k, _) := readDigits whole 0 r in (n, k)
    | _ => (whole, O)
    end in
  let x := fdiv (float_of_int num) (float_of_int (10 ^ Z.of_nat places)) in
  if negative then SFopp x else x.

(** * Vocabulary of the properties *)

Local Open Scope list_scope.

(** ** Motor register writes *)

Definition motorWrites (a1 a2 b1 b2 : bool) (spd : Z) : list Event :=
  [EvDigitalWrite IN1 a1; EvDigitalWrite IN2 a2;
   EvDigitalWrite IN3 b1; EvDigitalWrite IN4 b2;
   EvAnalogWrite ENA spd; EvAnalogWrite ENB spd].

Definition commandWrites (c : Command) (spd : Z) : list Event :=
  match c with
  | Forward => motorWrites HIGH LOW HIGH LOW spd
  | Backward => motorWrites LOW HIGH LOW HIGH spd
  | TurnLeft => motorWrites LOW HIGH HIGH LOW spd
  | TurnRight => motorWrites HIGH LOW LOW HIGH spd
  | Stop => motorWrites LOW LOW LOW LOW 0
  end.

(** The six registers of the motor driver: the levels of IN1..IN4 and the
    duties of ENA and ENB. *)
Definition driver (s : State) : bool * bool * bool * bool * Z * Z :=
  (pinLevel s IN1, pinLevel s IN2, pinLevel s IN3, pinLevel s IN4,
   pinDuty s ENA, pinDuty s ENB).







(** ** Modes and sample states *)

Definition modeName (m : RobotMode) : string :=
  match m with
  | MODE_BLUETOOTH => "BLUETOOTH"
  | MODE_AUTO_FOLLOW => "AUTO_FOLLOW"
  | MODE_TEST => "TEST"
  end.

(** What a directive for mode [m] shows between the state [s] before the
    line is read and the state [s'] after it: when [m] is not the active
    mode, the motors are stopped by six register writes and the new mode is
    confirmed on [Serial]; when it is, nothing is written or printed. *)
Definition transition (m : RobotMode) (s s' : State) : Prop :=
  (currentMode s <> m ->
   motorsStopped s' /\
   emitted s s' =
     commandWrites Stop 0 ++
     [EvPrint "Mode switched to: "; EvPrintln (modeName m)]) /\
  (currentMode s = m -> driver s' = driver s /\ emitted s s' = []).

(** The Bluetooth session after the joystick line "J0:45,0.5" was handled at
    clock value 1234. *)
Definition afterCommand : State :=
  processJoystickCommand decimalToFloat "J0:45,0.5" (set_clock 1234 powerOn).

(** A running test sequence in phase [phase], started at [start], observed at
    clock value [now]. *)
Definition inTest (phase start now : Z) : State :=
  set_clock now
    (set_testStartTime start
       (set_testPhase phase
          (set_testRunning true (set_currentMode MODE_TEST powerOn)))).

(** The environment's choice of the next echo width. *)
Definition set_echo (v : Z) (s : State) : State :=
  mkState (currentMode s) (lastCommandTime s) (inputLine s) (testStartTime s)
    (testPhase s) (testRunning s) (pinLevel s) (pinDuty s) (pinDir s) (clock s)
    (serialRx s) (serial1Rx s) v (trace s).

(** ** Joystick bands *)

(** The command the tests of lines 196-203 select, if any. *)
Definition directionOf (rot : float) : option Command :=
  if fge rot (float_of_int 330) || flt rot (float_of_int 30) then
    Some TurnRight
  else if fge rot (float_of_int 30) && flt rot (float_of_int 150) then
    Some Backward
  else if fge rot (float_of_int 150) && flt rot (float_of_int 210) then
    Some TurnLeft
  else if fge rot (float_of_int 210) && flt rot (float_of_int 330) then
    Some Forward
  else None.

(** The speed line 192 computes from a magnitude. *)
Definition speedOf (mag : float) : Z :=
  float_to_int16 (fmul (float_of_int maxSpeed) mag).

(** Sample magnitudes: 0.5 and the floats nearest to 0.7 and to 0.149999. *)
Definition float_0_5 : float := S754_finite false 8388608 (-24).
Definition float_0_7 : float := S754_finite false 11744051 (-24).
Definition float_0_149999 : float := S754_finite false 10066262 (-26).

(** The motors running forward at the auto-follow speed. *)
Definition runningForward : State := moveForward 160 powerOn.

(** ** Ranging *)

Definition pingSequence (pin : Z) : list Event :=
  [EvPinMode pin OUTPUT; EvDigitalWrite pin LOW; EvDelayMicroseconds 2;
   EvDigitalWrite pin HIGH; EvDelayMicroseconds 5; EvDigitalWrite pin LOW;
   EvPinMode pin INPUT; EvPulseIn pin HIGH 30000].

(** The state in which the auto-follow handler classifies its sample: ranging
    done and the distance line printed. *)
Definition sampled (s : State) : State :=
  (Serial_print "Distance: " ;;
   Serial_print_long (fst (getDistanceCM pingPin s)) ;;
   Serial_println " cm") (snd (getDistanceCM pingPin s)).

(** ** Test sequence *)

Definition restartLog : Event := EvPrintln "Test: Cycle restarted".

(** ** Lines and tokens *)

(** A line is well formed when it starts with "J0:" and has a comma
    somewhere after that prefix. *)
Definition wellFormed (cmd : string) : Prop :=
  startsWith "J0:" cmd = true /\
  exists i : nat, (3 <= i)%nat /\ String.get i cmd = Some ","%char.

(** The token a raw line stands for: trimmed, then lower-cased. *)
Definition tokenOf (line : string) : string := toLowerCase (trim line).

(** What [checkModeSwitch] does with one token. *)
Definition directive (token : string) : State -> State :=
  if String.eqb token "auto" then switchMode MODE_AUTO_FOLLOW
  else if String.eqb token "bluetooth" then switchMode MODE_BLUETOOTH
  else if String.eqb token "test" then switchMode MODE_TEST
  else skip.

(** [text] followed by a line feed and then [rest]. *)
Definition lineThen (text rest : string) : string :=
  String.append text (String newline rest).

(** Input used in the examples: "  AUTO " with a carriage return, a line
    "foo", and an unterminated "test". *)
Definition sampleInput : string :=
  lineThen (String.append "  AUTO " (String carriageReturn ""))
    (lineThen "foo" "test").

(** ** The whole system: environment, reachable states, invariant *)

(** Between two iterations of [loop] the environment moves the clock, delivers
    bytes on the two serial ports and picks the width of the next echo. *)
Definition environment (clk : Z) (rx rx1 : string) (width : Z) (s : State)
    : State :=
  set_echo width (set_serial1Rx rx1 (set_serialRx rx (set_clock clk s))).

(** The states the sketch can be in at the end of [setup] or of an iteration
    of [loop], whatever the environment does. *)
Inductive reachable (toFloat : string -> float) : State -> Prop :=
| reachable_setup : reachable toFloat (setup powerOn)
| reachable_loop (s : State) (clk : Z) (rx rx1 : string) (width : Z) :
    reachable toFloat s ->
    reachable toFloat (loop toFloat (environment clk rx rx1 width s)).

(** No motor has both direction pins high and both motors get one duty. *)
Definition motorsSane (s : State) : Prop :=
  leftMotor s <> Braked /\ rightMotor s <> Braked /\
  leftSpeed s = rightSpeed s.

(** The six driver pins are configured as outputs. *)
Definition driverPinsOutput (s : State) : Prop :=
  pinDir s IN1 = OUTPUT /\ pinDir s IN2 = OUTPUT /\
  pinDir s IN3 = OUTPUT /\ pinDir s IN4 = OUTPUT /\
  pinDir s ENA = OUTPUT /\ pinDir s ENB = OUTPUT.

Definition invariant (s : State) : Prop :=
  (testPhase s = 0 \/ testPhase s = 1) /\ motorsSane s /\ driverPinsOutput s.

(** The direction pins and the speed pins of the driver. *)
Definition isDirectionPin (p : Z) : bool :=
  (p =? IN1) || (p =? IN2) || (p =? IN3) || (p =? IN4).

Definition isSpeedPin (p : Z) : bool := (p =? ENA) || (p =? ENB).

(** ** Bluetooth lines *)

Definition isTerminator (c : ascii) : bool :=
  Ascii.eqb c newline || Ascii.eqb c carriageReturn.

Fixpoint noTerminator (rx : string) : bool :=
  match rx with
  | EmptyString => true
  | String c r => negb (isTerminator c) && noTerminator r
  end.

(** The joystick line "J0:<a>,<b>". *)
Definition joystickLine (a b : string) : string :=
  String.append "J0:" (String.append a (String ","%char b)).

(** What an accepted joystick line does with its two parsed fields. *)
Definition drive (rotation magnitude : float) : State -> State :=
  Serial_print "Angle = " ;;
  Serial_print_float rotation ;;
  Serial_print "Â°, Magnitude = " ;;
  Serial_println_float magnitude ;;
  (fun s => set_lastCommandTime (millis s) s) ;;
  controlMotors rotation magnitude.

(** The test sequence is marked as running exactly in test mode. *)
Definition testArmed (s : State) : Prop :=
  testRunning s = RobotMode_eqb (currentMode s) MODE_TEST.

(** * Properties *)

(** ** Actuation layer *)

Lemma emitted_app (s s' : State) (l : list Event) :
  trace s' = trace s ++ l -> emitted s s' = l.
Proof.
  intros H. unfold emitted. rewrite H.
  rewrite skipn_app, skipn_all, Nat.sub_diag. reflexivity.
Qed.

Lemma trace_issue (c : Command) (spd : Z) (s : State) :
  trace (issue c spd s) = trace s ++ commandWrites c spd.
Proof.
  destruct c; cbn; repeat rewrite <- app_assoc; reflexivity.
Qed.

(** Each of the five operations writes the four direction pins and both
    speed registers, and nothing else. *)
Lemma issue_writes_all_registers (c : Command) (spd : Z) (s : State) :
  emitted s (issue c spd s) = commandWrites c spd.
Proof. apply emitted_app, trace_issue. Qed.

Lemma stopMoving_motorsStopped (s : State) : motorsStopped (stopMoving s).
Proof. repeat split. Qed.

Lemma stopMoving_releases_both (s : State) :
  leftMotor (stopMoving s) = Released /\ rightMotor (stopMoving s) = Released /\
  leftSpeed (stopMoving s) = 0 /\ rightSpeed (stopMoving s) = 0.
Proof. repeat split. Qed.

Lemma moveForward_directions (spd : Z) (s : State) :
  leftMotor (moveForward spd s) = Forwards /\
  rightMotor (moveForward spd s) = Forwards /\
  leftSpeed (moveForward spd s) = spd /\ rightSpeed (moveForward spd s) = spd.
Proof. repeat split. Qed.

Lemma moveBackward_directions (spd : Z) (s : State) :
  leftMotor (moveBackward spd s) = Backwards /\
  rightMotor (moveBackward spd s) = Backwards /\
  leftSpeed (moveBackward spd s) = spd /\ rightSpeed (moveBackward spd s) = spd.
Proof. repeat split. Qed.

(** [turnRight] mirrors [turnLeft]: the two motors exchange rotations. *)
Lemma turnRight_mirrors_turnLeft (spd : Z) (s : State) :
  leftMotor (turnRight spd s) = rightMotor (turnLeft spd s) /\
  rightMotor (turnRight spd s) = leftMotor (turnLeft spd s) /\
  leftSpeed (turnRight spd s) = spd /\ rightSpeed (turnRight spd s) = spd.
Proof. repeat split. Qed.

(** The four direction commands leave distinguishable states. *)
Lemma issue_injective (c c' : Command) (spd : Z) (s : State) :
  c <> Stop -> c' <> Stop -> issue c spd s = issue c' spd s -> c = c'.
Proof.
  intros Hc Hc' H.
  assert (Hl : leftMotor (issue c spd s) = leftMotor (issue c' spd s))
    by (rewrite H; reflexivity).
  assert (Hr : rightMotor (issue c spd s) = rightMotor (issue c' spd s))
    by (rewrite H; reflexivity).
  destruct c, c'; try reflexivity; try contradiction;
    cbv in Hl, Hr; congruence.
Qed.

(** With the pin roles of the declarations (lines 13-16), [turnLeft] gives
    the pair IN1/IN2 the levels [moveBackward] gives it and the pair IN3/IN4
    the levels [moveForward] gives it. *)
Lemma turnLeft_declared_roles (spd : Z) (s : State) :
  leftMotor (turnLeft spd s) = Backwards /\
  rightMotor (turnLeft spd s) = Forwards /\
  leftMotor (turnLeft spd s) = leftMotor (moveBackward spd s) /\
  rightMotor (turnLeft spd s) = rightMotor (moveForward spd s) /\
  leftMotor (turnRight spd s) = Forwards /\
  rightMotor (turnRight spd s) = Backwards.
Proof. repeat split. Qed.


(** ** Mode controller *)

Lemma RobotMode_eqb_eq (a b : RobotMode) : RobotMode_eqb a b = true <-> a = b.
Proof. destruct a, b; cbn; split; congruence. Qed.

Lemma RobotMode_eqb_neq (a b : RobotMode) : RobotMode_eqb a b = false <-> a <> b.
Proof. destruct a, b; cbn; split; congruence. Qed.

Lemma switchMode_same (m : RobotMode) (s : State) :
  currentMode s = m -> switchMode m s = s.
Proof.
  intros H. unfold switchMode.
  apply RobotMode_eqb_eq in H. rewrite H. reflexivity.
Qed.

Lemma currentMode_switchMode (m : RobotMode) (s : State) :
  currentMode (switchMode m s) = m.
Proof.
  unfold switchMode.
  destruct (RobotMode_eqb (currentMode s) m) eqn:E; cbn.
  - now apply RobotMode_eqb_eq.
  - destruct m; reflexivity.
Qed.

(** C1 (counterexample): a transition out of Bluetooth mode clears the
    line buffer but leaves the time of the last valid command at 1234; it
    is not reset. *)
Lemma switchMode_timestamp_counterexample :
  currentMode afterCommand = MODE_BLUETOOTH /\
  lastCommandTime afterCommand = 1234 /\
  inputLine (switchMode MODE_AUTO_FOLLOW afterCommand) = "" /\
  lastCommandTime (switchMode MODE_AUTO_FOLLOW afterCommand) = 1234 /\
  lastCommandTime (switchMode MODE_AUTO_FOLLOW afterCommand) <> 0.
Proof. repeat split. vm_compute. discriminate. Qed.

(** C1 (amended): when [target] differs from the active mode, [switchMode]
    (a) first stops both motors, while the old mode is still the active one,
    and nothing after that touches a motor register; (b) makes [target] the
    active mode; (c) empties the partial input line, sets the phase index to
    0 and clears the running flag, leaving the time of the last valid
    command as it was; (d) for [MODE_TEST] sets the phase start to the
    current time and marks the sequence as running. *)
Theorem switchMode_transition (target : RobotMode) (s : State) :
  currentMode s <> target ->
  let mid := stopMoving s in
  let s' := switchMode target s in
  (currentMode mid = currentMode s /\ motorsStopped mid /\
   trace s' =
     trace mid ++ [EvPrint "Mode switched to: "; EvPrintln (modeName target)] /\
   pinLevel s' = pinLevel mid /\ pinDuty s' = pinDuty mid /\
   motorsStopped s') /\
  currentMode s' = target /\
  (inputLine s' = "" /\ testPhase s' = 0 /\
   lastCommandTime s' = lastCommandTime s) /\
  (target = MODE_TEST -> testStartTime s' = millis s /\ testRunning s' = true) /\
  (target <> MODE_TEST ->
   testStartTime s' = testStartTime s /\ testRunning s' = false).
Proof.
  intros Hne mid s'. subst mid s'.
  apply RobotMode_eqb_neq in Hne.
  unfold switchMode. rewrite Hne. cbn [negb].
  destruct target; cbn; repeat rewrite <- app_assoc;
    repeat split; try reflexivity; try congruence.
Qed.

Lemma switchMode_transition_witness :
  currentMode afterCommand <> MODE_TEST /\
  currentMode (switchMode MODE_TEST afterCommand) = MODE_TEST /\
  lastCommandTime (switchMode MODE_TEST afterCommand) = 1234 /\
  testStartTime (switchMode MODE_TEST afterCommand) = 1234 /\
  testRunning (switchMode MODE_TEST afterCommand) = true /\
  testStartTime (switchMode MODE_AUTO_FOLLOW afterCommand) = 0 /\
  testRunning (switchMode MODE_AUTO_FOLLOW afterCommand) = false.
Proof.
  assert (H : currentMode afterCommand <> MODE_TEST) by (vm_compute; discriminate).
  assert (H' : currentMode afterCommand <> MODE_AUTO_FOLLOW)
    by (vm_compute; discriminate).
  split; [exact H |].
  destruct (switchMode_transition MODE_TEST afterCommand H)
    as (_ & Hb & (_ & _ & Hc) & Hd & _).
  destruct (switchMode_transition MODE_AUTO_FOLLOW afterCommand H')
    as (_ & _ & _ & _ & He).
  destruct (Hd eq_refl) as [Ht Hr].
  destruct (He ltac:(discriminate)) as [Ht' Hr'].
  exact (conj Hb (conj Hc (conj Ht (conj Hr (conj Ht' Hr'))))).
Defined.

(** C9: [switchMode m] is a no-op when [m] is already the active mode
    (the state, and with it the motor registers and the trace, is returned
    unchanged), so a second identical call adds nothing to the first, however
    much time passes in between. *)
Theorem switchMode_idempotent (m : RobotMode) (s : State) :
  (currentMode s = m -> switchMode m s = s) /\
  (currentMode s = m -> emitted s (switchMode m s) = []) /\
  switchMode m (switchMode m s) = switchMode m s /\
  (forall t : Z,
     switchMode m (set_clock t (switchMode m s)) = set_clock t (switchMode m s)).
Proof.
  split; [apply switchMode_same |].
  split.
  { intros H. rewrite (switchMode_same m s H).
    apply emitted_app. now rewrite app_nil_r. }
  split.
  - apply switchMode_same, currentMode_switchMode.
  - intros t. apply switchMode_same. cbn. apply currentMode_switchMode.
Qed.

Lemma switchMode_idempotent_witness :
  currentMode afterCommand = MODE_BLUETOOTH /\
  switchMode MODE_BLUETOOTH afterCommand = afterCommand /\
  emitted afterCommand (switchMode MODE_BLUETOOTH afterCommand) = [].
Proof.
  assert (H : currentMode afterCommand = MODE_BLUETOOTH) by reflexivity.
  destruct (switchMode_idempotent MODE_BLUETOOTH afterCommand) as (H1 & H2 & _).
  split; [exact H |]. split; [exact (H1 H) | exact (H2 H)].
Defined.

(** ** Binary32 arithmetic *)

(** *** Bits of a mantissa and right shifts *)

Lemma digits2_pos_bounds (m : positive) :
  2 ^ (Z.pos (digits2_pos m) - 1) <= Z.pos m < 2 ^ Z.pos (digits2_pos m).
Proof.
  induction m as [m IH | m IH |]; cbn [digits2_pos];
    try (rewrite Pos2Z.inj_succ;
         replace (Z.succ (Z.pos (digits2_pos m)) - 1)
           with (Z.succ (Z.pos (digits2_pos m) - 1)) by lia;
         rewrite !Z.pow_succ_r by lia; lia).
  cbn. lia.
Qed.

Lemma digits2_pos_unique (m : positive) (n : Z) :
  2 ^ (n - 1) <= Z.pos m < 2 ^ n -> Z.pos (digits2_pos m) = n.
Proof.
  intros [Hlo Hhi].
  destruct (digits2_pos_bounds m) as [Dlo Dhi].
  assert (0 < n).
  { destruct (Z.lt_trichotomy n 0) as [Hn | [Hn | Hn]]; try lia.
    - rewrite Z.pow_neg_r in Hhi by lia. lia.
    - subst n. cbn in Hhi. lia. }
  set (d := Z.pos (digits2_pos m)) in *.
  destruct (Z.lt_trichotomy d n) as [Hd | [Hd | Hd]]; [| assumption |].
  - assert (2 ^ d <= 2 ^ (n - 1)) by (apply Z.pow_le_mono_r; lia). lia.
  - assert (2 ^ n <= 2 ^ (d - 1)) by (apply Z.pow_le_mono_r; lia). lia.
Qed.

Lemma round_nearest_even_cases (m : Z) (l : location) :
  round_nearest_even m l = m \/ round_nearest_even m l = m + 1.
Proof.
  destruct l as [| []]; cbn; auto.
  destruct (Z.even m); auto.
Qed.

Lemma fexp_normal (z : Z) : -149 <= z - 24 -> fexp prec emax z = z - 24.
Proof. intros H. unfold fexp, emin, prec, emax. lia. Qed.

Lemma shiftl_neg (a j : Z) : 0 <= j -> Z.shiftl a (- j) = a / 2 ^ j.
Proof.
  intros Hj. rewrite <- Z.shiftr_div_pow2 by assumption.
  unfold Z.shiftr. reflexivity.
Qed.

Lemma iter_pos_nat {A : Type} (f : A -> A) (p : positive) (x : A) :
  iter_pos f p x = Nat.iter (Pos.to_nat p) f x.
Proof.
  revert x. induction p as [p IH | p IH |]; intros x; cbn [iter_pos].
  - rewrite !IH, Pos2Nat.inj_xI.
    replace (S (2 * Pos.to_nat p)) with (Pos.to_nat p + S (Pos.to_nat p))%nat
      by lia.
    rewrite Nat.iter_add, Nat.iter_succ_r. reflexivity.
  - rewrite !IH, Pos2Nat.inj_xO.
    replace (2 * Pos.to_nat p)%nat with (Pos.to_nat p + Pos.to_nat p)%nat by lia.
    rewrite Nat.iter_add. reflexivity.
  - reflexivity.
Qed.

Lemma shr_1_fields (mrs : shr_record) :
  0 <= shr_m mrs ->
  shr_m (shr_1 mrs) = shr_m mrs / 2 /\
  shr_r (shr_1 mrs) = Z.odd (shr_m mrs).
Proof.
  destruct mrs as [m r s]. cbn [shr_m]. intros Hm.
  destruct m as [| p | p]; [split; reflexivity | | lia].
  destruct p as [p | p |]; cbn [shr_1 shr_m shr_r].
  - split; [| reflexivity].
    rewrite Pos2Z.inj_xI. apply Z.div_unique with 1; lia.
  - split; [| reflexivity].
    rewrite (Pos2Z.inj_xO p). apply Z.div_unique with 0; lia.
  - split; reflexivity.
Qed.

Lemma shr_m_nat_iter (n : nat) (mrs : shr_record) :
  0 <= shr_m mrs ->
  shr_m (Nat.iter n shr_1 mrs) = shr_m mrs / 2 ^ Z.of_nat n.
Proof.
  intros Hm. induction n as [| n IH].
  - cbn. now rewrite Z.div_1_r.
  - rewrite Nat.iter_succ.
    assert (H : 0 <= shr_m (Nat.iter n shr_1 mrs))
      by (rewrite IH; apply Z.div_pos; lia).
    rewrite (proj1 (shr_1_fields _ H)), IH, Z.div_div by lia.
    rewrite Nat2Z.inj_succ, Z.pow_succ_r by lia.
    f_equal. lia.
Qed.

Lemma shr_m_iter (p : positive) (mrs : shr_record) :
  0 <= shr_m mrs ->
  shr_m (iter_pos shr_1 p mrs) = shr_m mrs / 2 ^ Z.pos p.
Proof.
  intros Hm. rewrite iter_pos_nat, shr_m_nat_iter by assumption.
  now rewrite positive_nat_Z.
Qed.

(** Rounding to nearest even after a shift by [p] bits, seen through a
    further division by [2^j]: half a unit is added before the bits are
    dropped. *)
Lemma round_shifted (p : positive) (M : Z) :
  0 <= M ->
  let mrs := iter_pos shr_1 p (Build_shr_record M false false) in
  let mx := round_nearest_even (shr_m mrs) (loc_of_shr_record mrs) in
  forall j : Z, 1 <= j ->
    mx / 2 ^ j = (M / 2 ^ (Z.pos p - 1) + 1) / 2 ^ (j + 1).
Proof.
  intros HM mrs mx j Hj. subst mx mrs.
  rewrite iter_pos_nat.
  destruct (Pos2Nat.is_succ p) as [n Hn]. rewrite Hn, Nat.iter_succ.
  set (y := Nat.iter n shr_1 (Build_shr_record M false false)).
  assert (Hy : shr_m y = M / 2 ^ (Z.pos p - 1)).
  { unfold y. rewrite shr_m_nat_iter by (cbn; lia). cbn [shr_m].
    do 2 f_equal. lia. }
  assert (Hh : 0 <= shr_m y) by (rewrite Hy; apply Z.div_pos; lia).
  destruct (shr_1_fields y Hh) as [Hm Hr].
  rewrite <- Hy. set (h := shr_m y) in *.
  assert (Hpj : 0 < 2 ^ j) by (apply Z.pow_pos_nonneg; lia).
  assert (Hpow : 2 ^ (j + 1) = 2 * 2 ^ j) by (rewrite Z.pow_add_r; lia).
  rewrite Hpow, <- Z.div_div by lia.
  destruct (shr_1 y) as [m r s]. cbn [shr_m shr_r] in *. subst m r.
  pose proof (Z.div_mod h 2 ltac:(lia)) as Hdm.
  rewrite Zmod_odd in Hdm.
  destruct (Z.odd h) eqn:Eo.
  - (* the first dropped bit is set *)
    replace ((h + 1) / 2) with (h / 2 + 1)
      by (apply Z.div_unique with 0; lia).
    destruct s; cbn [loc_of_shr_record round_nearest_even]; [reflexivity |].
    destruct (Z.even (h / 2)) eqn:Ee; [| reflexivity].
    (* a tie on an even mantissa: the odd successor is no multiple of 2^j *)
    set (a := h / 2) in *.
    pose proof (Z.div_mod a (2 ^ j) ltac:(lia)) as Ha.
    pose proof (Z.mod_pos_bound a (2 ^ j) Hpj) as Hb.
    apply Z.div_unique with (a mod 2 ^ j + 1); [| lia].
    left. split; [lia |].
    assert (Hne : a mod 2 ^ j + 1 <> 2 ^ j); [| lia].
    intros Heq.
    assert (He2 : Z.even (2 ^ j) = true).
    { replace j with (Z.succ (j - 1)) by lia.
      rewrite Z.pow_succ_r by lia. apply Z.even_mul. }
    assert (Hev : Z.even (a mod 2 ^ j) = true).
    { replace (a mod 2 ^ j) with (a - 2 ^ j * (a / 2 ^ j)) by lia.
      rewrite Z.even_sub, Z.even_mul, Ee, He2. reflexivity. }
    rewrite <- Heq, Z.even_add, Hev in He2. discriminate.
  - replace ((h + 1) / 2) with (h / 2)
      by (apply Z.div_unique with 1; lia).
    destruct s; reflexivity.
Qed.

(** Rounding a mantissa [M] of more than 24 bits: the result is [M] shifted
    to 24 bits, or the next mantissa; truncated to an integer it is [mx] with
    the [j = 24 - d - ex] fractional bits dropped. *)
Lemma binary_round_aux_trunc (sx : bool) (M : positive) (ex : Z) :
  let d := Z.pos (digits2_pos M) in
  24 < d -> -149 <= d + ex - 24 -> d + ex <= 23 ->
  exists (m' : positive) (e' mx : Z),
    binary_round_aux prec emax sx (Z.pos M) ex loc_Exact = S754_finite sx m' e' /\
    (mx = Z.pos M / 2 ^ (d - 24) \/ mx = Z.pos M / 2 ^ (d - 24) + 1) /\
    Z.shiftl (Z.pos m') e' = mx / 2 ^ (24 - d - ex) /\
    mx / 2 ^ (24 - d - ex) =
      (Z.pos M / 2 ^ (d - 24 - 1) + 1) / 2 ^ (24 - d - ex + 1).
Proof.
  intros d Hd Hn Hx.
  destruct (digits2_pos_bounds M) as [Dlo Dhi]. fold d in Dlo, Dhi.
  unfold binary_round_aux, shr_fexp. cbn [Zdigits2]. fold d.
  rewrite fexp_normal by assumption.
  replace (d + ex - 24 - ex) with (d - 24) by lia.
  destruct (d - 24) as [| p | p] eqn:Ek; try lia.
  cbn [shr].
  set (mrs' := iter_pos shr_1 p (shr_record_of_loc (Z.pos M) loc_Exact)).
  assert (Hm0 : shr_m mrs' = Z.pos M / 2 ^ Z.pos p)
    by (apply shr_m_iter; cbn; lia).
  assert (Hpow : 2 ^ d = 2 ^ 24 * 2 ^ Z.pos p).
  { replace d with (24 + Z.pos p) by lia. apply Z.pow_add_r; lia. }
  assert (Hpow' : 2 ^ (d - 1) = 2 ^ 23 * 2 ^ Z.pos p).
  { replace (d - 1) with (23 + Z.pos p) by lia. apply Z.pow_add_r; lia. }
  assert (Hpos : 0 < 2 ^ Z.pos p) by (apply Z.pow_pos_nonneg; lia).
  assert (Hlo : 2 ^ 23 <= shr_m mrs').
  { rewrite Hm0. apply Z.div_le_lower_bound; lia. }
  assert (Hhi : shr_m mrs' < 2 ^ 24).
  { rewrite Hm0. apply Z.div_lt_upper_bound; lia. }
  set (mx := round_nearest_even (shr_m mrs') (loc_of_shr_record mrs')).
  assert (Hmx : mx = shr_m mrs' \/ mx = shr_m mrs' + 1)
    by apply round_nearest_even_cases.
  assert (Hnear : mx / 2 ^ (24 - d - ex) =
                  (Z.pos M / 2 ^ (Z.pos p - 1) + 1) / 2 ^ (24 - d - ex + 1)).
  { apply (round_shifted p (Z.pos M)); lia. }
  assert (Hj : Z.shiftl mx (ex + Z.pos p) = mx / 2 ^ (24 - d - ex)).
  { replace (ex + Z.pos p) with (- (24 - d - ex)) by lia.
    apply shiftl_neg. lia. }
  destruct (Z.eq_dec mx (2 ^ 24)) as [Hover | Hfit].
  - (* the mantissa was rounded up to 2^24 and is renormalised *)
    rewrite Hover in *.
    exists (2 ^ 23)%positive, (ex + Z.pos p + 1), (2 ^ 24).
    split; [| split; [| split]].
    + change (Zdigits2 (2 ^ 24)) with 25.
      rewrite fexp_normal by lia.
      replace (25 + (ex + Z.pos p) - 24 - (ex + Z.pos p)) with 1 by lia.
      cbn.
      destruct (Z.leb_spec (ex + Z.pos p + 1) 104); [reflexivity | lia].
    + rewrite <- Hm0. destruct Hmx; lia.
    + rewrite <- Hj.
      replace (ex + Z.pos p + 1) with (- (23 - d - ex)) by lia.
      replace (ex + Z.pos p) with (- (24 - d - ex)) by lia.
      rewrite !shiftl_neg by lia.
      replace (24 - d - ex) with (1 + (23 - d - ex)) by lia.
      rewrite Z.pow_add_r by lia.
      change (Z.pos (2 ^ 23)) with (2 ^ 23). change (2 ^ 24) with (2 ^ 1 * 2 ^ 23).
      rewrite Z.div_mul_cancel_l; [reflexivity | | lia].
      apply Z.pow_nonzero; lia.
    + exact Hnear.
  - assert (Hq : 2 ^ 23 <= mx < 2 ^ 24) by (destruct Hmx; lia).
    destruct mx as [| q | q] eqn:Eq; try lia.
    exists q, (ex + Z.pos p), (Z.pos q).
    split; [| split; [| split]].
    + cbn [Zdigits2].
      rewrite (digits2_pos_unique q 24) by (change (24 - 1) with 23; lia).
      rewrite fexp_normal by lia.
      replace (24 + (ex + Z.pos p) - 24 - (ex + Z.pos p)) with 0 by lia.
      cbn.
      destruct (Z.leb_spec (ex + Z.pos p) 104); [reflexivity | lia].
    + rewrite <- Hm0. exact Hmx.
    + exact Hj.
    + exact Hnear.
Qed.

(** *** Comparisons of finite values *)

Lemma flt_finite (x y : float) :
  is_finite x = true -> is_finite y = true ->
  (flt x y = true <-> (F2Q x < F2Q y)%Q).
Proof.
  intros Hx Hy. unfold flt, fcompare.
  destruct x, y; try discriminate; rewrite Qlt_alt;
    destruct (_ ?= _)%Q; split; congruence.
Qed.

Lemma fge_finite (x y : float) :
  is_finite x = true -> is_finite y = true ->
  (fge x y = true <-> (F2Q y <= F2Q x)%Q).
Proof.
  intros Hx Hy. unfold fge, fcompare.
  destruct x, y; try discriminate; rewrite Qle_alt;
    match goal with
    | |- context [((?a ?= ?b)%Q <> Gt)] => rewrite <- (Qcompare_antisym b a)
    end;
    destruct (_ ?= _)%Q; cbn; split; congruence.
Qed.

Lemma flt_finite_false (x y : float) :
  is_finite x = true -> is_finite y = true ->
  (flt x y = false <-> (F2Q y <= F2Q x)%Q).
Proof.
  intros Hx Hy. rewrite <- not_true_iff_false, (flt_finite x y Hx Hy).
  split; [apply Qnot_lt_le | apply Qle_not_lt].
Qed.

Lemma fge_finite_false (x y : float) :
  is_finite x = true -> is_finite y = true ->
  (fge x y = false <-> (F2Q x < F2Q y)%Q).
Proof.
  intros Hx Hy. rewrite <- not_true_iff_false, (fge_finite x y Hx Hy).
  split; [apply Qnot_le_lt | apply Qlt_not_le].
Qed.

(** *** The number a mantissa and an exponent denote *)

Lemma dyadic_Qpower (m e : Z) : (dyadic m e == inject_Z m * 2 ^ e)%Q.
Proof.
  destruct e as [| p | p]; unfold dyadic.
  - rewrite Z.mul_1_r. cbn. ring.
  - rewrite inject_Z_mult, Zpower_Qpower by lia. reflexivity.
  - rewrite Qmake_Qdiv, Pos2Z.inj_pow, Zpower_Qpower by lia.
    change (2 ^ Z.neg p)%Q with (/ (2 ^ Z.pos p))%Q. reflexivity.
Qed.

Lemma Qfloor_dyadic (m e : Z) : Qfloor (dyadic m e) = Z.shiftl m e.
Proof.
  destruct e as [| p | p]; unfold dyadic.
  - rewrite Qfloor_Z. cbn. lia.
  - rewrite Qfloor_Z, Z.shiftl_mul_pow2 by lia. reflexivity.
  - change (Z.neg p) with (- Z.pos p). rewrite shiftl_neg by lia.
    cbn [Qfloor]. rewrite Pos2Z.inj_pow. reflexivity.
Qed.

Lemma dyadic_scale (m e : Z) :
  (180 * dyadic m e == dyadic (11796480 * m) (-16 + e))%Q.
Proof.
  rewrite !dyadic_Qpower, inject_Z_mult.
  rewrite (Qpower_plus 2 (-16) e) by discriminate.
  change (inject_Z 11796480) with (180 * 65536)%Q.
  change (2 ^ (-16))%Q with (/ 65536)%Q. field.
Qed.

(** A mantissa of at most 24 bits is kept as it is. *)
Lemma binary_round_aux_exact (sx : bool) (M : positive) (ex : Z) :
  let d := Z.pos (digits2_pos M) in
  d <= 24 -> -149 <= d + ex - 24 -> ex <= 104 ->
  binary_round_aux prec emax sx (Z.pos M) ex loc_Exact = S754_finite sx M ex.
Proof.
  intros d Hd Hn Hx.
  unfold binary_round_aux, shr_fexp. cbn [Zdigits2]. fold d.
  rewrite fexp_normal by assumption.
  destruct (d + ex - 24 - ex) as [| p | p] eqn:Ek; try lia;
    cbn [shr shr_record_of_loc shr_m loc_of_shr_record round_nearest_even];
    cbn [Zdigits2]; fold d; rewrite fexp_normal by assumption; rewrite Ek;
    cbn [shr shr_record_of_loc shr_m];
    destruct (Z.leb_spec ex (emax - prec)); try reflexivity;
    unfold emax, prec in *; lia.
Qed.

(** *** Rounding of an exact product *)

Lemma shiftl_bounds_digits (M : positive) (ex : Z) :
  1 <= Z.shiftl (Z.pos M) ex < 2 ^ 15 ->
  1 <= Z.pos (digits2_pos M) + ex <= 15.
Proof.
  intros [Hlo Hhi].
  destruct (digits2_pos_bounds M) as [Dlo Dhi].
  set (d := Z.pos (digits2_pos M)) in *.
  assert (Hd : 1 <= d) by (unfold d; lia).
  destruct (Z.le_gt_cases 0 ex) as [He | He].
  - rewrite Z.shiftl_mul_pow2 in Hhi by assumption.
    split; [lia |].
    destruct (Z.le_gt_cases (d + ex) 15) as [|Hbig]; [assumption | exfalso].
    assert (H1 : 2 ^ 15 <= 2 ^ (d - 1 + ex)) by (apply Z.pow_le_mono_r; lia).
    rewrite Z.pow_add_r in H1 by lia.
    assert (0 < 2 ^ ex) by (apply Z.pow_pos_nonneg; lia). nia.
  - replace ex with (- (- ex)) in Hlo, Hhi by lia.
    rewrite shiftl_neg in Hlo, Hhi by lia.
    assert (Hp : 0 < 2 ^ (- ex)) by (apply Z.pow_pos_nonneg; lia).
    split.
    + destruct (Z.le_gt_cases 1 (d + ex)) as [|Hsmall]; [assumption | exfalso].
      assert (H1 : 2 ^ d <= 2 ^ (- ex)) by (apply Z.pow_le_mono_r; lia).
      assert (Z.pos M / 2 ^ (- ex) = 0) by (apply Z.div_small; lia). lia.
    + destruct (Z.le_gt_cases (d + ex) 15) as [|Hbig]; [assumption | exfalso].
      assert (H1 : 2 ^ (15 + - ex) <= 2 ^ (d - 1)) by (apply Z.pow_le_mono_r; lia).
      rewrite Z.pow_add_r in H1 by lia.
      assert (2 ^ 15 <= Z.pos M / 2 ^ (- ex))
        by (apply Z.div_le_lower_bound; lia).
      lia.
Qed.

(** Rounding a number between 1 and 2^15 and truncating the result gives
    the integer part of the number or the next integer, and never passes an
    integer the number does not exceed. *)
Lemma binary_round_aux_bracket (sx : bool) (M : positive) (ex : Z) :
  1 <= Z.shiftl (Z.pos M) ex < 2 ^ 15 ->
  exists (m' : positive) (e' : Z),
    binary_round_aux prec emax sx (Z.pos M) ex loc_Exact = S754_finite sx m' e' /\
    Z.shiftl (Z.pos M) ex <= Z.shiftl (Z.pos m') e' <= Z.shiftl (Z.pos M) ex + 1 /\
    forall N : Z,
      (dyadic (Z.pos M) ex <= inject_Z N)%Q -> Z.shiftl (Z.pos m') e' <= N.
Proof.
  intros Hr. pose proof (shiftl_bounds_digits M ex Hr) as Hd.
  set (d := Z.pos (digits2_pos M)) in *.
  destruct (Z.le_gt_cases d 24) as [Hsmall | Hbig].
  - exists M, ex. split; [| split].
    + apply binary_round_aux_exact; fold d; lia.
    + lia.
    + intros N HN. rewrite <- Qfloor_dyadic, <- (Qfloor_Z N).
      now apply Qfloor_resp_le.
  - destruct (binary_round_aux_trunc sx M ex)
      as (m' & e' & mx & Hres & Hmx & Hv & _); fold d; try lia.
    fold d in Hmx, Hv.
    exists m', e'. split; [exact Hres |].
    set (k := d - 24) in *. set (j := 24 - d - ex) in *.
    assert (Hk : 0 < k) by (unfold k; lia).
    assert (Hj : 9 <= j) by (unfold j; lia).
    assert (Hex : ex = - (k + j)) by (unfold k, j; lia).
    assert (Hpk : 0 < 2 ^ k) by (apply Z.pow_pos_nonneg; lia).
    assert (Hpj : 2 <= 2 ^ j).
    { change 2 with (2 ^ 1) at 1. apply Z.pow_le_mono_r; lia. }
    assert (Hfl : Z.shiftl (Z.pos M) ex = Z.pos M / 2 ^ k / 2 ^ j).
    { rewrite Hex, shiftl_neg, Z.pow_add_r, Z.div_div by lia. reflexivity. }
    rewrite Hv, Hfl.
    set (m0 := Z.pos M / 2 ^ k) in *.
    assert (Hm0 : 0 <= m0) by (apply Z.div_pos; lia).
    split.
    + split.
      * apply Z.div_le_mono; [lia | destruct Hmx; lia].
      * assert (H1 : mx / 2 ^ j <= (m0 + 1 * 2 ^ j) / 2 ^ j)
          by (apply Z.div_le_mono; [lia | destruct Hmx; lia]).
        rewrite Z.div_add in H1 by lia. exact H1.
    + intros N HN.
      assert (HM : Z.pos M <= N * 2 ^ (k + j)).
      { rewrite Hex in HN. 
        destruct (k + j) as [| p | p] eqn:Ekj; try lia.
        cbn [Z.opp dyadic] in HN. unfold Qle in HN. cbn in HN.
        rewrite Pos2Z.inj_pow in HN. lia. }
      rewrite Z.pow_add_r in HM by lia.
      assert (Hm0N : m0 <= N * 2 ^ j).
      { unfold m0. replace (N * 2 ^ j) with (N * 2 ^ j * 2 ^ k / 2 ^ k)
          by (apply Z.div_mul; lia).
        apply Z.div_le_mono; lia. }
      assert (mx / 2 ^ j < N + 1); [| lia].
      apply Z.div_lt_upper_bound; [lia |]. destruct Hmx; nia.
Qed.

Lemma dyadic_pos (m : positive) (e : Z) : (0 < dyadic (Z.pos m) e)%Q.
Proof.
  destruct e as [| p | p]; unfold dyadic, Qlt, inject_Z; cbn [Qnum Qden]; lia.
Qed.

Lemma float_of_int_maxSpeed :
  float_of_int 180 = S754_finite false 11796480 (-16).
Proof. reflexivity. Qed.

Lemma speed_bracket (mag : float) :
  is_finite mag = true -> (0.15 <= F2Q mag <= 182)%Q ->
  let v := ftrunc (fmul (float_of_int 180) mag) in
  (Qfloor (180 * F2Q mag) <= v <= Qfloor (180 * F2Q mag) + 1) /\
  (forall N : Z, (180 * F2Q mag <= inject_Z N)%Q -> v <= N).
Proof.
  intros Hfin [Hlo Hhi].
  destruct mag as [sg | sg | | sg m e]; try discriminate.
  { exfalso. cbn in Hlo. lra. }
  destruct sg.
  { exfalso. pose proof (dyadic_pos m e). cbn [F2Q] in Hlo. lra. }
  cbn [F2Q] in *.
  rewrite float_of_int_maxSpeed.
  change (fmul (S754_finite false 11796480 (-16)) (S754_finite false m e))
    with (binary_round_aux prec emax false (Z.pos (11796480 * m)) (-16 + e)
            loc_Exact).
  assert (Hfl : Qfloor (180 * dyadic (Z.pos m) e) =
                Z.shiftl (Z.pos (11796480 * m)) (-16 + e)).
  { rewrite <- Qfloor_dyadic. apply Qfloor_comp.
    rewrite Pos2Z.inj_mul. apply dyadic_scale. }
  assert (Hr : 1 <= Z.shiftl (Z.pos (11796480 * m)) (-16 + e) < 2 ^ 15).
  { rewrite <- Hfl. split.
    - rewrite <- (Qfloor_Z 1). apply Qfloor_resp_le.
      change (inject_Z 1) with 1%Q. lra.
    - apply Z.le_lt_trans with 32760; [| reflexivity].
      rewrite <- (Qfloor_Z 32760). apply Qfloor_resp_le.
      change (inject_Z 32760) with 32760%Q. lra. }
  destruct (binary_round_aux_bracket false (11796480 * m) (-16 + e) Hr)
    as (m' & e' & Hres & Hb & HN).
  rewrite Hres. cbn [ftrunc]. rewrite Hfl.
  split; [exact Hb |].
  intros N H. apply HN.
  rewrite Pos2Z.inj_mul, <- dyadic_scale. exact H.
Qed.

(** No binary32 number lies between 0.15 and the float nearest to it. *)
Lemma float_0_15_least (x : float) :
  is_finite x = true -> binary32 x -> (0.15 <= F2Q x)%Q ->
  (F2Q float_0_15 <= F2Q x)%Q.
Proof.
  intros Hfin Hval Hx.
  destruct x as [sg | sg | | sg m e]; try discriminate.
  { exfalso. cbn in Hx. lra. }
  destruct sg.
  { exfalso. pose proof (dyadic_pos m e). cbn [F2Q] in Hx. lra. }
  unfold binary32 in Hval. cbn [valid_binary] in Hval.
  unfold bounded, canonical_mantissa in Hval.
  apply andb_true_iff in Hval. destruct Hval as [Hcan _].
  apply Z.eqb_eq in Hcan. unfold fexp, emin, prec, emax in Hcan.
  destruct (digits2_pos_bounds m) as [_ Dhi].
  set (d := Z.pos (digits2_pos m)) in *.
  assert (Hd : d <= 24) by lia.
  assert (Hm : Z.pos m < 2 ^ 24).
  { apply Z.lt_le_trans with (2 ^ d); [assumption |].
    apply Z.pow_le_mono_r; lia. }
  cbn [F2Q float_0_15] in *.
  destruct e as [| p | p]; unfold dyadic, Qle, inject_Z in *;
    cbn [Qnum Qden] in Hx |- *.
  - lia.
  - assert (0 < 2 ^ Z.pos p) by (apply Z.pow_pos_nonneg; lia). nia.
  - rewrite Pos2Z.inj_pow in *.
    destruct (Z.le_gt_cases (Z.pos p) 26) as [Hp | Hp].
    + assert (Hsplit : 2 ^ 26 = 2 ^ Z.pos p * 2 ^ (26 - Z.pos p)).
      { rewrite <- Z.pow_add_r by lia. f_equal. lia. }
      assert (0 < 2 ^ Z.pos p) by (apply Z.pow_pos_nonneg; lia).
      assert (0 < 2 ^ (26 - Z.pos p)) by (apply Z.pow_pos_nonneg; lia).
      change (Z.pos (2 ^ 26)) with (2 ^ 26). rewrite Hsplit.
      set (P := 2 ^ Z.pos p) in *. set (T := 2 ^ (26 - Z.pos p)) in *.
      assert (H15 : 15 * (P * T) <= 100 * (Z.pos m * T)) by nia.
      rewrite <- Hsplit in H15. change (2 ^ 26) with 67108864 in H15.
      assert (10066330 <= Z.pos m * T) by lia.
      nia.
    + exfalso.
      assert (2 ^ 27 <= 2 ^ Z.pos p) by (apply Z.pow_le_mono_r; lia).
      change (Z.pos (2 ^ 26)) with 67108864.
      change (2 ^ 27) with 134217728 in *. change (2 ^ 24) with 16777216 in *.
      lia.
Qed.

Lemma shiftl_log2_digits (M : positive) (ex : Z) :
  1 <= Z.shiftl (Z.pos M) ex ->
  Z.log2 (Z.shiftl (Z.pos M) ex) = Z.pos (digits2_pos M) + ex - 1.
Proof.
  intros Hlo.
  destruct (digits2_pos_bounds M) as [Dlo Dhi].
  set (d := Z.pos (digits2_pos M)) in *.
  assert (Hd : 1 <= d) by (unfold d; lia).
  destruct (Z.le_gt_cases 0 ex) as [He | He].
  - rewrite Z.shiftl_mul_pow2 in * by assumption.
    assert (0 < 2 ^ ex) by (apply Z.pow_pos_nonneg; lia).
    apply Z.log2_unique; [lia |].
    replace (Z.succ (d + ex - 1)) with (d + ex) by lia.
    replace (d + ex - 1) with (d - 1 + ex) by lia.
    rewrite !Z.pow_add_r by lia.
    split; [apply Z.mul_le_mono_nonneg_r; lia | apply Z.mul_lt_mono_pos_r; lia].
  - replace ex with (- (- ex)) in Hlo |- * at 1 by lia.
    rewrite shiftl_neg in * by lia.
    assert (Hp : 0 < 2 ^ (- ex)) by (apply Z.pow_pos_nonneg; lia).
    assert (Hde : 1 <= d + ex).
    { destruct (Z.le_gt_cases 1 (d + ex)) as [|Hsmall]; [assumption | exfalso].
      assert (H1 : 2 ^ d <= 2 ^ (- ex)) by (apply Z.pow_le_mono_r; lia).
      assert (Z.pos M / 2 ^ (- ex) = 0) by (apply Z.div_small; lia). lia. }
    apply Z.log2_unique; [lia |].
    replace (Z.succ (d + ex - 1)) with (d + ex) by lia.
    assert (H1 : 2 ^ (d - 1) = 2 ^ (d + ex - 1) * 2 ^ (- ex)).
    { rewrite <- Z.pow_add_r by lia. f_equal. lia. }
    assert (H2 : 2 ^ d = 2 ^ (d + ex) * 2 ^ (- ex)).
    { rewrite <- Z.pow_add_r by lia. f_equal. lia. }
    split.
    + apply Z.div_le_lower_bound; lia.
    + apply Z.div_lt_upper_bound; lia.
Qed.

(** Rounding a number [x] between 1 and 2^15 and truncating the result
    gives the integer part of [x] plus half the spacing of the floats around
    [x]; [c] counts the fractional bits of that half spacing. *)
Lemma binary_round_aux_nearest (sx : bool) (M : positive) (ex : Z) :
  1 <= Z.shiftl (Z.pos M) ex < 2 ^ 15 ->
  let c := 24 - Z.log2 (Z.shiftl (Z.pos M) ex) in
  exists (m' : positive) (e' : Z),
    binary_round_aux prec emax sx (Z.pos M) ex loc_Exact = S754_finite sx m' e' /\
    Z.shiftl (Z.pos m') e' = (Z.shiftl (Z.pos M) (ex + c) + 1) / 2 ^ c.
Proof.
  intros Hr c. pose proof (shiftl_bounds_digits M ex Hr) as Hd.
  pose proof (shiftl_log2_digits M ex (proj1 Hr)) as Hlog.
  set (d := Z.pos (digits2_pos M)) in *.
  assert (Hc : c = 25 - d - ex) by (unfold c; lia).
  clearbody c. subst c.
  assert (Hpc : 2 <= 2 ^ (25 - d - ex)).
  { change 2 with (2 ^ 1) at 1. apply Z.pow_le_mono_r; lia. }
  destruct (Z.le_gt_cases d 24) as [Hsmall | Hbig].
  - exists M, ex. split; [apply binary_round_aux_exact; fold d; lia |].
    replace (ex + (25 - d - ex)) with (25 - d) by lia.
    rewrite (Z.shiftl_mul_pow2 _ (25 - d)) by lia.
    destruct (Z.le_gt_cases 0 ex) as [He | He].
    + rewrite Z.shiftl_mul_pow2 by assumption.
      apply Z.div_unique with 1; [lia |].
      assert (Hsplit : 2 ^ (25 - d) = 2 ^ ex * 2 ^ (25 - d - ex)).
      { rewrite <- Z.pow_add_r by lia. f_equal. lia. }
      rewrite Hsplit. ring.
    + replace ex with (- (- ex)) at 1 by lia. rewrite shiftl_neg by lia.
      assert (Hp : 0 < 2 ^ (- ex)) by (apply Z.pow_pos_nonneg; lia).
      assert (Ht : 2 <= 2 ^ (25 - d)).
      { change 2 with (2 ^ 1) at 1. apply Z.pow_le_mono_r; lia. }
      assert (Hsplit : 2 ^ (25 - d - ex) = 2 ^ (- ex) * 2 ^ (25 - d)).
      { rewrite <- Z.pow_add_r by lia. f_equal. lia. }
      pose proof (Z.div_mod (Z.pos M) (2 ^ (- ex)) ltac:(lia)) as Hdm.
      pose proof (Z.mod_pos_bound (Z.pos M) (2 ^ (- ex)) Hp) as Hb.
      apply Z.div_unique with (Z.pos M mod 2 ^ (- ex) * 2 ^ (25 - d) + 1).
      * left. rewrite Hsplit. nia.
      * rewrite Hsplit. nia.
  - destruct (binary_round_aux_trunc sx M ex)
      as (m' & e' & mx & Hres & _ & Hv & Hnear); fold d; try lia.
    fold d in Hv, Hnear.
    exists m', e'. split; [exact Hres |].
    rewrite Hv, Hnear.
    replace (ex + (25 - d - ex)) with (- (d - 24 - 1)) by lia.
    rewrite shiftl_neg by lia.
    replace (24 - d - ex + 1) with (25 - d - ex) by lia. reflexivity.
Qed.

Lemma dyadic_shift (m e c : Z) :
  0 <= c -> (dyadic m e * inject_Z (2 ^ c) == dyadic m (e + c))%Q.
Proof.
  intros Hc. rewrite !dyadic_Qpower, Zpower_Qpower by assumption.
  rewrite (Qpower_plus 2 e c) by discriminate.
  change (inject_Z 2) with 2%Q. ring.
Qed.

(** The truncated float product in closed form: [c] counts the fractional
    bits of half the spacing of the floats around [180 * mag]. *)
Lemma speed_nearest (mag : float) :
  is_finite mag = true -> (0.15 <= F2Q mag <= 182)%Q ->
  let x := (180 * F2Q mag)%Q in
  let c := 24 - Z.log2 (Qfloor x) in
  ftrunc (fmul (float_of_int 180) mag) =
  (Qfloor (x * inject_Z (2 ^ c)) + 1) / 2 ^ c.
Proof.
  intros Hfin [Hlo Hhi].
  destruct mag as [sg | sg | | sg m e]; try discriminate.
  { exfalso. cbn in Hlo. lra. }
  destruct sg.
  { exfalso. pose proof (dyadic_pos m e). cbn [F2Q] in Hlo. lra. }
  cbn [F2Q] in *.
  set (x := (180 * dyadic (Z.pos m) e)%Q).
  set (c := 24 - Z.log2 (Qfloor x)).
  rewrite float_of_int_maxSpeed.
  change (fmul (S754_finite false 11796480 (-16)) (S754_finite false m e))
    with (binary_round_aux prec emax false (Z.pos (11796480 * m)) (-16 + e)
            loc_Exact).
  assert (Hx : (x == dyadic (Z.pos (11796480 * m)) (-16 + e))%Q).
  { unfold x. rewrite Pos2Z.inj_mul. apply dyadic_scale. }
  assert (Hfl : Qfloor x = Z.shiftl (Z.pos (11796480 * m)) (-16 + e)).
  { rewrite <- Qfloor_dyadic. now apply Qfloor_comp. }
  assert (Hr : 1 <= Z.shiftl (Z.pos (11796480 * m)) (-16 + e) < 2 ^ 15).
  { rewrite <- Hfl. unfold x. split.
    - rewrite <- (Qfloor_Z 1). apply Qfloor_resp_le.
      change (inject_Z 1) with 1%Q. lra.
    - apply Z.le_lt_trans with 32760; [| reflexivity].
      rewrite <- (Qfloor_Z 32760). apply Qfloor_resp_le.
      change (inject_Z 32760) with 32760%Q. lra. }
  destruct (binary_round_aux_nearest false (11796480 * m) (-16 + e) Hr)
    as (m' & e' & Hres & Hv).
  rewrite Hres. cbn [ftrunc]. rewrite Hv, <- Hfl. fold c.
  assert (Hc : 0 <= c).
  { unfold c. rewrite Hfl.
    assert (Z.log2 (Z.shiftl (Z.pos (11796480 * m)) (-16 + e)) < 15)
      by (apply Z.log2_lt_pow2; lia).
    lia. }
  do 2 f_equal. rewrite <- Qfloor_dyadic. apply Qfloor_comp.
  rewrite Hx. symmetry. now apply dyadic_shift.
Qed.

(** ** Joystick mapping *)

Lemma int16_small (z : Z) : - 2 ^ 15 <= z < 2 ^ 15 -> int16 z = z.
Proof. intros H. unfold int16. rewrite Z.mod_small by lia. lia. Qed.

(** The literal 0.15 lies just above the real number 0.15. *)
Lemma float_0_15_value :
  (0.15 < F2Q float_0_15)%Q /\ (F2Q float_0_15 < 0.15000001)%Q.
Proof. split; reflexivity. Qed.

(** A comparison of a number with an integer constant is the comparison of
    the values. *)
Lemma compare_edge (x : float) (n : Z) (q : Q) :
  is_finite x = true -> is_finite (float_of_int n) = true ->
  (F2Q (float_of_int n) == q)%Q ->
  (if flt x (float_of_int n) then (F2Q x < q)%Q else (q <= F2Q x)%Q) /\
  (if fge x (float_of_int n) then (q <= F2Q x)%Q else (F2Q x < q)%Q).
Proof.
  intros Hx Hn Hq. split.
  - destruct (flt x (float_of_int n)) eqn:E; rewrite <- Hq.
    + now apply flt_finite in E.
    + now apply flt_finite_false in E.
  - destruct (fge x (float_of_int n)) eqn:E; rewrite <- Hq.
    + now apply fge_finite in E.
    + now apply fge_finite_false in E.
Qed.

Lemma controlMotors_stopped (rot mag : float) (s : State) :
  flt mag float_0_15 = true -> controlMotors rot mag s = stopMoving s.
Proof. intros H. unfold controlMotors. rewrite H. reflexivity. Qed.

(** At or above the threshold the command, if any, is the one the rotation
    selects, at the speed computed from the magnitude. *)
Lemma controlMotors_moving (rot mag : float) (s : State) :
  flt mag float_0_15 = false ->
  controlMotors rot mag s =
  match directionOf rot with
  | Some c => issue c (speedOf mag) s
  | None => s
  end.
Proof.
  intros H. unfold controlMotors, directionOf, speedOf. rewrite H.
  repeat match goal with
         | |- context [if ?b then _ else _] => destruct b
         end; reflexivity.
Qed.

Lemma below_threshold (mag : float) :
  is_finite mag = true -> (F2Q mag < 0.15)%Q -> flt mag float_0_15 = true.
Proof.
  intros Hfin H. apply flt_finite; [assumption | reflexivity |].
  destruct float_0_15_value as [Hv _]. lra.
Qed.

Lemma at_threshold (mag : float) :
  is_finite mag = true -> binary32 mag -> (0.15 <= F2Q mag)%Q ->
  flt mag float_0_15 = false.
Proof.
  intros Hfin Hval H. apply flt_finite_false; [assumption | reflexivity |].
  now apply float_0_15_least.
Qed.

Ltac band_tests rot Hfin :=
  destruct (compare_edge rot 30 30 Hfin eq_refl ltac:(reflexivity)) as [L30 G30];
  destruct (compare_edge rot 150 150 Hfin eq_refl ltac:(reflexivity))
    as [L150 G150];
  destruct (compare_edge rot 210 210 Hfin eq_refl ltac:(reflexivity))
    as [L210 G210];
  destruct (compare_edge rot 330 330 Hfin eq_refl ltac:(reflexivity))
    as [L330 G330];
  unfold directionOf;
  destruct (fge rot (float_of_int 330)), (flt rot (float_of_int 30)),
    (fge rot (float_of_int 30)), (flt rot (float_of_int 150)),
    (fge rot (float_of_int 150)), (flt rot (float_of_int 210)),
    (fge rot (float_of_int 210)), (flt rot (float_of_int 330));
  cbn [orb andb].

(** The band of a rotation that is a number. *)
Lemma directionOf_finite (rot : float) :
  is_finite rot = true ->
  ((330 <= F2Q rot \/ F2Q rot < 30)%Q -> directionOf rot = Some TurnRight) /\
  ((30 <= F2Q rot < 150)%Q -> directionOf rot = Some Backward) /\
  ((150 <= F2Q rot < 210)%Q -> directionOf rot = Some TurnLeft) /\
  ((210 <= F2Q rot < 330)%Q -> directionOf rot = Some Forward).
Proof.
  intros Hfin. band_tests rot Hfin;
    (split; [| split; [| split]]); intros H; try reflexivity; exfalso; lra.
Qed.

Lemma directionOf_infinity (sg : bool) :
  directionOf (S754_infinity sg) = Some TurnRight.
Proof. destruct sg; reflexivity. Qed.

Lemma directionOf_nan : directionOf S754_nan = None.
Proof. reflexivity. Qed.

(** Every rotation but NaN selects one of the four direction commands. *)
Lemma directionOf_number (rot : float) :
  is_nan rot = false ->
  exists c : Command, directionOf rot = Some c /\ c <> Stop.
Proof.
  intros Hnan.
  destruct (is_finite rot) eqn:Hfin.
  - destruct (directionOf_finite rot Hfin) as (HR & HB & HL & HF).
    destruct (Qlt_le_dec (F2Q rot) 30) as [H1 | H1].
    { exists TurnRight. split; [apply HR; now right | discriminate]. }
    destruct (Qlt_le_dec (F2Q rot) 150) as [H2 | H2].
    { exists Backward. split; [apply HB; now split | discriminate]. }
    destruct (Qlt_le_dec (F2Q rot) 210) as [H3 | H3].
    { exists TurnLeft. split; [apply HL; now split | discriminate]. }
    destruct (Qlt_le_dec (F2Q rot) 330) as [H4 | H4].
    { exists Forward. split; [apply HF; now split | discriminate]. }
    exists TurnRight. split; [apply HR; now left | discriminate].
  - destruct rot as [sg | sg | | sg m e]; try discriminate.
    exists TurnRight. split; [apply directionOf_infinity | discriminate].
Qed.

Lemma directionOf_not_Stop (rot : float) : directionOf rot <> Some Stop.
Proof.
  unfold directionOf.
  repeat match goal with
         | |- context [if ?b then _ else _] => destruct b
         end; discriminate.
Qed.

Lemma issue_not_stopMoving (c : Command) (spd : Z) (s : State) :
  c <> Stop -> issue c spd s <> stopMoving s.
Proof.
  intros Hc H.
  assert (Hl : leftMotor (issue c spd s) = leftMotor (stopMoving s))
    by (rewrite H; reflexivity).
  destruct c; try contradiction; cbv in Hl; discriminate.
Qed.

Lemma issue_changes_trace (c : Command) (spd : Z) (s : State) :
  issue c spd s <> s.
Proof.
  intros Heq.
  assert (Hlen : List.length (trace (issue c spd s)) = List.length (trace s))
    by (rewrite Heq; reflexivity).
  rewrite trace_issue, length_app in Hlen.
  destruct c; cbn in Hlen; lia.
Qed.

Lemma unique_direction (rot mag : float) (s : State) :
  flt mag float_0_15 = false -> is_nan rot = false ->
  exists! c : Command,
    c <> Stop /\ controlMotors rot mag s = issue c (speedOf mag) s.
Proof.
  intros H Hnan.
  destruct (directionOf_number rot Hnan) as (c & Hc & Hns).
  pose proof (controlMotors_moving rot mag s H) as Hmove.
  rewrite Hc in Hmove.
  exists c. split; [now split |].
  intros c' [Hc' Heq]. rewrite Hmove in Heq.
  apply (issue_injective _ _ _ _ Hns Hc' Heq).
Qed.

(** In the range of the joystick (and up to magnitude 182) the product fits
    the 16-bit [int]; the speed is the integer part of [180 * mag] or, when
    the rounding of the product reaches the next integer, that one. *)
Lemma speedOf_bracket (mag : float) :
  is_finite mag = true -> (0.15 <= F2Q mag <= 182)%Q ->
  speedOf mag = ftrunc (fmul (float_of_int maxSpeed) mag) /\
  (Qfloor (180 * F2Q mag) <= speedOf mag <= Qfloor (180 * F2Q mag) + 1) /\
  (forall N : Z, (180 * F2Q mag <= inject_Z N)%Q -> speedOf mag <= N).
Proof.
  intros Hfin Hr.
  destruct (speed_bracket mag Hfin Hr) as [Hb HN].
  change (float_of_int 180) with (float_of_int maxSpeed) in Hb, HN.
  assert (Hlo : 27 <= Qfloor (180 * F2Q mag)).
  { rewrite <- (Qfloor_Z 27). apply Qfloor_resp_le.
    change (inject_Z 27) with 27%Q. lra. }
  assert (Hhi : Qfloor (180 * F2Q mag) <= 32760).
  { rewrite <- (Qfloor_Z 32760). apply Qfloor_resp_le.
    change (inject_Z 32760) with 32760%Q. lra. }
  assert (Hs : speedOf mag = ftrunc (fmul (float_of_int maxSpeed) mag)).
  { unfold speedOf, float_to_int16. apply int16_small.
    change (2 ^ 15) with 32768. lia. }
  rewrite Hs. split; [reflexivity |]. split; assumption.
Qed.

(** The speed never decreases when the magnitude grows (up to 182). *)
Lemma speedOf_monotone (mag mag' : float) :
  is_finite mag = true -> is_finite mag' = true ->
  (0.15 <= F2Q mag)%Q -> (F2Q mag <= F2Q mag')%Q -> (F2Q mag' <= 182)%Q ->
  speedOf mag <= speedOf mag'.
Proof.
  intros Hfin Hfin' Hlo Hle Hhi.
  assert (Hr : (0.15 <= F2Q mag <= 182)%Q) by (split; lra).
  assert (Hr' : (0.15 <= F2Q mag' <= 182)%Q) by (split; lra).
  destruct (speedOf_bracket mag Hfin Hr) as (Hs & [_ Hb] & _).
  destruct (speedOf_bracket mag' Hfin' Hr') as (Hs' & [Hb' _] & _).
  assert (Hn : Qfloor (180 * F2Q mag) <= Qfloor (180 * F2Q mag'))
    by (apply Qfloor_resp_le; lra).
  destruct (Z.eq_dec (Qfloor (180 * F2Q mag)) (Qfloor (180 * F2Q mag')))
    as [Heq | Hne]; [| lia].
  pose proof (speed_nearest mag Hfin Hr) as Hv.
  pose proof (speed_nearest mag' Hfin' Hr') as Hv'.
  cbv zeta in Hv, Hv'.
  change (float_of_int 180) with (float_of_int maxSpeed) in Hv, Hv'.
  rewrite Hs, Hs', Hv, Hv', <- Heq.
  set (c := 24 - Z.log2 (Qfloor (180 * F2Q mag))).
  assert (Hc : 0 < 2 ^ c).
  { apply Z.pow_pos_nonneg; [lia |]. unfold c.
    assert (Z.log2 (Qfloor (180 * F2Q mag)) < 15); [| lia].
    apply Z.log2_lt_pow2.
    - apply Z.lt_le_trans with 27; [lia |].
      rewrite <- (Qfloor_Z 27). apply Qfloor_resp_le.
      change (inject_Z 27) with 27%Q. lra.
    - apply Z.le_lt_trans with 32760; [| reflexivity].
      rewrite <- (Qfloor_Z 32760). apply Qfloor_resp_le.
      change (inject_Z 32760) with 32760%Q. lra. }
  apply Z.div_le_mono; [assumption |].
  apply Z.add_le_mono_r, Qfloor_resp_le.
  apply Qmult_le_compat_r; [lra |].
  change 0%Q with (inject_Z 0). rewrite <- Zle_Qle. lia.
Qed.

(** The sample values are what the decimal reading gives for their
    literals. *)
Example decimalToFloat_samples :
  decimalToFloat "0.5" = float_0_5 /\
  decimalToFloat "0.7" = float_0_7 /\
  decimalToFloat "0.15" = float_0_15 /\
  decimalToFloat "0.149999" = float_0_149999 /\
  decimalToFloat "45" = float_of_int 45 /\
  decimalToFloat "-20" = float_of_int (-20) /\
  binary32 float_0_7 /\
  (F2Q float_0_7 < 0.7)%Q /\ (0.6999999 < F2Q float_0_7)%Q.
Proof. vm_compute. repeat split. Qed.

(** C3 (counterexample): "J0:45,0.7" gives the magnitude the float nearest
    to 0.7, which is 11744051 / 2^24, a little below 0.7.  The exact product
    with 180 is just below 126, so its floor is 125; the float product is
    rounded to 126.0 and [moveBackward] receives 126. *)
Lemma controlMotors_speed_counterexample :
  decimalToFloat "0.7" = float_0_7 /\
  (0.15 <= F2Q float_0_7)%Q /\
  Qfloor (180 * F2Q float_0_7) = 125 /\
  controlMotors (float_of_int 45) float_0_7 powerOn = moveBackward 126 powerOn /\
  controlMotors (float_of_int 45) float_0_7 powerOn <>
  moveBackward (Qfloor (180 * F2Q float_0_7)) powerOn.
Proof.
  split; [reflexivity |]. split; [discriminate |]. split; [reflexivity |].
  split; [reflexivity |].
  intros H.
  assert (Hd : leftSpeed (controlMotors (float_of_int 45) float_0_7 powerOn) =
               leftSpeed (moveBackward (Qfloor (180 * F2Q float_0_7)) powerOn))
    by (rewrite H; reflexivity).
  vm_compute in Hd. discriminate.
Qed.

(** C3 (amended): for a rotation and a magnitude that are binary32 numbers,
    below magnitude 0.15 [controlMotors] stops whatever the rotation; from
    0.15 on it does not stop and calls [turnRight] on [330,360) U [0,30),
    [moveBackward] on [30,150), [turnLeft] on [150,210) and [moveForward] on
    [210,330), and on [0,360) exactly one of the four direction commands is
    called.  The speed is the float product [maxSpeed * mag], rounded to
    nearest, then truncated: up to magnitude 182 it is floor(180 * mag) or
    floor(180 * mag) + 1, namely the integer part of the product plus half
    the spacing [2^-c] of the floats around it. *)
Theorem controlMotors_mapping (rot mag : float) (s : State) :
  is_finite rot = true -> is_finite mag = true -> binary32 mag ->
  let r := F2Q rot in
  let m := F2Q mag in
  let speed := speedOf mag in
  ((m < 0.15)%Q -> controlMotors rot mag s = stopMoving s) /\
  ((0.15 <= m)%Q ->
   ((330 <= r < 360 \/ 0 <= r < 30)%Q ->
    controlMotors rot mag s = turnRight speed s) /\
   ((30 <= r < 150)%Q -> controlMotors rot mag s = moveBackward speed s) /\
   ((150 <= r < 210)%Q -> controlMotors rot mag s = turnLeft speed s) /\
   ((210 <= r < 330)%Q -> controlMotors rot mag s = moveForward speed s) /\
   controlMotors rot mag s <> stopMoving s /\
   ((0 <= r < 360)%Q ->
    exists! c : Command,
      c <> Stop /\ controlMotors rot mag s = issue c speed s)) /\
  ((0.15 <= m <= 182)%Q ->
   speed = ftrunc (fmul (float_of_int maxSpeed) mag) /\
   Qfloor (180 * m) <= speed <= Qfloor (180 * m) + 1 /\
   let c := 24 - Z.log2 (Qfloor (180 * m)) in
   speed = (Qfloor (180 * m * inject_Z (2 ^ c)) + 1) / 2 ^ c).
Proof.
  intros Hrot Hmag Hval r m speed.
  split; [| split].
  - intros H. apply controlMotors_stopped. now apply below_threshold.
  - intros H.
    assert (Hthr : flt mag float_0_15 = false) by now apply at_threshold.
    pose proof (controlMotors_moving rot mag s Hthr) as Hmove.
    fold speed in Hmove.
    destruct (directionOf_finite rot Hrot) as (HR & HB & HL & HF).
    fold r in HR, HB, HL, HF.
    repeat split.
    + intros Hr. rewrite Hmove, HR; [reflexivity | lra].
    + intros Hr. rewrite Hmove, HB; [reflexivity | lra].
    + intros Hr. rewrite Hmove, HL; [reflexivity | lra].
    + intros Hr. rewrite Hmove, HF; [reflexivity | lra].
    + assert (Hnan : is_nan rot = false) by (destruct rot; easy).
      destruct (directionOf_number rot Hnan) as (c & Hc & Hns).
      rewrite Hmove, Hc. now apply issue_not_stopMoving.
    + intros _. apply unique_direction; [assumption |].
      destruct rot; easy.
  - intros H. destruct (speedOf_bracket mag Hmag H) as (Hs & Hb & _).
    split; [assumption |]. split; [assumption |].
    unfold speed. rewrite Hs. apply (speed_nearest mag Hmag H).
Qed.

Lemma controlMotors_mapping_witness :
  controlMotors (float_of_int 200) float_0_149999 powerOn = stopMoving powerOn /\
  controlMotors (float_of_int 345) float_0_5 powerOn = turnRight 90 powerOn /\
  controlMotors (float_of_int 45) float_0_5 powerOn = moveBackward 90 powerOn /\
  controlMotors (float_of_int 150) float_0_15 powerOn = turnLeft 27 powerOn /\
  controlMotors (float_of_int 329) (float_of_int 1) powerOn =
    moveForward 180 powerOn /\
  controlMotors (float_of_int 0) float_0_15 powerOn <> stopMoving powerOn /\
  (exists! c : Command,
     c <> Stop /\
     controlMotors (float_of_int 45) float_0_5 powerOn = issue c 90 powerOn) /\
  125 <= speedOf float_0_7 <= 126.
Proof.
  assert (Q1 : (F2Q float_0_149999 < 0.15)%Q) by reflexivity.
  assert (Q2 : (0.15 <= F2Q float_0_5)%Q) by discriminate.
  assert (Q3 : (0.15 <= F2Q float_0_15)%Q) by discriminate.
  assert (Q4 : (0.15 <= F2Q (float_of_int 1))%Q) by discriminate.
  assert (Q5 : (0.15 <= F2Q float_0_7 <= 182)%Q) by (split; discriminate).
  split.
  { apply (controlMotors_mapping (float_of_int 200) float_0_149999 powerOn
             eq_refl eq_refl eq_refl). exact Q1. }
  split.
  { destruct (controlMotors_mapping (float_of_int 345) float_0_5 powerOn
                eq_refl eq_refl eq_refl) as (_ & H & _).
    destruct (H Q2) as (H1 & _). apply H1. left. split; discriminate || reflexivity. }
  split.
  { destruct (controlMotors_mapping (float_of_int 45) float_0_5 powerOn
                eq_refl eq_refl eq_refl) as (_ & H & _).
    destruct (H Q2) as (_ & H1 & _). apply H1. split; discriminate || reflexivity. }
  split.
  { destruct (controlMotors_mapping (float_of_int 150) float_0_15 powerOn
                eq_refl eq_refl eq_refl) as (_ & H & _).
    destruct (H Q3) as (_ & _ & H1 & _). apply H1.
    split; discriminate || reflexivity. }
  split.
  { destruct (controlMotors_mapping (float_of_int 329) (float_of_int 1) powerOn
                eq_refl eq_refl eq_refl) as (_ & H & _).
    destruct (H Q4) as (_ & _ & _ & H1 & _). apply H1.
    split; discriminate || reflexivity. }
  split.
  { destruct (controlMotors_mapping (float_of_int 0) float_0_15 powerOn
                eq_refl eq_refl eq_refl) as (_ & H & _).
    destruct (H Q3) as (_ & _ & _ & _ & H1 & _). exact H1. }
  split.
  { destruct (controlMotors_mapping (float_of_int 45) float_0_5 powerOn
                eq_refl eq_refl eq_refl) as (_ & H & _).
    destruct (H Q2) as (_ & _ & _ & _ & _ & H1). apply H1.
    split; discriminate || reflexivity. }
  destruct (controlMotors_mapping (float_of_int 45) float_0_7 powerOn
              eq_refl eq_refl eq_refl) as (_ & _ & H).
  destruct (H Q5) as (_ & H1 & _). exact H1.
Defined.

(** The band edges named in the specification, run on the power-on state at
    full magnitude (the edges 29.999 ... 359.999 as the floats nearest to
    them). *)
Example controlMotors_band_edges :
  let full := float_of_int 1 in
  controlMotors (float_of_int 0) full powerOn = turnRight 180 powerOn /\
  controlMotors (decimalToFloat "29.999") full powerOn = turnRight 180 powerOn /\
  controlMotors (float_of_int 30) full powerOn = moveBackward 180 powerOn /\
  controlMotors (decimalToFloat "149.999") full powerOn =
    moveBackward 180 powerOn /\
  controlMotors (float_of_int 150) full powerOn = turnLeft 180 powerOn /\
  controlMotors (decimalToFloat "209.999") full powerOn = turnLeft 180 powerOn /\
  controlMotors (float_of_int 210) full powerOn = moveForward 180 powerOn /\
  controlMotors (decimalToFloat "329.999") full powerOn =
    moveForward 180 powerOn /\
  controlMotors (float_of_int 330) full powerOn = turnRight 180 powerOn /\
  controlMotors (decimalToFloat "359.999") full powerOn = turnRight 180 powerOn.
Proof. vm_compute. repeat split. Qed.

(** Speeds computed at sample magnitudes: exact products, products rounded
    up to the next integer, and a product that does not fit 16 bits. *)
Example speedOf_samples :
  speedOf float_0_5 = 90 /\
  speedOf (float_of_int 1) = 180 /\
  speedOf float_0_15 = 27 /\
  speedOf float_0_7 = 126 /\
  speedOf (decimalToFloat "0.35") = 63 /\
  speedOf (decimalToFloat "0.9") = 162 /\
  speedOf (decimalToFloat "0.2611111") = 47 /\
  speedOf (float_of_int 200) = -29536.
Proof. vm_compute. repeat split. Qed.

(** C10 (counterexample): with the motors running forward at 160, a joystick
    command whose rotation is NaN and whose magnitude is 0.5 matches none of
    the four tests: nothing is written and the motors keep running. *)
Lemma controlMotors_nan_counterexample :
  (0.15 <= F2Q float_0_5)%Q /\
  controlMotors S754_nan float_0_5 runningForward = runningForward /\
  emitted runningForward (controlMotors S754_nan float_0_5 runningForward) =
    [] /\
  driver (controlMotors S754_nan float_0_5 runningForward) =
    (HIGH, LOW, HIGH, LOW, 160, 160).
Proof. split; [discriminate |]. repeat split. Qed.

(** C10 (amended): with a magnitude of at least 0.15, every rotation that is
    not NaN has exactly one of the four direction commands called, so the
    motor registers are written: a negative rotation passes the test
    [rot < 30] and a rotation of 360 or more the test [rot >= 330], and so
    do the infinities, all taking the [turnRight] branch.  A NaN rotation
    fails every test and leaves the state as it was. *)
Theorem controlMotors_never_falls_through (rot mag : float) (s : State) :
  is_finite mag = true -> binary32 mag -> (0.15 <= F2Q mag)%Q ->
  let speed := speedOf mag in
  (is_nan rot = false ->
   (is_finite rot = true -> (F2Q rot < 0)%Q ->
    flt rot (float_of_int 30) = true /\
    controlMotors rot mag s = turnRight speed s) /\
   (is_finite rot = true -> (360 <= F2Q rot)%Q ->
    fge rot (float_of_int 330) = true /\
    controlMotors rot mag s = turnRight speed s) /\
   (is_finite rot = false -> controlMotors rot mag s = turnRight speed s) /\
   (exists! c : Command,
      c <> Stop /\ controlMotors rot mag s = issue c speed s) /\
   (exists c : Command,
      c <> Stop /\ emitted s (controlMotors rot mag s) = commandWrites c speed) /\
   controlMotors rot mag s <> s) /\
  (is_nan rot = true ->
   controlMotors rot mag s = s /\ emitted s (controlMotors rot mag s) = []).
Proof.
  intros Hmag Hval H speed.
  assert (Hthr : flt mag float_0_15 = false) by now apply at_threshold.
  pose proof (controlMotors_moving rot mag s Hthr) as Hmove.
  fold speed in Hmove.
  split.
  - intros Hnan.
    destruct (directionOf_number rot Hnan) as (c & Hc & Hns).
    split; [| split; [| split; [| split; [| split]]]].
    + intros Hfin Hr.
      destruct (directionOf_finite rot Hfin) as (HR & _).
      split.
      * apply flt_finite; [assumption | reflexivity |].
        apply Qlt_trans with 0%Q; [assumption | reflexivity].
      * rewrite Hmove, HR; [reflexivity | lra].
    + intros Hfin Hr.
      destruct (directionOf_finite rot Hfin) as (HR & _).
      split.
      * apply fge_finite; [assumption | reflexivity |].
        apply Qle_trans with 360%Q; [discriminate | assumption].
      * rewrite Hmove, HR; [reflexivity | lra].
    + intros Hinf. destruct rot as [sg | sg | | sg m e]; try discriminate.
      rewrite Hmove, directionOf_infinity. reflexivity.
    + now apply unique_direction.
    + exists c. split; [assumption |].
      rewrite Hmove, Hc. apply issue_writes_all_registers.
    + rewrite Hmove, Hc. apply issue_changes_trace.
  - intros Hnan. destruct rot; try discriminate.
    rewrite Hmove, directionOf_nan. split; [reflexivity |].
    apply emitted_app. now rewrite app_nil_r.
Qed.

Lemma controlMotors_never_falls_through_witness :
  controlMotors (float_of_int (-20)) float_0_5 powerOn = turnRight 90 powerOn /\
  controlMotors (float_of_int 400) float_0_5 powerOn = turnRight 90 powerOn /\
  controlMotors (S754_infinity false) float_0_5 powerOn = turnRight 90 powerOn /\
  controlMotors (float_of_int 400) float_0_5 powerOn <> powerOn /\
  controlMotors S754_nan float_0_5 powerOn = powerOn.
Proof.
  assert (H : (0.15 <= F2Q float_0_5)%Q) by discriminate.
  destruct (controlMotors_never_falls_through (float_of_int (-20)) float_0_5
              powerOn eq_refl eq_refl H) as (H1 & _).
  destruct (H1 eq_refl) as (H1a & _).
  destruct (controlMotors_never_falls_through (float_of_int 400) float_0_5
              powerOn eq_refl eq_refl H) as (H2 & _).
  destruct (H2 eq_refl) as (_ & H2a & _ & _ & _ & H2b).
  destruct (controlMotors_never_falls_through (S754_infinity false) float_0_5
              powerOn eq_refl eq_refl H) as (H3 & _).
  destruct (H3 eq_refl) as (_ & _ & H3a & _).
  destruct (controlMotors_never_falls_through S754_nan float_0_5
              powerOn eq_refl eq_refl H) as (_ & H4).
  split; [apply H1a; reflexivity |].
  split; [apply H2a; [reflexivity | discriminate] |].
  split; [apply H3a; reflexivity |].
  split; [exact H2b | apply H4; reflexivity].
Defined.

(** ** Ranging and auto-follow *)

Lemma float_to_int_div58 (d : Z) : float_to_int (inject_Z d / 58)%Q = d ÷ 58.
Proof.
  unfold float_to_int, Qdiv, Qmult, Qinv, inject_Z. cbn.
  now rewrite Z.mul_1_r.
Qed.

Lemma getDistanceCM_snd (pin : Z) (s : State) :
  snd (getDistanceCM pin s) =
  emit (EvPulseIn pin HIGH 30000)
    ((pinMode pin OUTPUT ;;
      digitalWrite pin LOW ;;
      delayMicroseconds 2 ;;
      digitalWrite pin HIGH ;;
      delayMicroseconds 5 ;;
      digitalWrite pin LOW ;;
      pinMode pin INPUT) s).
Proof.
  unfold getDistanceCM, pulseIn.
  match goal with |- context [if ?b then _ else _] => destruct b end;
    reflexivity.
Qed.

Lemma echo_after_ping (pin : Z) (s : State) :
  echo ((pinMode pin OUTPUT ;;
         digitalWrite pin LOW ;;
         delayMicroseconds 2 ;;
         digitalWrite pin HIGH ;;
         delayMicroseconds 5 ;;
         digitalWrite pin LOW ;;
         pinMode pin INPUT) s) = echo s.
Proof. reflexivity. Qed.

Lemma getDistanceCM_fst (pin : Z) (s : State) :
  fst (getDistanceCM pin s) =
  if echo s =? 0 then 999 else float_to_int (inject_Z (echo s) / 58)%Q.
Proof.
  unfold getDistanceCM, pulseIn. rewrite echo_after_ping.
  destruct (echo s =? 0); reflexivity.
Qed.

Lemma getDistanceCM_trace (pin : Z) (s : State) :
  trace (snd (getDistanceCM pin s)) = trace s ++ pingSequence pin.
Proof.
  rewrite getDistanceCM_snd. cbn. repeat rewrite <- app_assoc. reflexivity.
Qed.

Lemma getDistanceCM_timeout (pin : Z) (s : State) :
  echo s = 0 -> fst (getDistanceCM pin s) = 999.
Proof. intros H. rewrite getDistanceCM_fst, H. reflexivity. Qed.

Lemma getDistanceCM_echo (pin : Z) (s : State) :
  echo s <> 0 -> fst (getDistanceCM pin s) = echo s ÷ 58.
Proof.
  intros H. rewrite getDistanceCM_fst.
  apply Z.eqb_neq in H. rewrite H. apply float_to_int_div58.
Qed.

(** C6: [getDistanceCM] measures the echo with [pulseIn] bounded by
    30000 microseconds; a zero duration (no echo within the bound) gives the
    sentinel 999, any other duration gives the duration divided by 58,
    truncated to an integer (580 gives 10). *)
Theorem getDistanceCM_result (pin : Z) (s : State) :
  emitted s (snd (getDistanceCM pin s)) = pingSequence pin /\
  (echo s = 0 -> fst (getDistanceCM pin s) = 999) /\
  (echo s <> 0 -> fst (getDistanceCM pin s) = echo s ÷ 58) /\
  (0 < echo s ->
   let cm := fst (getDistanceCM pin s) in
   cm = echo s / 58 /\ 58 * cm <= echo s < 58 * cm + 58).
Proof.
  split; [apply emitted_app, getDistanceCM_trace |].
  split; [apply getDistanceCM_timeout |].
  split; [apply getDistanceCM_echo |].
  intros Hpos cm. subst cm.
  rewrite getDistanceCM_echo by lia.
  rewrite Z.quot_div_nonneg by lia.
  split; [reflexivity |].
  pose proof (Z.div_mod (echo s) 58 ltac:(lia)).
  pose proof (Z.mod_pos_bound (echo s) 58 ltac:(lia)). lia.
Qed.

Lemma getDistanceCM_result_witness :
  fst (getDistanceCM pingPin powerOn) = 999 /\
  fst (getDistanceCM pingPin (set_echo 580 powerOn)) = 10 /\
  fst (getDistanceCM pingPin (set_echo 3500 powerOn)) = 60.
Proof.
  destruct (getDistanceCM_result pingPin powerOn) as (_ & H0 & _).
  destruct (getDistanceCM_result pingPin (set_echo 580 powerOn))
    as (_ & _ & H1 & _).
  destruct (getDistanceCM_result pingPin (set_echo 3500 powerOn))
    as (_ & _ & _ & H2).
  split; [apply H0; reflexivity |].
  split; [apply H1; discriminate |].
  apply H2. reflexivity.
Defined.

Lemma gtb_false (a b : Z) : a <= b -> (a >? b) = false.
Proof. intros H. rewrite Z.gtb_ltb. apply Z.ltb_ge. exact H. Qed.

Lemma ltb_false (a b : Z) : b <= a -> (a <? b) = false.
Proof. intros H. apply Z.ltb_ge. exact H. Qed.

Lemma ltb_true (a b : Z) : a < b -> (a <? b) = true.
Proof. intros H. apply Z.ltb_lt. exact H. Qed.

(** C4: every sample falls in exactly one of three bands.  Above 60 cm the
    handler calls [moveForward] at speed 160; below 25 cm and on [25,60] it
    calls [stopMoving] (with different log lines).  The timeout sentinel 999
    goes through the same comparison and is a far reading. *)
Theorem processAutoFollowMode_bands (s : State) :
  let distance := fst (getDistanceCM pingPin s) in
  (60 < distance ->
   processAutoFollowMode s =
   (moveForward 160 ;; Serial_println "Moving forward" ;; delay 200)
     (sampled s)) /\
  (distance < 25 ->
   processAutoFollowMode s =
   (stopMoving ;; Serial_println "Stopped (too close)" ;; delay 200)
     (sampled s)) /\
  (25 <= distance <= 60 ->
   processAutoFollowMode s =
   (stopMoving ;; Serial_println "Stopped (maintaining distance)" ;; delay 200)
     (sampled s)) /\
  (echo s = 0 ->
   distance = 999 /\
   processAutoFollowMode s =
   (moveForward 160 ;; Serial_println "Moving forward" ;; delay 200)
     (sampled s)) /\
  (60 < distance ->
   leftMotor (processAutoFollowMode s) = Forwards /\
   rightMotor (processAutoFollowMode s) = Forwards /\
   leftSpeed (processAutoFollowMode s) = 160 /\
   rightSpeed (processAutoFollowMode s) = 160) /\
  (distance <= 60 -> motorsStopped (processAutoFollowMode s)) /\
  ((60 < distance /\ ~ distance < 25 /\ ~ 25 <= distance <= 60) \/
   (distance < 25 /\ ~ 60 < distance /\ ~ 25 <= distance <= 60) \/
   (25 <= distance <= 60 /\ ~ 60 < distance /\ ~ distance < 25)).
Proof.
  intros distance.
  assert (Hfar : 60 < distance ->
    processAutoFollowMode s =
    (moveForward 160 ;; Serial_println "Moving forward" ;; delay 200)
      (sampled s)).
  { intros H. unfold processAutoFollowMode, sampled. subst distance.
    destruct (getDistanceCM pingPin s) as [d s1]. cbn [fst snd] in *.
    apply Z.gtb_lt in H. rewrite H. reflexivity. }
  assert (Hnear : distance < 25 ->
    processAutoFollowMode s =
    (stopMoving ;; Serial_println "Stopped (too close)" ;; delay 200)
      (sampled s)).
  { intros H. unfold processAutoFollowMode, sampled. subst distance.
    destruct (getDistanceCM pingPin s) as [d s1]. cbn [fst snd] in *.
    rewrite (gtb_false d 60) by lia.
    apply Z.ltb_lt in H. rewrite H. reflexivity. }
  assert (Hhold : 25 <= distance <= 60 ->
    processAutoFollowMode s =
    (stopMoving ;; Serial_println "Stopped (maintaining distance)" ;;
     delay 200) (sampled s)).
  { intros H. unfold processAutoFollowMode, sampled. subst distance.
    destruct (getDistanceCM pingPin s) as [d s1]. cbn [fst snd] in *.
    rewrite (gtb_false d 60) by lia.
    rewrite (ltb_false d 25) by lia.
    reflexivity. }
  split; [exact Hfar |]. split; [exact Hnear |]. split; [exact Hhold |].
  split.
  { intros H. pose proof (getDistanceCM_timeout pingPin s H) as Hd.
    split; [exact Hd |]. apply Hfar. subst distance. lia. }
  split.
  { intros H. rewrite (Hfar H). repeat split. }
  split; [| lia].
  intros H. destruct (Z.lt_ge_cases distance 25) as [Hlt | Hge].
  - rewrite (Hnear Hlt). repeat split.
  - rewrite (Hhold (conj Hge H)). repeat split.
Qed.

Lemma processAutoFollowMode_bands_witness :
  processAutoFollowMode (set_echo 3538 powerOn) =
    (moveForward 160 ;; Serial_println "Moving forward" ;; delay 200)
      (sampled (set_echo 3538 powerOn)) /\
  leftMotor (processAutoFollowMode powerOn) = Forwards /\
  leftSpeed (processAutoFollowMode (set_echo 3538 powerOn)) = 160 /\
  motorsStopped (processAutoFollowMode (set_echo 3537 powerOn)) /\
  processAutoFollowMode (set_echo 1449 powerOn) =
    (stopMoving ;; Serial_println "Stopped (too close)" ;; delay 200)
      (sampled (set_echo 1449 powerOn)) /\
  processAutoFollowMode (set_echo 1450 powerOn) =
    (stopMoving ;; Serial_println "Stopped (maintaining distance)" ;;
     delay 200) (sampled (set_echo 1450 powerOn)).
Proof.
  split.
  { destruct (processAutoFollowMode_bands (set_echo 3538 powerOn)) as (H & _).
    apply H. reflexivity. }
  split.
  { destruct (processAutoFollowMode_bands powerOn) as (_ & _ & _ & H & _).
    destruct (H eq_refl) as [_ Heq]. rewrite Heq. reflexivity. }
  split.
  { destruct (processAutoFollowMode_bands (set_echo 3538 powerOn))
      as (_ & _ & _ & _ & H & _).
    apply H. reflexivity. }
  split.
  { destruct (processAutoFollowMode_bands (set_echo 3537 powerOn))
      as (_ & _ & _ & _ & _ & H & _).
    apply H. discriminate. }
  split.
  { destruct (processAutoFollowMode_bands (set_echo 1449 powerOn))
      as (_ & H & _).
    apply H. reflexivity. }
  destruct (processAutoFollowMode_bands (set_echo 1450 powerOn))
    as (_ & _ & H & _).
  apply H. split; discriminate.
Defined.

(** ** Test mode *)

Lemma usub_range (a b : Z) : 0 <= usub a b < two32.
Proof. unfold usub. apply Z.mod_pos_bound. reflexivity. Qed.

Lemma trace_processTestMode_init (s : State) :
  trace (processTestMode_init s) = trace s.
Proof. unfold processTestMode_init. destruct (testRunning s); reflexivity. Qed.

Lemma processTestMode_init_idle (s : State) :
  testRunning s = false ->
  testPhase (processTestMode_init s) = 0 /\
  testRunning (processTestMode_init s) = true /\
  testStartTime (processTestMode_init s) = millis s /\
  usub (millis (processTestMode_init s))
       (testStartTime (processTestMode_init s)) = 0.
Proof.
  intros H. unfold processTestMode_init. rewrite H.
  repeat split. cbn [negb]. unfold seq.
  change (millis (set_testPhase 0 (set_testRunning true
            (set_testStartTime (millis s) s)))) with (millis s).
  change (testStartTime (set_testPhase 0 (set_testRunning true
            (set_testStartTime (millis s) s)))) with (millis s).
  unfold usub. rewrite Z.sub_diag. reflexivity.
Qed.

Lemma processTestMode_init_running (s : State) :
  testRunning s = true -> processTestMode_init s = s.
Proof. intros H. unfold processTestMode_init. rewrite H. reflexivity. Qed.

Section TestTick.

Variable s : State.

Local Abbreviation s0 := (processTestMode_init s).
Local Abbreviation e := (usub (millis s0) (testStartTime s0)).

Lemma processTestMode_phase0 :
  testPhase s0 = 0 ->
  (e < 2000 ->
   processTestMode s =
   (moveForward 100 ;; Serial_println "Test: Moving forward") s0) /\
  (2000 <= e < 3000 ->
   processTestMode s = (stopMoving ;; Serial_println "Test: Stopped") s0) /\
  (3000 <= e < 5000 ->
   processTestMode s =
   (moveBackward 100 ;; Serial_println "Test: Moving backward") s0) /\
  (5000 <= e < 6000 ->
   processTestMode s = (stopMoving ;; Serial_println "Test: Stopped") s0) /\
  (6000 <= e ->
   processTestMode s = set_testStartTime (millis s0) (set_testPhase 1 s0)).
Proof.
  intros Hp. unfold processTestMode. cbv zeta.
  rewrite Hp, Z.eqb_refl.
  repeat split; intros He.
  - rewrite (ltb_true e 2000) by lia. reflexivity.
  - rewrite (ltb_false e 2000), (ltb_true e 3000) by lia. reflexivity.
  - rewrite (ltb_false e 2000), (ltb_false e 3000), (ltb_true e 5000) by lia.
    reflexivity.
  - rewrite (ltb_false e 2000), (ltb_false e 3000), (ltb_false e 5000),
      (ltb_true e 6000) by lia.
    reflexivity.
  - rewrite (ltb_false e 2000), (ltb_false e 3000), (ltb_false e 5000),
      (ltb_false e 6000) by lia.
    reflexivity.
Qed.

Lemma processTestMode_phase1 :
  testPhase s0 = 1 ->
  (e < 10000 ->
   processTestMode s =
   (turnLeft 100 ;; Serial_println "Test: Rotating (circle)") s0) /\
  (10000 <= e < 13000 ->
   processTestMode s = (stopMoving ;; Serial_println "Test: Stopped") s0) /\
  (13000 <= e ->
   processTestMode s =
   emit restartLog (set_testStartTime (millis s0) (set_testPhase 0 s0))).
Proof.
  intros Hp. unfold processTestMode. cbv zeta.
  rewrite Hp. change (1 =? 0) with false. change (1 =? 1) with true.
  repeat split; intros He.
  - rewrite (ltb_true e 10000) by lia. reflexivity.
  - rewrite (ltb_false e 10000), (ltb_true e 13000) by lia. reflexivity.
  - rewrite (ltb_false e 10000), (ltb_false e 13000) by lia. reflexivity.
Qed.

Lemma processTestMode_other_phase :
  testPhase s0 <> 0 -> testPhase s0 <> 1 -> processTestMode s = s0.
Proof.
  intros H0 H1. unfold processTestMode. cbv zeta.
  apply Z.eqb_neq in H0, H1. rewrite H0, H1. reflexivity.
Qed.

Lemma emitted_from_s0 (s' : State) (l : list Event) :
  trace s' = trace s0 ++ l -> emitted s s' = l.
Proof.
  intros H. apply emitted_app. rewrite H.
  now rewrite trace_processTestMode_init.
Qed.

(** The restart line is printed by the last branch of phase 1 and by no
    other. *)
Lemma restart_logged_iff :
  In restartLog (emitted s (processTestMode s)) <->
  testPhase s0 = 1 /\ 13000 <= e.
Proof.
  destruct (Z.eq_dec (testPhase s0) 0) as [H0 | H0].
  { destruct (processTestMode_phase0 H0) as (A & B & C & D & E).
    assert (Hno : ~ In restartLog (emitted s (processTestMode s))).
    { destruct (Z.lt_ge_cases e 2000);
        [rewrite A by lia |
         destruct (Z.lt_ge_cases e 3000);
           [rewrite B by lia |
            destruct (Z.lt_ge_cases e 5000);
              [rewrite C by lia |
               destruct (Z.lt_ge_cases e 6000);
                 [rewrite D by lia | rewrite E by lia]]]].
      all: try (erewrite emitted_from_s0;
                [| cbn; repeat rewrite <- app_assoc; reflexivity];
                cbn; intuition discriminate).
      erewrite emitted_from_s0 with (l := []);
        [intros [] | cbn; now rewrite app_nil_r]. }
    split; [intros H; contradiction | intros [H1 _]; lia]. }
  destruct (Z.eq_dec (testPhase s0) 1) as [H1 | H1].
  { destruct (processTestMode_phase1 H1) as (A & B & C).
    destruct (Z.lt_ge_cases e 10000);
      [rewrite A by lia |
       destruct (Z.lt_ge_cases e 13000);
         [rewrite B by lia | rewrite C by lia]].
    all: erewrite emitted_from_s0;
           [| cbn; repeat rewrite <- app_assoc; reflexivity].
    - split; [cbn; intuition discriminate | intros [_ ?]; lia].
    - split; [cbn; intuition discriminate | intros [_ ?]; lia].
    - split; [intros _; split; [exact H1 | lia] | intros _; now left]. }
  rewrite (processTestMode_other_phase H0 H1).
  erewrite emitted_from_s0 with (l := []); [| now rewrite app_nil_r].
  split; [intros [] | intros [? _]; contradiction].
Qed.

End TestTick.

Lemma driver_processTestMode_init (s : State) :
  driver (processTestMode_init s) = driver s.
Proof. unfold processTestMode_init. destruct (testRunning s); reflexivity. Qed.

(** C5: with [e] the time elapsed since the phase start, a test-mode tick in
    phase 0 calls [moveForward 100] on [0,2000), [stopMoving] on
    [2000,3000), [moveBackward 100] on [3000,5000), [stopMoving] on
    [5000,6000) and from 6000 on moves to phase 1 and restarts the phase
    clock; in phase 1 it calls [turnLeft 100] on [0,10000), [stopMoving] on
    [10000,13000) and from 13000 on returns to phase 0, restarts the phase
    clock and logs the cycle restart, which no other branch logs.  For every
    interval the six driver registers after the tick and the writes and
    prints of the tick are given; the two changes of phase write no
    register. *)
Theorem processTestMode_schedule (s : State) :
  let s0 := processTestMode_init s in
  let e := usub (millis s0) (testStartTime s0) in
  0 <= e /\
  (testRunning s = true -> s0 = s) /\
  (testRunning s = false -> testPhase s0 = 0 /\ e = 0) /\
  (testPhase s0 = 0 ->
   (0 <= e < 2000 ->
    processTestMode s =
    (moveForward 100 ;; Serial_println "Test: Moving forward") s0 /\
    driver (processTestMode s) = (HIGH, LOW, HIGH, LOW, 100, 100) /\
    emitted s (processTestMode s) =
      motorWrites HIGH LOW HIGH LOW 100 ++ [EvPrintln "Test: Moving forward"]) /\
   (2000 <= e < 3000 ->
    processTestMode s = (stopMoving ;; Serial_println "Test: Stopped") s0 /\
    driver (processTestMode s) = (LOW, LOW, LOW, LOW, 0, 0) /\
    emitted s (processTestMode s) =
      motorWrites LOW LOW LOW LOW 0 ++ [EvPrintln "Test: Stopped"]) /\
   (3000 <= e < 5000 ->
    processTestMode s =
    (moveBackward 100 ;; Serial_println "Test: Moving backward") s0 /\
    driver (processTestMode s) = (LOW, HIGH, LOW, HIGH, 100, 100) /\
    emitted s (processTestMode s) =
      motorWrites LOW HIGH LOW HIGH 100 ++ [EvPrintln "Test: Moving backward"]) /\
   (5000 <= e < 6000 ->
    processTestMode s = (stopMoving ;; Serial_println "Test: Stopped") s0 /\
    driver (processTestMode s) = (LOW, LOW, LOW, LOW, 0, 0) /\
    emitted s (processTestMode s) =
      motorWrites LOW LOW LOW LOW 0 ++ [EvPrintln "Test: Stopped"]) /\
   (6000 <= e ->
    processTestMode s = set_testStartTime (millis s0) (set_testPhase 1 s0) /\
    testPhase (processTestMode s) = 1 /\
    testStartTime (processTestMode s) = millis s /\
    driver (processTestMode s) = driver s /\
    emitted s (processTestMode s) = [])) /\
  (testPhase s0 = 1 ->
   (0 <= e < 10000 ->
    processTestMode s =
    (turnLeft 100 ;; Serial_println "Test: Rotating (circle)") s0 /\
    driver (processTestMode s) = (LOW, HIGH, HIGH, LOW, 100, 100) /\
    emitted s (processTestMode s) =
      motorWrites LOW HIGH HIGH LOW 100 ++
      [EvPrintln "Test: Rotating (circle)"]) /\
   (10000 <= e < 13000 ->
    processTestMode s = (stopMoving ;; Serial_println "Test: Stopped") s0 /\
    driver (processTestMode s) = (LOW, LOW, LOW, LOW, 0, 0) /\
    emitted s (processTestMode s) =
      motorWrites LOW LOW LOW LOW 0 ++ [EvPrintln "Test: Stopped"]) /\
   (13000 <= e ->
    processTestMode s =
    Serial_println "Test: Cycle restarted"
      (set_testStartTime (millis s0) (set_testPhase 0 s0)) /\
    testPhase (processTestMode s) = 0 /\
    testStartTime (processTestMode s) = millis s /\
    driver (processTestMode s) = driver s /\
    emitted s (processTestMode s) = [EvPrintln "Test: Cycle restarted"])) /\
  (In (EvPrintln "Test: Cycle restarted") (emitted s (processTestMode s)) <->
   testPhase s0 = 1 /\ 13000 <= e).
Proof.
  intros s0 e.
  assert (Hclock : millis s0 = millis s).
  { unfold s0, processTestMode_init. destruct (testRunning s); reflexivity. }
  pose proof (driver_processTestMode_init s) as Hdrv. fold s0 in Hdrv.
  assert (Hwrites : forall (s' : State) (l : list Event),
             trace s' = trace s0 ++ l -> emitted s s' = l)
    by apply emitted_from_s0.
  split; [apply usub_range |].
  split; [apply processTestMode_init_running |].
  split.
  { intros H. destruct (processTestMode_init_idle s H) as (A & _ & _ & B).
    split; assumption. }
  split; [| split].
  - intros Hp. destruct (processTestMode_phase0 s Hp) as (A & B & C & D & E).
    fold s0 in A, B, C, D, E. fold e in A, B, C, D, E.
    split; [| split; [| split; [| split]]]; intros He.
    + rewrite A by lia. split; [reflexivity |]. split; [reflexivity |].
      apply Hwrites. cbn. repeat rewrite <- app_assoc. reflexivity.
    + rewrite (B He). split; [reflexivity |]. split; [reflexivity |].
      apply Hwrites. cbn. repeat rewrite <- app_assoc. reflexivity.
    + rewrite (C He). split; [reflexivity |]. split; [reflexivity |].
      apply Hwrites. cbn. repeat rewrite <- app_assoc. reflexivity.
    + rewrite (D He). split; [reflexivity |]. split; [reflexivity |].
      apply Hwrites. cbn. repeat rewrite <- app_assoc. reflexivity.
    + rewrite (E He), <- Hclock.
      split; [reflexivity |]. split; [reflexivity |]. split; [reflexivity |].
      split; [exact Hdrv |].
      apply Hwrites. cbn. now rewrite app_nil_r.
  - intros Hp. destruct (processTestMode_phase1 s Hp) as (A & B & C).
    fold s0 in A, B, C. fold e in A, B, C.
    split; [| split]; intros He.
    + rewrite A by lia. split; [reflexivity |]. split; [reflexivity |].
      apply Hwrites. cbn. repeat rewrite <- app_assoc. reflexivity.
    + rewrite (B He). split; [reflexivity |]. split; [reflexivity |].
      apply Hwrites. cbn. repeat rewrite <- app_assoc. reflexivity.
    + rewrite (C He), <- Hclock.
      split; [reflexivity |]. split; [reflexivity |]. split; [reflexivity |].
      split; [exact Hdrv |].
      apply Hwrites. reflexivity.
  - apply restart_logged_iff.
Qed.

Lemma processTestMode_schedule_witness :
  driver (processTestMode (inTest 0 0 1000)) = (HIGH, LOW, HIGH, LOW, 100, 100) /\
  driver (processTestMode (inTest 0 0 2500)) = (LOW, LOW, LOW, LOW, 0, 0) /\
  driver (processTestMode (inTest 0 0 4000)) = (LOW, HIGH, LOW, HIGH, 100, 100) /\
  emitted (inTest 0 0 5500) (processTestMode (inTest 0 0 5500)) =
    motorWrites LOW LOW LOW LOW 0 ++ [EvPrintln "Test: Stopped"] /\
  processTestMode (inTest 0 0 6001) = inTest 1 6001 6001 /\
  driver (processTestMode (inTest 1 6001 11001)) =
    (LOW, HIGH, HIGH, LOW, 100, 100) /\
  processTestMode (inTest 1 6001 17001) =
    (stopMoving ;; Serial_println "Test: Stopped") (inTest 1 6001 17001) /\
  processTestMode (inTest 1 6001 19002) =
    Serial_println "Test: Cycle restarted" (inTest 0 19002 19002) /\
  processTestMode_init (inTest 0 0 1000) = inTest 0 0 1000 /\
  testPhase (processTestMode_init powerOn) = 0.
Proof.
  assert (R : forall p a b, testRunning (inTest p a b) = true)
    by reflexivity.
  split.
  { destruct (processTestMode_schedule (inTest 0 0 1000))
      as (_ & _ & _ & H & _).
    destruct (H eq_refl) as (H1 & _). apply H1. vm_compute. intuition congruence. }
  split.
  { destruct (processTestMode_schedule (inTest 0 0 2500))
      as (_ & _ & _ & H & _).
    destruct (H eq_refl) as (_ & H1 & _). apply H1.
    vm_compute. intuition congruence. }
  split.
  { destruct (processTestMode_schedule (inTest 0 0 4000))
      as (_ & _ & _ & H & _).
    destruct (H eq_refl) as (_ & _ & H1 & _). apply H1.
    vm_compute. intuition congruence. }
  split.
  { destruct (processTestMode_schedule (inTest 0 0 5500))
      as (_ & _ & _ & H & _).
    destruct (H eq_refl) as (_ & _ & _ & H1 & _). apply H1.
    vm_compute. intuition congruence. }
  split.
  { destruct (processTestMode_schedule (inTest 0 0 6001))
      as (_ & _ & _ & H & _).
    destruct (H eq_refl) as (_ & _ & _ & _ & H1).
    apply H1. vm_compute. congruence. }
  split.
  { destruct (processTestMode_schedule (inTest 1 6001 11001))
      as (_ & _ & _ & _ & H & _).
    destruct (H eq_refl) as (H1 & _). apply H1.
    vm_compute. intuition congruence. }
  split.
  { destruct (processTestMode_schedule (inTest 1 6001 17001))
      as (_ & _ & _ & _ & H & _).
    destruct (H eq_refl) as (_ & H1 & _). apply H1.
    vm_compute. intuition congruence. }
  split.
  { destruct (processTestMode_schedule (inTest 1 6001 19002))
      as (_ & _ & _ & _ & H & _).
    destruct (H eq_refl) as (_ & _ & H1).
    apply H1. vm_compute. congruence. }
  split.
  { destruct (processTestMode_schedule (inTest 0 0 1000)) as (_ & H & _).
    apply H. apply R. }
  destruct (processTestMode_schedule powerOn) as (_ & _ & H & _).
  apply H. reflexivity.
Defined.

(** ** Command parser *)

Lemma indexOf_lower_bound (c : ascii) (s : string) : -1 <= indexOf c s.
Proof.
  induction s as [| d r IH]; cbn; [lia |].
  destruct (Ascii.eqb d c); [lia |].
  destruct (indexOf c r <? 0) eqn:E; [lia |].
  apply Z.ltb_ge in E. lia.
Qed.

Lemma indexOf_absent (c : ascii) (s : string) :
  (forall i : nat, String.get i s <> Some c) -> indexOf c s = -1.
Proof.
  induction s as [| d r IH]; intros H; cbn; [reflexivity |].
  destruct (Ascii.eqb d c) eqn:E.
  - apply Ascii.eqb_eq in E. subst d. exfalso. apply (H O). reflexivity.
  - rewrite IH; [reflexivity |]. intros i. apply (H (S i)).
Qed.

Lemma indexOf_present (c : ascii) (s : string) (i : nat) :
  String.get i s = Some c -> 0 <= indexOf c s <= Z.of_nat i.
Proof.
  revert i. induction s as [| d r IH]; intros i H; [discriminate |].
  cbn. destruct (Ascii.eqb d c) eqn:E; [lia |].
  destruct i as [| i]; cbn in H.
  - injection H as ->. rewrite Ascii.eqb_refl in E. discriminate.
  - specialize (IH i H).
    rewrite (ltb_false (indexOf c r) 0) by lia. lia.
Qed.

Lemma startsWith_J0 (cmd : string) :
  startsWith "J0:" cmd = true ->
  exists r : string, cmd = String "J" (String "0" (String ":" r)).
Proof.
  unfold startsWith. intros H.
  destruct cmd as [| a cmd]; cbn [String.prefix] in H; [discriminate |].
  destruct (ascii_dec "J" a) as [<- |]; [| discriminate].
  destruct cmd as [| b cmd]; cbn [String.prefix] in H; [discriminate |].
  destruct (ascii_dec "0" b) as [<- |]; [| discriminate].
  destruct cmd as [| c cmd]; cbn [String.prefix] in H; [discriminate |].
  destruct (ascii_dec ":" c) as [<- |]; [| discriminate].
  exists cmd. reflexivity.
Qed.

Lemma malformed_cases (cmd : string) :
  ~ wellFormed cmd ->
  startsWith "J0:" cmd = false \/ indexOf "," cmd = -1.
Proof.
  intros H. destruct (startsWith "J0:" cmd) eqn:E; [right | left; reflexivity].
  apply indexOf_absent. intros i Hi. apply H. split; [exact E |].
  exists i. split; [| exact Hi].
  destruct (startsWith_J0 cmd E) as [r ->].
  destruct i as [| [| [| i]]]; cbn in Hi; try discriminate. lia.
Qed.

(** C8: a line that does not start with "J0:", or that has no comma after
    that prefix, is rejected without any effect: the whole state is returned
    unchanged, so no motor register is written, the time of the last command
    is kept and nothing is printed. *)
Theorem processJoystickCommand_rejects
    (toFloat : string -> float) (cmd : string) (s : State) :
  startsWith "J0:" cmd = false \/
  (forall i : nat, (3 <= i)%nat -> String.get i cmd <> Some ","%char) ->
  processJoystickCommand toFloat cmd s = s /\
  emitted s (processJoystickCommand toFloat cmd s) = [] /\
  lastCommandTime (processJoystickCommand toFloat cmd s) = lastCommandTime s /\
  pinLevel (processJoystickCommand toFloat cmd s) = pinLevel s /\
  pinDuty (processJoystickCommand toFloat cmd s) = pinDuty s.
Proof.
  intros H.
  assert (Heq : processJoystickCommand toFloat cmd s = s).
  { assert (Hbad : ~ wellFormed cmd).
    { intros [Hp (i & Hi & Hg)]. destruct H as [H | H]; [congruence |].
      apply (H i Hi Hg). }
    unfold processJoystickCommand.
    destruct (malformed_cases cmd Hbad) as [E | E]; rewrite E; [reflexivity |].
    destruct (startsWith "J0:" cmd); reflexivity. }
  rewrite Heq. repeat split.
  apply emitted_app. now rewrite app_nil_r.
Qed.

Lemma processJoystickCommand_rejects_witness :
  processJoystickCommand decimalToFloat "garbage" afterCommand = afterCommand /\
  processJoystickCommand decimalToFloat "J0:45" afterCommand = afterCommand /\
  lastCommandTime
    (processJoystickCommand decimalToFloat "J0:45" (set_clock 5000 afterCommand))
  = 1234.
Proof.
  split; [| split].
  - apply (processJoystickCommand_rejects decimalToFloat "garbage" afterCommand).
    left. reflexivity.
  - apply (processJoystickCommand_rejects decimalToFloat "J0:45" afterCommand).
    right. intros i Hi.
    destruct i as [| [| [| [| [| i]]]]]; cbn; try discriminate; lia.
  - destruct (processJoystickCommand_rejects decimalToFloat "J0:45"
                (set_clock 5000 afterCommand)) as (_ & _ & H & _).
    + right. intros i Hi.
      destruct i as [| [| [| [| [| i]]]]]; cbn; try discriminate; lia.
    + exact H.
Defined.

(** The accepted line of the specification: rotation 45 lies in the backward
    band and magnitude 0.5 gives speed 90; the command time is recorded. *)
Example processJoystickCommand_accepts :
  processJoystickCommand decimalToFloat "J0:45,0.5" (set_clock 1234 powerOn) =
  (Serial_print "Angle = " ;;
   Serial_print_float (float_of_int 45) ;;
   Serial_print "Â°, Magnitude = " ;;
   Serial_println_float float_0_5 ;;
   set_lastCommandTime 1234 ;;
   moveBackward 90) (set_clock 1234 powerOn).
Proof. vm_compute. reflexivity. Qed.

(** ** Mode-switch directives *)

Lemma checkModeSwitch_body_directive (s : State) :
  checkModeSwitch_body s =
  directive (tokenOf (fst (Serial_readStringUntil newline s)))
            (snd (Serial_readStringUntil newline s)).
Proof.
  unfold checkModeSwitch_body, directive, tokenOf.
  destruct (Serial_readStringUntil newline s) as [command s1]. cbn [fst snd].
  destruct (String.eqb _ "auto"); [reflexivity |].
  destruct (String.eqb _ "bluetooth"); [reflexivity |].
  destruct (String.eqb _ "test"); reflexivity.
Qed.

Lemma serialRx_switchMode (m : RobotMode) (s : State) :
  serialRx (switchMode m s) = serialRx s.
Proof.
  unfold switchMode. destruct (RobotMode_eqb (currentMode s) m); cbn [negb];
    [reflexivity | destruct m; reflexivity].
Qed.

Lemma serialRx_directive (token : string) (s : State) :
  serialRx (directive token s) = serialRx s.
Proof.
  unfold directive.
  destruct (String.eqb token "auto"); [apply serialRx_switchMode |].
  destruct (String.eqb token "bluetooth"); [apply serialRx_switchMode |].
  destruct (String.eqb token "test"); [apply serialRx_switchMode |].
  reflexivity.
Qed.

Lemma takeUntil_shorter (t : ascii) (rx : string) :
  match snd (takeUntil t rx) with
  | Some rest => (String.length rest < String.length rx)%nat
  | None => True
  end.
Proof.
  induction rx as [| c r IH]; cbn; [exact I |].
  destruct (Ascii.eqb c t); cbn; [lia |].
  destruct (takeUntil t r) as [l [rest |]]; cbn in *; [lia | exact I].
Qed.

(** One iteration consumes at least one byte. *)
Lemma checkModeSwitch_body_consumes (s : State) :
  serialRx s <> "" ->
  (String.length (serialRx (checkModeSwitch_body s)) <
   String.length (serialRx s))%nat.
Proof.
  intros Hne. rewrite checkModeSwitch_body_directive, serialRx_directive.
  unfold Serial_readStringUntil.
  pose proof (takeUntil_shorter newline (serialRx s)) as Hs.
  destruct (takeUntil newline (serialRx s)) as [l [rest |]]; cbn in *.
  - exact Hs.
  - destruct (serialRx s); [contradiction | cbn; lia].
Qed.

Lemma Serial_available_spec (s : State) :
  Serial_available s = false <-> serialRx s = "".
Proof.
  unfold Serial_available. rewrite negb_false_iff. apply String.eqb_eq.
Qed.

(** Any fuel that covers the buffered bytes gives the same result. *)
Lemma checkModeSwitch_loop_fuel (fuel1 fuel2 : nat) (s : State) :
  (String.length (serialRx s) <= fuel1)%nat ->
  (String.length (serialRx s) <= fuel2)%nat ->
  checkModeSwitch_loop fuel1 s = checkModeSwitch_loop fuel2 s.
Proof.
  revert fuel2 s. induction fuel1 as [| f1 IH]; intros fuel2 s H1 H2.
  - assert (E : serialRx s = "")
      by (destruct (serialRx s); [reflexivity | cbn in H1; lia]).
    apply Serial_available_spec in E.
    destruct fuel2; cbn; [reflexivity | now rewrite E].
  - cbn. destruct (Serial_available s) eqn:E.
    + assert (Hne : serialRx s <> "").
      { intros Hrx. apply Serial_available_spec in Hrx. congruence. }
      pose proof (checkModeSwitch_body_consumes s Hne) as Hlt.
      destruct fuel2 as [| f2].
      * destruct (serialRx s); [contradiction | cbn in H2; lia].
      * cbn. rewrite E. apply IH; lia.
    + destruct fuel2; cbn; [reflexivity | now rewrite E].
Qed.

Lemma checkModeSwitch_loop_drains (fuel : nat) (s : State) :
  (String.length (serialRx s) <= fuel)%nat ->
  serialRx (checkModeSwitch_loop fuel s) = "".
Proof.
  revert s. induction fuel as [| f IH]; intros s H.
  - cbn. destruct (serialRx s); [reflexivity | cbn in H; lia].
  - cbn. destruct (Serial_available s) eqn:E.
    + assert (Hne : serialRx s <> "").
      { intros Hrx. apply Serial_available_spec in Hrx. congruence. }
      pose proof (checkModeSwitch_body_consumes s Hne) as Hlt.
      apply IH. lia.
    + now apply Serial_available_spec.
Qed.

Lemma checkModeSwitch_empty (s : State) :
  serialRx s = "" -> checkModeSwitch s = s.
Proof. intros H. unfold checkModeSwitch. rewrite H. reflexivity. Qed.

Lemma checkModeSwitch_unroll (s : State) :
  serialRx s <> "" ->
  checkModeSwitch s = checkModeSwitch (checkModeSwitch_body s).
Proof.
  intros Hne. unfold checkModeSwitch.
  pose proof (checkModeSwitch_body_consumes s Hne) as Hlt.
  destruct (String.length (serialRx s)) as [| n] eqn:El; [lia |].
  cbn. assert (E : Serial_available s = true).
  { destruct (Serial_available s) eqn:E; [reflexivity |].
    apply Serial_available_spec in E. contradiction. }
  rewrite E. apply checkModeSwitch_loop_fuel; lia.
Qed.

Lemma takeUntil_line (t : ascii) (line rest : string) :
  indexOf t line = -1 ->
  takeUntil t (String.append line (String t rest)) = (line, Some rest).
Proof.
  induction line as [| c r IH]; cbn; intros H.
  - now rewrite Ascii.eqb_refl.
  - destruct (Ascii.eqb c t); [discriminate |].
    pose proof (indexOf_lower_bound t r).
    destruct (indexOf t r <? 0) eqn:E; [| apply Z.ltb_ge in E; lia].
    apply Z.ltb_lt in E. rewrite IH by lia. reflexivity.
Qed.

Lemma takeUntil_unterminated (t : ascii) (rx : string) :
  indexOf t rx = -1 -> takeUntil t rx = (rx, None).
Proof.
  induction rx as [| c r IH]; cbn; intros H; [reflexivity |].
  destruct (Ascii.eqb c t); [discriminate |].
  pose proof (indexOf_lower_bound t r).
  destruct (indexOf t r <? 0) eqn:E; [| apply Z.ltb_ge in E; lia].
  apply Z.ltb_lt in E. rewrite IH by lia. reflexivity.
Qed.

Lemma directive_unrecognised (token : string) (s : State) :
  token <> "auto" -> token <> "bluetooth" -> token <> "test" ->
  directive token s = s.
Proof.
  intros Ha Hb Ht. unfold directive.
  apply String.eqb_neq in Ha, Hb, Ht. rewrite Ha, Hb, Ht. reflexivity.
Qed.

(** What [switchMode] shows from outside. *)
Lemma switchMode_transition_from (m : RobotMode) (s s1 : State) :
  currentMode s1 = currentMode s -> trace s1 = trace s ->
  driver s1 = driver s ->
  transition m s (switchMode m s1).
Proof.
  intros Hm Ht Hd. split.
  - intros Hne. rewrite <- Hm in Hne. apply RobotMode_eqb_neq in Hne.
    unfold switchMode. rewrite Hne. cbn [negb].
    split; [destruct m; repeat split |].
    apply emitted_app. rewrite <- Ht.
    destruct m; cbn; repeat rewrite <- app_assoc; reflexivity.
  - intros Heq. rewrite <- Hm in Heq. rewrite (switchMode_same m s1 Heq).
    split; [exact Hd |]. apply emitted_app. rewrite Ht. now rewrite app_nil_r.
Qed.

(** C7: [checkModeSwitch] returns at once, with nothing changed, when no
    byte is waiting; otherwise it takes the input one line at a time until
    none is left.  A line whose trimmed, lower-cased text is "auto",
    "bluetooth" or "test" makes [MODE_AUTO_FOLLOW], [MODE_BLUETOOTH] or
    [MODE_TEST] the active mode (stopping the motors and printing the
    confirmation when the mode changes, doing nothing when it is already
    active); any other line is dropped: mode unchanged, nothing printed.  A
    last line without terminator is handled in the same way once the stream
    timeout has passed. *)
Theorem checkModeSwitch_directives (s : State) :
  (serialRx s = "" -> checkModeSwitch s = s) /\
  serialRx (checkModeSwitch s) = "" /\
  (serialRx s <> "" ->
   checkModeSwitch s = checkModeSwitch (checkModeSwitch_body s)) /\
  (forall line rest : string,
     serialRx s = lineThen line rest ->
     indexOf newline line = -1 ->
     let s1 := set_serialRx rest s in
     (tokenOf line = "auto" ->
      checkModeSwitch_body s = switchMode MODE_AUTO_FOLLOW s1 /\
      currentMode (checkModeSwitch_body s) = MODE_AUTO_FOLLOW /\
      transition MODE_AUTO_FOLLOW s (checkModeSwitch_body s)) /\
     (tokenOf line = "bluetooth" ->
      checkModeSwitch_body s = switchMode MODE_BLUETOOTH s1 /\
      currentMode (checkModeSwitch_body s) = MODE_BLUETOOTH /\
      transition MODE_BLUETOOTH s (checkModeSwitch_body s)) /\
     (tokenOf line = "test" ->
      checkModeSwitch_body s = switchMode MODE_TEST s1 /\
      currentMode (checkModeSwitch_body s) = MODE_TEST /\
      transition MODE_TEST s (checkModeSwitch_body s)) /\
     (tokenOf line <> "auto" -> tokenOf line <> "bluetooth" ->
      tokenOf line <> "test" ->
      checkModeSwitch_body s = s1 /\
      currentMode (checkModeSwitch_body s) = currentMode s /\
      emitted s (checkModeSwitch_body s) = []) /\
     (rest = "" -> checkModeSwitch s = checkModeSwitch_body s)) /\
  (indexOf newline (serialRx s) = -1 ->
   checkModeSwitch_body s =
   directive (tokenOf (serialRx s))
     (emit EvSerialTimeout (set_serialRx "" s)) /\
   (tokenOf (serialRx s) = "auto" ->
    currentMode (checkModeSwitch_body s) = MODE_AUTO_FOLLOW) /\
   (tokenOf (serialRx s) = "bluetooth" ->
    currentMode (checkModeSwitch_body s) = MODE_BLUETOOTH) /\
   (tokenOf (serialRx s) = "test" ->
    currentMode (checkModeSwitch_body s) = MODE_TEST)).
Proof.
  split; [apply checkModeSwitch_empty |].
  split; [apply checkModeSwitch_loop_drains; lia |].
  split; [apply checkModeSwitch_unroll |].
  split.
  2: { intros Hline.
       assert (Hbody : checkModeSwitch_body s =
                       directive (tokenOf (serialRx s))
                         (emit EvSerialTimeout (set_serialRx "" s))).
       { rewrite checkModeSwitch_body_directive.
         unfold Serial_readStringUntil.
         rewrite (takeUntil_unterminated _ _ Hline). reflexivity. }
       rewrite Hbody. split; [reflexivity |].
       unfold directive.
       repeat split; intros ->; cbn [String.eqb]; apply currentMode_switchMode. }
  intros line rest Hrx Hline s1.
  assert (Hbody : checkModeSwitch_body s = directive (tokenOf line) s1).
  { rewrite checkModeSwitch_body_directive. unfold Serial_readStringUntil.
    rewrite Hrx. unfold lineThen. rewrite (takeUntil_line _ _ _ Hline).
    reflexivity. }
  rewrite Hbody.
  assert (Hsw : forall m : RobotMode,
             currentMode (switchMode m s1) = m /\
             transition m s (switchMode m s1)).
  { intros m. split; [apply currentMode_switchMode |].
    apply switchMode_transition_from; reflexivity. }
  split; [intros ->; split; [reflexivity | apply Hsw] |].
  split; [intros ->; split; [reflexivity | apply Hsw] |].
  split; [intros ->; split; [reflexivity | apply Hsw] |].
  split.
  - intros Ha Hb Ht. rewrite (directive_unrecognised _ _ Ha Hb Ht).
    repeat split. apply emitted_app. cbn. now rewrite app_nil_r.
  - intros ->. rewrite <- Hbody.
    assert (Hne : serialRx s <> "").
    { rewrite Hrx. unfold lineThen. destruct line; discriminate. }
    rewrite (checkModeSwitch_unroll s Hne).
    apply checkModeSwitch_empty.
    rewrite Hbody, serialRx_directive. reflexivity.
Qed.

Lemma checkModeSwitch_directives_witness :
  checkModeSwitch powerOn = powerOn /\
  currentMode (checkModeSwitch_body (set_serialRx sampleInput powerOn)) =
    MODE_AUTO_FOLLOW /\
  checkModeSwitch_body (set_serialRx (lineThen "foo" "test") powerOn) =
    set_serialRx "test" powerOn /\
  currentMode
    (checkModeSwitch_body
       (set_serialRx (lineThen "Bluetooth" "") (inTest 1 0 500))) =
    MODE_BLUETOOTH /\
  motorsStopped
    (checkModeSwitch_body
       (set_serialRx (lineThen "Bluetooth" "") (inTest 1 0 500))) /\
  checkModeSwitch (set_serialRx (lineThen "TEST" "") (inTest 1 0 500)) =
    set_serialRx "" (inTest 1 0 500) /\
  checkModeSwitch (set_serialRx sampleInput powerOn) =
    checkModeSwitch
      (checkModeSwitch_body (set_serialRx sampleInput powerOn)) /\
  currentMode (checkModeSwitch_body (set_serialRx "test" powerOn)) = MODE_TEST.
Proof.
  split.
  { apply (proj1 (checkModeSwitch_directives powerOn)). reflexivity. }
  split.
  { destruct (checkModeSwitch_directives (set_serialRx sampleInput powerOn))
      as (_ & _ & _ & H & _).
    destruct (H (String.append "  AUTO " (String carriageReturn ""))
                (lineThen "foo" "test") eq_refl eq_refl) as (H1 & _).
    destruct (H1 eq_refl) as (_ & H2 & _). exact H2. }
  split.
  { destruct (checkModeSwitch_directives
                (set_serialRx (lineThen "foo" "test") powerOn))
      as (_ & _ & _ & H & _).
    destruct (H "foo" "test" eq_refl eq_refl) as (_ & _ & _ & H1 & _).
    apply H1; vm_compute; discriminate. }
  destruct (checkModeSwitch_directives
              (set_serialRx (lineThen "Bluetooth" "") (inTest 1 0 500)))
    as (_ & _ & _ & HB & _).
  destruct (HB "Bluetooth" "" eq_refl eq_refl) as (_ & HB1 & _).
  destruct (HB1 eq_refl) as (_ & HB2 & HB3 & _).
  split; [exact HB2 |].
  split.
  { apply HB3. discriminate. }
  split.
  { destruct (checkModeSwitch_directives
                (set_serialRx (lineThen "TEST" "") (inTest 1 0 500)))
      as (_ & _ & _ & H & _).
    destruct (H "TEST" "" eq_refl eq_refl) as (_ & _ & H1 & _ & H2).
    rewrite (H2 eq_refl). apply H1. reflexivity. }
  split.
  { destruct (checkModeSwitch_directives (set_serialRx sampleInput powerOn))
      as (_ & _ & H & _).
    apply H. discriminate. }
  destruct (checkModeSwitch_directives (set_serialRx "test" powerOn))
    as (_ & _ & _ & _ & H).
  destruct (H eq_refl) as (_ & _ & _ & H1). apply H1. reflexivity.
Defined.

(** The whole sample input: "AUTO" switches to auto-follow, "foo" is
    ignored, and the unterminated "test" is taken after the stream timeout
    and switches to test mode; the same directive twice switches once. *)
Example checkModeSwitch_sample :
  currentMode (checkModeSwitch (set_serialRx sampleInput powerOn)) = MODE_TEST /\
  serialRx (checkModeSwitch (set_serialRx sampleInput powerOn)) = "" /\
  checkModeSwitch (set_serialRx (lineThen "auto" (lineThen "auto" "")) powerOn) =
  checkModeSwitch (set_serialRx (lineThen "auto" "") powerOn).
Proof. vm_compute. repeat split. Qed.

(** ** The string operations normalise as intended *)

Lemma trimLeading_head (s : string) (c : ascii) (r : string) :
  trimLeading s = String c r -> isspace c = false.
Proof.
  induction s as [| d t IH]; cbn; [discriminate |].
  destruct (isspace d) eqn:E; [exact IH |].
  intros H. injection H as <- _. exact E.
Qed.

Lemma trimTrailing_head (s : string) (c : ascii) (r : string) :
  trimTrailing s = String c r ->
  exists t : string, s = String c t.
Proof.
  destruct s as [| d t]; cbn; [discriminate |].
  destruct (trimTrailing t); [destruct (isspace d) |];
    intros H; try discriminate; injection H as <- _; now exists t.
Qed.

(** A trimmed line does not start with white space. *)
Lemma trim_head (s : string) (c : ascii) (r : string) :
  trim s = String c r -> isspace c = false.
Proof.
  unfold trim. intros H.
  destruct (trimTrailing_head _ _ _ H) as [t Ht].
  apply (trimLeading_head s c t Ht).
Qed.

(** A trimmed line does not end with white space. *)
Lemma trimTrailing_last (s : string) (c : ascii) :
  trimTrailing s <> "" ->
  forall pre : string,
    trimTrailing s = String.append pre (String c "") -> isspace c = false.
Proof.
  induction s as [| d t IH]; cbn; [congruence |].
  destruct (trimTrailing t) as [| e u] eqn:E.
  - destruct (isspace d) eqn:Ed; [congruence |].
    intros _ pre H. destruct pre as [| p pre]; cbn in H.
    + injection H as <-. exact Ed.
    + injection H as _ H. destruct pre; discriminate.
  - intros _ pre H. destruct pre as [| p pre]; cbn in H.
    + discriminate.
    + injection H as _ H. apply (IH ltac:(discriminate) pre H).
Qed.

Lemma toLowerCase_length (s : string) :
  String.length (toLowerCase s) = String.length s.
Proof. induction s as [| c r IH]; cbn; congruence. Qed.

Lemma tolower_idempotent (c : ascii) : tolower (tolower c) = tolower c.
Proof.
  destruct c as [[] [] [] [] [] [] [] []]; reflexivity.
Qed.

Lemma toLowerCase_idempotent (s : string) :
  toLowerCase (toLowerCase s) = toLowerCase s.
Proof.
  induction s as [| c r IH]; cbn; [reflexivity |].
  now rewrite tolower_idempotent, IH.
Qed.

Example tokenOf_samples :
  tokenOf (String.append "  AUTO " (String carriageReturn "")) = "auto" /\
  tokenOf "Bluetooth" = "bluetooth" /\
  tokenOf "tEsT" = "test" /\
  tokenOf "auto now" = "auto now".
Proof. repeat split. Qed.

(** ** Range of the joystick speed *)

(** A magnitude in [[0.15, 1]] gives a speed between 27 and [maxSpeed], well
    inside the range of [int]. *)
Lemma speed_within_maxSpeed (mag : float) :
  is_finite mag = true -> (0.15 <= F2Q mag <= 1)%Q ->
  27 <= speedOf mag <= maxSpeed.
Proof.
  intros Hfin [Hlo Hhi].
  destruct (speedOf_bracket mag Hfin) as (_ & [Hb _] & HN); [lra |].
  split.
  - apply Z.le_trans with (Qfloor (180 * F2Q mag)); [| exact Hb].
    rewrite <- (Qfloor_Z 27). apply Qfloor_resp_le.
    change (inject_Z 27) with 27%Q. lra.
  - apply HN. change (inject_Z maxSpeed) with 180%Q. lra.
Qed.

(** * Further properties of the sketch *)

(** ** Actuation layer: frame and overwrite *)

Lemma isDirectionPin_false (p : Z) :
  isDirectionPin p = false ->
  (p =? IN1) = false /\ (p =? IN2) = false /\
  (p =? IN3) = false /\ (p =? IN4) = false.
Proof.
  unfold isDirectionPin. intros H.
  repeat (apply orb_false_iff in H; destruct H as [H ?]). auto.
Qed.

Lemma isSpeedPin_false (p : Z) :
  isSpeedPin p = false -> (p =? ENA) = false /\ (p =? ENB) = false.
Proof.
  unfold isSpeedPin. intros H. apply orb_false_iff in H. exact H.
Qed.

(** X1: a motor command writes the four direction pins and the two speed
    pins only: every other pin level and duty, every pin direction, the
    sketch's variables and the serial buffers are left as they were. *)
Theorem issue_frame (c : Command) (spd : Z) (s : State) :
  (forall p : Z,
     isDirectionPin p = false -> pinLevel (issue c spd s) p = pinLevel s p) /\
  (forall p : Z,
     isSpeedPin p = false -> pinDuty (issue c spd s) p = pinDuty s p) /\
  pinDir (issue c spd s) = pinDir s /\
  currentMode (issue c spd s) = currentMode s /\
  lastCommandTime (issue c spd s) = lastCommandTime s /\
  inputLine (issue c spd s) = inputLine s /\
  testStartTime (issue c spd s) = testStartTime s /\
  testPhase (issue c spd s) = testPhase s /\
  testRunning (issue c spd s) = testRunning s /\
  serialRx (issue c spd s) = serialRx s /\
  serial1Rx (issue c spd s) = serial1Rx s.
Proof.
  split; [| split].
  - intros p Hp. destruct (isDirectionPin_false p Hp) as (H1 & H2 & H3 & H4).
    destruct c; cbn; unfold write_reg; rewrite H1, H2, H3, H4; reflexivity.
  - intros p Hp. destruct (isSpeedPin_false p Hp) as (H1 & H2).
    destruct c; cbn; unfold write_reg; rewrite H1, H2; reflexivity.
  - destruct c; repeat split.
Qed.

Lemma issue_frame_witness :
  pinLevel (issue Forward 100 powerOn) pingPin = pinLevel powerOn pingPin /\
  pinDuty (issue TurnLeft 100 powerOn) pingPin = pinDuty powerOn pingPin.
Proof.
  destruct (issue_frame Forward 100 powerOn) as (H1 & _).
  destruct (issue_frame TurnLeft 100 powerOn) as (_ & H2 & _).
  split; [apply H1 | apply H2]; reflexivity.
Defined.

(** X2: a motor command overwrites all six driver registers, so the last
    command wins: after two commands in a row every pin level and duty is
    what the second command alone would have left, and the rotation and
    speed of both motors do not depend on the state before the command. *)
Theorem issue_last_wins (c1 c2 : Command) (v1 v2 : Z) (s s' : State) :
  (forall p : Z,
     pinLevel (issue c2 v2 (issue c1 v1 s)) p = pinLevel (issue c2 v2 s) p /\
     pinDuty (issue c2 v2 (issue c1 v1 s)) p = pinDuty (issue c2 v2 s) p) /\
  leftMotor (issue c2 v2 s) = leftMotor (issue c2 v2 s') /\
  rightMotor (issue c2 v2 s) = rightMotor (issue c2 v2 s') /\
  leftSpeed (issue c2 v2 s) = leftSpeed (issue c2 v2 s') /\
  rightSpeed (issue c2 v2 s) = rightSpeed (issue c2 v2 s').
Proof.
  split.
  - intros p. split.
    + destruct c1, c2; cbn; unfold write_reg;
        destruct (p =? IN4), (p =? IN3), (p =? IN2), (p =? IN1); reflexivity.
    + destruct c1, c2; cbn; unfold write_reg;
        destruct (p =? ENB), (p =? ENA); reflexivity.
  - destruct c2; repeat split.
Qed.

(** ** Ranging: frame *)

(** X3: a distance measurement leaves the sensor pin configured as an input
    at low level and touches nothing else: the other pin levels and
    directions, all PWM duties and the sketch's variables are unchanged. *)
Theorem getDistanceCM_frame (pin : Z) (s : State) :
  pinDir (snd (getDistanceCM pin s)) pin = INPUT /\
  pinLevel (snd (getDistanceCM pin s)) pin = LOW /\
  (forall p : Z,
     p <> pin ->
     pinLevel (snd (getDistanceCM pin s)) p = pinLevel s p /\
     pinDir (snd (getDistanceCM pin s)) p = pinDir s p) /\
  pinDuty (snd (getDistanceCM pin s)) = pinDuty s /\
  currentMode (snd (getDistanceCM pin s)) = currentMode s /\
  lastCommandTime (snd (getDistanceCM pin s)) = lastCommandTime s /\
  inputLine (snd (getDistanceCM pin s)) = inputLine s /\
  testStartTime (snd (getDistanceCM pin s)) = testStartTime s /\
  testPhase (snd (getDistanceCM pin s)) = testPhase s /\
  testRunning (snd (getDistanceCM pin s)) = testRunning s.
Proof.
  rewrite getDistanceCM_snd.
  split; [| split; [| split]].
  - cbn. unfold write_reg. now rewrite Z.eqb_refl.
  - cbn. unfold write_reg. now rewrite Z.eqb_refl.
  - intros p Hp. apply Z.eqb_neq in Hp.
    cbn. unfold write_reg. rewrite Hp. split; reflexivity.
  - repeat split.
Qed.

Lemma getDistanceCM_frame_witness :
  pinLevel (snd (getDistanceCM pingPin (moveForward 160 powerOn))) IN1 = HIGH /\
  pinDir (snd (getDistanceCM pingPin (setup powerOn))) ENA = OUTPUT.
Proof.
  destruct (getDistanceCM_frame pingPin (moveForward 160 powerOn))
    as (_ & _ & H1 & _).
  destruct (getDistanceCM_frame pingPin (setup powerOn)) as (_ & _ & H2 & _).
  split.
  - apply (proj1 (H1 IN1 ltac:(discriminate))).
  - apply (proj2 (H2 ENA ltac:(discriminate))).
Defined.

(** ** Auto-follow in terms of the echo width *)

Lemma processAutoFollowMode_unfold (s : State) :
  processAutoFollowMode s =
  delay autoFollowDelay
    ((if fst (getDistanceCM pingPin s) >? 60 then
        moveForward autoFollowSpeed ;; Serial_println "Moving forward"
      else if fst (getDistanceCM pingPin s) <? 25 then
        stopMoving ;; Serial_println "Stopped (too close)"
      else
        stopMoving ;; Serial_println "Stopped (maintaining distance)")
       (sampled s)).
Proof.
  unfold processAutoFollowMode, sampled.
  destruct (getDistanceCM pingPin s) as [d s1]. cbn [fst snd].
  destruct (d >? 60); [reflexivity |]. destruct (d <? 25); reflexivity.
Qed.

(** X4: in auto-follow mode the robot drives forward at speed 160 exactly
    when the echo timed out (width 0) or is at least 3538 microseconds wide
    (61 cm); for every width from 1 to 3537 both motors are stopped. *)
Theorem processAutoFollowMode_echo (s : State) :
  (echo s = 0 \/ 3538 <= echo s ->
   leftMotor (processAutoFollowMode s) = Forwards /\
   rightMotor (processAutoFollowMode s) = Forwards /\
   leftSpeed (processAutoFollowMode s) = 160 /\
   rightSpeed (processAutoFollowMode s) = 160) /\
  (0 < echo s < 3538 -> motorsStopped (processAutoFollowMode s)).
Proof.
  split.
  - intros H. rewrite processAutoFollowMode_unfold.
    assert (Hd : 60 < fst (getDistanceCM pingPin s)).
    { destruct H as [H | H].
      - rewrite (getDistanceCM_timeout pingPin s H). lia.
      - rewrite getDistanceCM_echo by lia.
        rewrite Z.quot_div_nonneg by lia.
        assert (61 <= echo s / 58); [| lia].
        apply Z.div_le_lower_bound; lia. }
    apply Z.gtb_lt in Hd. rewrite Hd. repeat split.
  - intros H. rewrite processAutoFollowMode_unfold.
    assert (Hd : fst (getDistanceCM pingPin s) <= 60).
    { rewrite getDistanceCM_echo by lia.
      rewrite Z.quot_div_nonneg by lia.
      assert (echo s / 58 < 61); [| lia].
      apply Z.div_lt_upper_bound; lia. }
    rewrite (gtb_false _ _ Hd).
    destruct (fst (getDistanceCM pingPin s) <? 25); repeat split.
Qed.

Lemma processAutoFollowMode_echo_witness :
  leftMotor (processAutoFollowMode (set_echo 0 powerOn)) = Forwards /\
  leftSpeed (processAutoFollowMode (set_echo 3538 powerOn)) = 160 /\
  motorsStopped (processAutoFollowMode (set_echo 3537 (moveForward 160 powerOn))).
Proof.
  destruct (processAutoFollowMode_echo (set_echo 0 powerOn)) as (H1 & _).
  destruct (processAutoFollowMode_echo (set_echo 3538 powerOn)) as (H2 & _).
  destruct (processAutoFollowMode_echo
              (set_echo 3537 (moveForward 160 powerOn))) as (_ & H3).
  split; [apply H1; left; reflexivity |].
  split; [apply H2; right; cbn; lia |].
  apply H3. cbn. lia.
Defined.

(** ** The mode changes through directives only *)

Ltac split_ifs :=
  repeat match goal with
  | |- context [if ?b then _ else _] => destruct b
  end.

Lemma currentMode_controlMotors (rot mag : float) (s : State) :
  currentMode (controlMotors rot mag s) = currentMode s.
Proof. unfold controlMotors. split_ifs; reflexivity. Qed.

Lemma currentMode_processJoystickCommand
    (toFloat : string -> float) (cmd : string) (s : State) :
  currentMode (processJoystickCommand toFloat cmd s) = currentMode s.
Proof.
  unfold processJoystickCommand.
  destruct (startsWith "J0:" cmd); [| reflexivity].
  destruct (indexOf "," cmd =? -1); [reflexivity |].
  cbn [negb]. unfold seq at 1. rewrite currentMode_controlMotors. reflexivity.
Qed.

Lemma currentMode_processBluetoothMode_loop
    (toFloat : string -> float) (rx : string) (s : State) :
  currentMode (processBluetoothMode_loop toFloat rx s) = currentMode s.
Proof.
  revert s. induction rx as [| c rest IH]; intros s; [reflexivity |].
  cbn [processBluetoothMode_loop].
  destruct (Ascii.eqb c newline || Ascii.eqb c carriageReturn);
    rewrite IH; [| reflexivity].
  change (currentMode (processJoystickCommand toFloat
            (inputLine (set_serial1Rx rest s)) (set_serial1Rx rest s)) =
          currentMode s).
  rewrite currentMode_processJoystickCommand. reflexivity.
Qed.

Lemma currentMode_processBluetoothMode (toFloat : string -> float) (s : State) :
  currentMode (processBluetoothMode toFloat s) = currentMode s.
Proof.
  unfold processBluetoothMode.
  match goal with |- context [if ?b then _ else _] => destruct b end;
    [change (currentMode (processBluetoothMode_loop toFloat (serial1Rx s) s) =
             currentMode s) |];
    apply currentMode_processBluetoothMode_loop.
Qed.

Lemma currentMode_sampled (s : State) : currentMode (sampled s) = currentMode s.
Proof. unfold sampled. rewrite getDistanceCM_snd. reflexivity. Qed.

Lemma currentMode_processAutoFollowMode (s : State) :
  currentMode (processAutoFollowMode s) = currentMode s.
Proof.
  rewrite processAutoFollowMode_unfold, <- (currentMode_sampled s).
  generalize (sampled s) as t, (fst (getDistanceCM pingPin s)) as d.
  intros t d. split_ifs; reflexivity.
Qed.

Lemma currentMode_processTestMode (s : State) :
  currentMode (processTestMode s) = currentMode s.
Proof.
  unfold processTestMode, processTestMode_init.
  destruct (testRunning s); cbn [negb]; split_ifs; reflexivity.
Qed.

(** X5: no mode handler changes the active mode, so after an iteration of
    [loop] the mode is the one [checkModeSwitch] selected, and it is the old
    mode when no byte was waiting on the diagnostic port. *)
Theorem loop_mode_from_directives (toFloat : string -> float) (s : State) :
  currentMode (processBluetoothMode toFloat s) = currentMode s /\
  currentMode (processAutoFollowMode s) = currentMode s /\
  currentMode (processTestMode s) = currentMode s /\
  currentMode (loop toFloat s) = currentMode (checkModeSwitch s) /\
  (serialRx s = "" -> currentMode (loop toFloat s) = currentMode s).
Proof.
  assert (Hloop : currentMode (loop toFloat s) = currentMode (checkModeSwitch s)).
  { unfold loop. destruct (currentMode (checkModeSwitch s)) eqn:E.
    - now rewrite currentMode_processBluetoothMode.
    - now rewrite currentMode_processAutoFollowMode.
    - now rewrite currentMode_processTestMode. }
  split; [apply currentMode_processBluetoothMode |].
  split; [apply currentMode_processAutoFollowMode |].
  split; [apply currentMode_processTestMode |].
  split; [exact Hloop |].
  intros H. rewrite Hloop, (checkModeSwitch_empty s H). reflexivity.
Qed.

Lemma loop_mode_from_directives_witness :
  currentMode (loop decimalToFloat (inTest 1 0 20000)) = MODE_TEST.
Proof.
  destruct (loop_mode_from_directives decimalToFloat (inTest 1 0 20000))
    as (_ & _ & _ & _ & H).
  apply H. reflexivity.
Defined.

(** ** What [checkModeSwitch] leaves behind *)

Lemma switchMode_cases (m : RobotMode) (s : State) :
  switchMode m s = s \/
  (motorsStopped (switchMode m s) /\ inputLine (switchMode m s) = "" /\
   testPhase (switchMode m s) = 0).
Proof.
  unfold switchMode. destruct (RobotMode_eqb (currentMode s) m); cbn [negb];
    [left; reflexivity | right; destruct m; repeat split].
Qed.

Lemma directive_cases (token : string) (s : State) :
  directive token s = s \/
  (motorsStopped (directive token s) /\ inputLine (directive token s) = "" /\
   testPhase (directive token s) = 0).
Proof.
  unfold directive.
  destruct (String.eqb token "auto"); [apply switchMode_cases |].
  destruct (String.eqb token "bluetooth"); [apply switchMode_cases |].
  destruct (String.eqb token "test"); [apply switchMode_cases |].
  left. reflexivity.
Qed.

Lemma readStringUntil_fields (t : ascii) (s : State) :
  let s1 := snd (Serial_readStringUntil t s) in
  currentMode s1 = currentMode s /\ inputLine s1 = inputLine s /\
  testPhase s1 = testPhase s /\ pinLevel s1 = pinLevel s /\
  pinDuty s1 = pinDuty s /\ pinDir s1 = pinDir s /\
  lastCommandTime s1 = lastCommandTime s /\ serial1Rx s1 = serial1Rx s /\
  clock s1 = clock s /\ echo s1 = echo s.
Proof.
  unfold Serial_readStringUntil.
  destruct (takeUntil t (serialRx s)) as [l [rest |]]; repeat split.
Qed.

Lemma checkModeSwitch_body_cases (s0 s : State) :
  (motorsStopped s /\ inputLine s = "" /\ testPhase s = 0) \/
  currentMode s = currentMode s0 ->
  (motorsStopped (checkModeSwitch_body s) /\
   inputLine (checkModeSwitch_body s) = "" /\
   testPhase (checkModeSwitch_body s) = 0) \/
  currentMode (checkModeSwitch_body s) = currentMode s0.
Proof.
  intros H. rewrite checkModeSwitch_body_directive.
  destruct (readStringUntil_fields newline s)
    as (Hm & Hi & Hp & Hl & Hd & _).
  destruct (directive_cases
              (tokenOf (fst (Serial_readStringUntil newline s)))
              (snd (Serial_readStringUntil newline s))) as [E | E];
    [rewrite E | left; exact E].
  destruct H as [(Hs & Hin & Hph) | H]; [left | right; congruence].
  unfold motorsStopped in *. rewrite Hl, Hd, Hi, Hp. auto.
Qed.

Lemma checkModeSwitch_loop_cases (fuel : nat) (s0 s : State) :
  (motorsStopped s /\ inputLine s = "" /\ testPhase s = 0) \/
  currentMode s = currentMode s0 ->
  (motorsStopped (checkModeSwitch_loop fuel s) /\
   inputLine (checkModeSwitch_loop fuel s) = "" /\
   testPhase (checkModeSwitch_loop fuel s) = 0) \/
  currentMode (checkModeSwitch_loop fuel s) = currentMode s0.
Proof.
  revert s. induction fuel as [| f IH]; intros s H; cbn; [exact H |].
  destruct (Serial_available s); [| exact H].
  apply IH, checkModeSwitch_body_cases, H.
Qed.

(** X6: however many directives one call of [checkModeSwitch] handles, if
    the active mode is different afterwards then both motors are stopped,
    the partial Bluetooth line is empty and the test phase index is 0. *)
Theorem checkModeSwitch_change_stops (s : State) :
  currentMode (checkModeSwitch s) <> currentMode s ->
  motorsStopped (checkModeSwitch s) /\
  inputLine (checkModeSwitch s) = "" /\
  testPhase (checkModeSwitch s) = 0.
Proof.
  intros Hne.
  destruct (checkModeSwitch_loop_cases (String.length (serialRx s)) s s)
    as [H | H]; [right; reflexivity | exact H | contradiction].
Qed.

Lemma checkModeSwitch_change_stops_witness :
  motorsStopped
    (checkModeSwitch
       (set_serialRx (lineThen "foo" (lineThen "auto" ""))
          (moveForward 160 powerOn))).
Proof.
  apply (checkModeSwitch_change_stops
           (set_serialRx (lineThen "foo" (lineThen "auto" ""))
              (moveForward 160 powerOn))).
  vm_compute. discriminate.
Defined.

Lemma directive_frame (token : string) (s : State) :
  lastCommandTime (directive token s) = lastCommandTime s /\
  serial1Rx (directive token s) = serial1Rx s /\
  clock (directive token s) = clock s /\
  echo (directive token s) = echo s /\
  pinDir (directive token s) = pinDir s.
Proof.
  unfold directive, switchMode.
  destruct (String.eqb token "auto");
    [destruct (RobotMode_eqb (currentMode s) MODE_AUTO_FOLLOW); repeat split |].
  destruct (String.eqb token "bluetooth");
    [destruct (RobotMode_eqb (currentMode s) MODE_BLUETOOTH); repeat split |].
  destruct (String.eqb token "test");
    [destruct (RobotMode_eqb (currentMode s) MODE_TEST); repeat split |].
  repeat split.
Qed.

Lemma checkModeSwitch_body_frame (s : State) :
  lastCommandTime (checkModeSwitch_body s) = lastCommandTime s /\
  serial1Rx (checkModeSwitch_body s) = serial1Rx s /\
  clock (checkModeSwitch_body s) = clock s /\
  echo (checkModeSwitch_body s) = echo s /\
  pinDir (checkModeSwitch_body s) = pinDir s.
Proof.
  rewrite checkModeSwitch_body_directive.
  destruct (readStringUntil_fields newline s)
    as (_ & _ & _ & _ & _ & Hdir & Hl & Hr & Hc & He).
  destruct (directive_frame
              (tokenOf (fst (Serial_readStringUntil newline s)))
              (snd (Serial_readStringUntil newline s)))
    as (A & B & C & D & E).
  repeat split; congruence.
Qed.

Lemma checkModeSwitch_loop_frame (fuel : nat) (s : State) :
  lastCommandTime (checkModeSwitch_loop fuel s) = lastCommandTime s /\
  serial1Rx (checkModeSwitch_loop fuel s) = serial1Rx s /\
  clock (checkModeSwitch_loop fuel s) = clock s /\
  echo (checkModeSwitch_loop fuel s) = echo s /\
  pinDir (checkModeSwitch_loop fuel s) = pinDir s.
Proof.
  revert s. induction fuel as [| f IH]; intros s; cbn; [repeat split |].
  destruct (Serial_available s); [| repeat split].
  destruct (IH (checkModeSwitch_body s)) as (A & B & C & D & E).
  destruct (checkModeSwitch_body_frame s) as (A' & B' & C' & D' & E').
  repeat split; congruence.
Qed.

(** X7: whatever arrives on the diagnostic port, [checkModeSwitch] never
    changes the time of the last joystick command, the bytes waiting on the
    Bluetooth port or any pin direction. *)
Theorem checkModeSwitch_frame (s : State) :
  lastCommandTime (checkModeSwitch s) = lastCommandTime s /\
  serial1Rx (checkModeSwitch s) = serial1Rx s /\
  pinDir (checkModeSwitch s) = pinDir s.
Proof.
  destruct (checkModeSwitch_loop_frame (String.length (serialRx s)) s)
    as (A & B & _ & _ & E).
  repeat split; assumption.
Qed.

(** ** Bluetooth byte stream *)

Lemma append_empty_r (a : string) : String.append a "" = a.
Proof. induction a as [| c r IH]; cbn; congruence. Qed.

Lemma append_assoc (a b c : string) :
  String.append (String.append a b) c = String.append a (String.append b c).
Proof. induction a as [| d r IH]; cbn; congruence. Qed.

Lemma controlMotors_set_inputLine (rot mag : float) (x : string) (s : State) :
  controlMotors rot mag (set_inputLine x s) =
  set_inputLine x (controlMotors rot mag s).
Proof. unfold controlMotors. split_ifs; reflexivity. Qed.

Lemma controlMotors_set_serial1Rx (rot mag : float) (x : string) (s : State) :
  controlMotors rot mag (set_serial1Rx x s) =
  set_serial1Rx x (controlMotors rot mag s).
Proof. unfold controlMotors. split_ifs; reflexivity. Qed.

Lemma processJoystickCommand_set_inputLine
    (toFloat : string -> float) (cmd x : string) (s : State) :
  processJoystickCommand toFloat cmd (set_inputLine x s) =
  set_inputLine x (processJoystickCommand toFloat cmd s).
Proof.
  unfold processJoystickCommand.
  destruct (startsWith "J0:" cmd); [| reflexivity].
  destruct (indexOf "," cmd =? -1); [reflexivity |].
  cbn [negb]. unfold seq at 1 6.
  rewrite <- controlMotors_set_inputLine. reflexivity.
Qed.

Lemma processJoystickCommand_set_serial1Rx
    (toFloat : string -> float) (cmd x : string) (s : State) :
  processJoystickCommand toFloat cmd (set_serial1Rx x s) =
  set_serial1Rx x (processJoystickCommand toFloat cmd s).
Proof.
  unfold processJoystickCommand.
  destruct (startsWith "J0:" cmd); [| reflexivity].
  destruct (indexOf "," cmd =? -1); [reflexivity |].
  cbn [negb]. unfold seq at 1 6.
  rewrite <- controlMotors_set_serial1Rx. reflexivity.
Qed.

Lemma inputLine_set_inputLine (x : string) (s : State) :
  inputLine (set_inputLine x s) = x.
Proof. reflexivity. Qed.

Lemma set_serial1Rx_set_inputLine (a x : string) (s : State) :
  set_serial1Rx a (set_inputLine x s) = set_inputLine x (set_serial1Rx a s).
Proof. reflexivity. Qed.

Lemma set_serial1Rx_twice (a b : string) (s : State) :
  set_serial1Rx a (set_serial1Rx b s) = set_serial1Rx a s.
Proof. reflexivity. Qed.

Lemma set_inputLine_twice (a b : string) (s : State) :
  set_inputLine a (set_inputLine b s) = set_inputLine a s.
Proof. reflexivity. Qed.

Lemma processBluetoothMode_loop_cons
    (toFloat : string -> float) (c : ascii) (rest : string) (s : State) :
  processBluetoothMode_loop toFloat (String c rest) s =
  processBluetoothMode_loop toFloat rest
    (if isTerminator c then
       set_inputLine "" (processJoystickCommand toFloat (inputLine s)
                           (set_serial1Rx rest s))
     else
       set_inputLine (String.append (inputLine s) (String c "")) 
         (set_serial1Rx rest s)).
Proof.
  cbn [processBluetoothMode_loop]. unfold isTerminator.
  destruct (Ascii.eqb c newline || Ascii.eqb c carriageReturn); reflexivity.
Qed.

(** The loop overwrites the Bluetooth buffer before it reads anything else,
    so what the buffer field held before is irrelevant. *)
Lemma processBluetoothMode_loop_buffer
    (toFloat : string -> float) (rx x : string) (s : State) :
  rx <> "" ->
  processBluetoothMode_loop toFloat rx (set_serial1Rx x s) =
  processBluetoothMode_loop toFloat rx s.
Proof.
  destruct rx as [| c rest]; [congruence | intros _].
  rewrite !processBluetoothMode_loop_cons. reflexivity.
Qed.

Lemma serial1Rx_processBluetoothMode_loop
    (toFloat : string -> float) (rx : string) (s : State) :
  serial1Rx s = rx ->
  serial1Rx (processBluetoothMode_loop toFloat rx s) = "".
Proof.
  revert s. induction rx as [| c rest IH]; intros s H; [exact H |].
  rewrite processBluetoothMode_loop_cons. apply IH.
  destruct (isTerminator c); [| reflexivity].
  rewrite processJoystickCommand_set_serial1Rx. reflexivity.
Qed.

Lemma processBluetoothMode_loop_buffers
    (toFloat : string -> float) (rx : string) (s : State) :
  rx <> "" -> noTerminator rx = true ->
  processBluetoothMode_loop toFloat rx s =
  set_inputLine (String.append (inputLine s) rx) (set_serial1Rx "" s).
Proof.
  revert s. induction rx as [| c rest IH]; intros s Hne Hno; [congruence |].
  cbn [noTerminator] in Hno. apply andb_true_iff in Hno.
  destruct Hno as [Hc Hrest]. apply negb_true_iff in Hc.
  rewrite processBluetoothMode_loop_cons, Hc.
  destruct rest as [| d rest'].
  - reflexivity.
  - rewrite IH by (try discriminate; exact Hrest).
    rewrite inputLine_set_inputLine, append_assoc.
    rewrite set_serial1Rx_set_inputLine, set_serial1Rx_twice.
    rewrite set_inputLine_twice. reflexivity.
Qed.

(** X8: bytes without a line terminator are only buffered: the Bluetooth
    port is drained, the bytes are appended to the partial line, and nothing
    else changes (no parse, no motor write, no watchdog reset). *)
Theorem processBluetoothMode_loop_accumulates
    (toFloat : string -> float) (s : State) :
  serial1Rx s <> "" -> noTerminator (serial1Rx s) = true ->
  processBluetoothMode_loop toFloat (serial1Rx s) s =
  set_inputLine (String.append (inputLine s) (serial1Rx s))
    (set_serial1Rx "" s).
Proof. apply processBluetoothMode_loop_buffers. Qed.

Lemma processBluetoothMode_loop_accumulates_witness :
  inputLine
    (processBluetoothMode_loop decimalToFloat "5,0."
       (set_inputLine "J0:4" (set_serial1Rx "5,0." powerOn))) = "J0:45,0.".
Proof.
  exact (f_equal inputLine
           (processBluetoothMode_loop_accumulates decimalToFloat
              (set_inputLine "J0:4" (set_serial1Rx "5,0." powerOn))
              ltac:(discriminate) eq_refl)).
Defined.

Lemma processBluetoothMode_loop_line
    (toFloat : string -> float) (line : string) (c : ascii) (rest : string)
    (s : State) :
  noTerminator line = true -> isTerminator c = true ->
  processBluetoothMode_loop toFloat (String.append line (String c rest)) s =
  processBluetoothMode_loop toFloat rest
    (set_inputLine ""
       (processJoystickCommand toFloat (String.append (inputLine s) line)
          (set_serial1Rx rest s))).
Proof.
  revert s. induction line as [| d l IH]; intros s Hno Hc.
  - cbn [String.append]. rewrite processBluetoothMode_loop_cons, Hc.
    now rewrite append_empty_r.
  - cbn [noTerminator] in Hno. apply andb_true_iff in Hno.
    destruct Hno as [Hd Hl]. apply negb_true_iff in Hd.
    cbn [String.append]. rewrite processBluetoothMode_loop_cons, Hd.
    rewrite (IH _ Hl Hc), inputLine_set_inputLine, append_assoc.
    cbn [String.append].
    rewrite set_serial1Rx_set_inputLine, set_serial1Rx_twice.
    rewrite processJoystickCommand_set_inputLine, set_inputLine_twice.
    reflexivity.
Qed.

(** X9: when a terminator (line feed or carriage return) arrives, the
    command handed to the parser is the partial line buffered so far
    followed by the bytes that came before the terminator, and the buffer is
    empty afterwards: a line split over several iterations is reassembled. *)
Theorem processBluetoothMode_loop_reassembles
    (toFloat : string -> float) (line : string) (c : ascii) (s : State) :
  noTerminator line = true -> isTerminator c = true ->
  processBluetoothMode_loop toFloat (String.append line (String c "")) s =
  set_inputLine ""
    (processJoystickCommand toFloat (String.append (inputLine s) line)
       (set_serial1Rx "" s)).
Proof.
  intros Hno Hc. rewrite (processBluetoothMode_loop_line _ _ _ _ _ Hno Hc).
  reflexivity.
Qed.

Lemma processBluetoothMode_loop_reassembles_witness :
  processBluetoothMode_loop decimalToFloat (lineThen "5,0.5" "")
    (set_inputLine "J0:4" powerOn) =
  set_inputLine ""
    (processJoystickCommand decimalToFloat "J0:45,0.5"
       (set_serial1Rx "" (set_inputLine "J0:4" powerOn))).
Proof.
  apply (processBluetoothMode_loop_reassembles decimalToFloat "5,0.5" newline
           (set_inputLine "J0:4" powerOn)); reflexivity.
Defined.

(** X10: the byte loop composes: bytes handled in two successive runs give
    the same state as the same bytes handled in one run, wherever the
    stream is cut. *)
Theorem processBluetoothMode_loop_app
    (toFloat : string -> float) (rx1 rx2 : string) (s : State) :
  processBluetoothMode_loop toFloat (String.append rx1 rx2) s =
  processBluetoothMode_loop toFloat rx2
    (processBluetoothMode_loop toFloat rx1 s).
Proof.
  revert s. induction rx1 as [| c r IH]; intros s; [reflexivity |].
  cbn [String.append]. rewrite !processBluetoothMode_loop_cons, IH.
  destruct r as [| d r'].
  - cbn [processBluetoothMode_loop String.append].
    destruct rx2 as [| e rx2']; [reflexivity |].
    destruct (isTerminator c).
    + rewrite !processJoystickCommand_set_serial1Rx.
      rewrite !processBluetoothMode_loop_cons. reflexivity.
    + rewrite !processBluetoothMode_loop_cons. reflexivity.
  - f_equal. destruct (isTerminator c).
    + rewrite !processJoystickCommand_set_serial1Rx.
      rewrite !processBluetoothMode_loop_cons. reflexivity.
    + rewrite !processBluetoothMode_loop_cons. reflexivity.
Qed.

(** ** Accepted joystick lines *)

Lemma length_append (a b : string) :
  String.length (String.append a b) = (String.length a + String.length b)%nat.
Proof. induction a as [| c r IH]; cbn; congruence. Qed.

Lemma indexOf_append (c : ascii) (a b : string) :
  indexOf c a = -1 ->
  indexOf c (String.append a (String c b)) = Z.of_nat (String.length a).
Proof.
  induction a as [| d r IH]; cbn [indexOf String.append String.length].
  - intros _. now rewrite Ascii.eqb_refl.
  - destruct (Ascii.eqb d c); [discriminate |].
    pose proof (indexOf_lower_bound c r) as Hlb.
    destruct (indexOf c r <? 0) eqn:E; intros H.
    + apply Z.ltb_lt in E. rewrite IH by lia.
      rewrite (ltb_false (Z.of_nat (String.length r)) 0) by lia. lia.
    + apply Z.ltb_ge in E. lia.
Qed.

Lemma substring_prefix (a r : string) :
  String.substring 0 (String.length a) (String.append a r) = a.
Proof.
  induction a as [| c t IH]; cbn; [destruct r; reflexivity | congruence].
Qed.

Lemma substring_whole (b : string) :
  String.substring 0 (String.length b) b = b.
Proof. induction b as [| c t IH]; cbn; congruence. Qed.

Lemma substring_suffix (a : string) (c : ascii) (b : string) (m : nat) :
  String.substring (S (String.length a)) m (String.append a (String c b)) =
  String.substring 0 m b.
Proof. induction a as [| d t IH]; cbn; [reflexivity | exact IH]. Qed.

Lemma startsWith_J0_append (r : string) :
  startsWith "J0:" (String.append "J0:" r) = true.
Proof.
  unfold startsWith. cbn [String.append String.prefix].
  destruct (ascii_dec "J" "J"); [| congruence].
  destruct (ascii_dec "0" "0"); [| congruence].
  destruct (ascii_dec ":" ":"); [| congruence].
  destruct r; reflexivity.
Qed.

Lemma joystickLine_fields (a b : string) :
  indexOf "," a = -1 ->
  startsWith "J0:" (joystickLine a b) = true /\
  indexOf "," (joystickLine a b) = Z.of_nat (String.length a) + 3 /\
  substring 3 (Z.of_nat (String.length a) + 3) (joystickLine a b) = a /\
  substringFrom (Z.of_nat (String.length a) + 3 + 1) (joystickLine a b) = b.
Proof.
  intros Ha.
  set (n := String.length a). set (m := String.length b).
  assert (Hlen : Z.of_nat (String.length (joystickLine a b)) =
                 Z.of_nat n + Z.of_nat m + 4).
  { unfold joystickLine. cbn [String.append String.length].
    rewrite length_append. cbn [String.length]. subst n m. lia. }
  assert (Hidx : indexOf "," (joystickLine a b) = Z.of_nat n + 3).
  { unfold joystickLine. cbn [String.append indexOf].
    change (Ascii.eqb "J" ",") with false.
    change (Ascii.eqb "0" ",") with false.
    change (Ascii.eqb ":" ",") with false. cbv iota.
    rewrite (indexOf_append "," a b Ha). fold n.
    rewrite (ltb_false (Z.of_nat n) 0) by lia.
    rewrite (ltb_false (Z.of_nat n + 1) 0) by lia.
    rewrite (ltb_false (Z.of_nat n + 1 + 1) 0) by lia. lia. }
  split; [apply startsWith_J0_append |]. split; [exact Hidx |]. split.
  - unfold substring.
    rewrite (ltb_false (Z.of_nat n + 3) 3) by lia. cbv beta iota zeta.
    rewrite Hlen.
    replace (Z.of_nat n + Z.of_nat m + 4 <=? 3) with false
      by (symmetry; apply Z.leb_gt; lia).
    rewrite (ltb_false (Z.of_nat n + Z.of_nat m + 4) (Z.of_nat n + 3)) by lia.
    replace (Z.to_nat (Z.of_nat n + 3 - 3)) with n by lia.
    change (Z.to_nat 3) with 3%nat.
    unfold joystickLine. cbn [String.append String.substring].
    subst n. apply substring_prefix.
  - unfold substringFrom, substring. rewrite Hlen.
    rewrite (ltb_false (Z.of_nat n + Z.of_nat m + 4) (Z.of_nat n + 3 + 1))
      by lia.
    cbv beta iota zeta.
    destruct (Z.leb_spec (Z.of_nat n + Z.of_nat m + 4) (Z.of_nat n + 3 + 1))
      as [Hle | Hgt].
    { destruct b; [reflexivity | cbn [String.length] in m; lia]. }
    rewrite (ltb_false (Z.of_nat n + Z.of_nat m + 4)
                       (Z.of_nat n + Z.of_nat m + 4)) by lia.
    replace (Z.to_nat (Z.of_nat n + 3 + 1)) with (S (S (S (S n)))) by lia.
    replace (Z.to_nat (Z.of_nat n + Z.of_nat m + 4 - (Z.of_nat n + 3 + 1)))
      with m by lia.
    unfold joystickLine. cbn [String.append String.substring].
    subst n m. rewrite substring_suffix. apply substring_whole.
Qed.

Lemma processJoystickCommand_joystickLine
    (toFloat : string -> float) (a b : string) (s : State) :
  indexOf "," a = -1 ->
  processJoystickCommand toFloat (joystickLine a b) s =
  drive (toFloat a) (toFloat b) s.
Proof.
  intros Ha. destruct (joystickLine_fields a b Ha) as (Hp & Hi & Hs & Hf).
  unfold processJoystickCommand. rewrite Hp, Hi.
  replace (Z.of_nat (String.length a) + 3 =? -1) with false
    by (symmetry; apply Z.eqb_neq; lia).
  cbn [negb]. rewrite Hs, Hf. reflexivity.
Qed.

(** X11: a line "J0:<a>,<b>" whose field <a> holds no comma is always
    accepted: the parser converts exactly <a> and <b> to numbers, prints
    them, stamps the command with the current time and hands both values to
    [controlMotors]. *)
Theorem processJoystickCommand_accepts_fields
    (toFloat : string -> float) (a b : string) (s : State) :
  indexOf "," a = -1 ->
  processJoystickCommand toFloat (joystickLine a b) s =
    drive (toFloat a) (toFloat b) s /\
  lastCommandTime (processJoystickCommand toFloat (joystickLine a b) s) =
    millis s /\
  emitted s (processJoystickCommand toFloat (joystickLine a b) s) =
    [EvPrint "Angle = "; EvPrintFloat (toFloat a);
     EvPrint "Â°, Magnitude = "; EvPrintlnFloat (toFloat b)] ++
    emitted s (controlMotors (toFloat a) (toFloat b) s).
Proof.
  intros Ha. rewrite (processJoystickCommand_joystickLine toFloat a b s Ha).
  split; [reflexivity |].
  unfold drive, controlMotors.
  destruct (flt (toFloat b) float_0_15).
  { split; [reflexivity |]. unfold emitted. cbn.
    repeat rewrite <- app_assoc.
    rewrite !skipn_app, !skipn_all, !Nat.sub_diag. reflexivity. }
  cbv zeta.
  generalize (float_to_int16 (fmul (float_of_int maxSpeed) (toFloat b))).
  intros speed.
  split_ifs; (split; [reflexivity |]); unfold emitted; cbn;
    repeat rewrite <- app_assoc;
    rewrite ?skipn_app, ?skipn_all, ?Nat.sub_diag; reflexivity.
Qed.

Lemma processJoystickCommand_accepts_fields_witness :
  lastCommandTime
    (processJoystickCommand decimalToFloat (joystickLine "250" "1")
       (set_clock 777 powerOn)) = 777.
Proof.
  destruct (processJoystickCommand_accepts_fields decimalToFloat "250" "1"
              (set_clock 777 powerOn) eq_refl) as (_ & H & _).
  exact H.
Defined.

(** ** Bluetooth watchdog *)

Lemma usub_elapsed (c dt : Z) :
  0 <= dt < two32 -> usub ((c + dt) mod two32) (c mod two32) = dt.
Proof.
  intros H. unfold usub. rewrite <- Zminus_mod.
  replace (c + dt - c) with dt by lia. now apply Z.mod_small.
Qed.

Lemma usub_same (a : Z) : usub a a = 0.
Proof. unfold usub. now rewrite Z.sub_diag. Qed.

(** X12: with no byte waiting, the Bluetooth handler does nothing while at
    most 300 ms have passed since the last accepted command and stops both
    motors once more than 300 ms have passed; the elapsed time is right even
    when the 32-bit millisecond counter has wrapped around in between. *)
Theorem processBluetoothMode_watchdog
    (toFloat : string -> float) (s : State) (c dt : Z) :
  serial1Rx s = "" ->
  lastCommandTime s = c mod two32 ->
  clock s = c + dt ->
  0 <= dt < two32 ->
  (dt <= 300 -> processBluetoothMode toFloat s = s) /\
  (300 < dt ->
   processBluetoothMode toFloat s = stopMoving s /\
   motorsStopped (processBluetoothMode toFloat s)).
Proof.
  intros Hrx Hlast Hclock Hdt.
  assert (E : processBluetoothMode toFloat s =
              if dt >? bluetoothTimeout then stopMoving s else s).
  { unfold processBluetoothMode. rewrite Hrx.
    change (processBluetoothMode_loop toFloat "" s) with s. cbv zeta.
    unfold millis. rewrite Hclock, Hlast, (usub_elapsed c dt Hdt).
    reflexivity. }
  rewrite E. unfold bluetoothTimeout. split; intros H.
  - now rewrite (gtb_false dt 300) by lia.
  - apply Z.gtb_lt in H. rewrite H.
    split; [reflexivity | apply stopMoving_motorsStopped].
Qed.

Lemma processBluetoothMode_watchdog_witness :
  processBluetoothMode decimalToFloat
    (set_clock 4294967396 (set_lastCommandTime 4294967196
       (moveForward 90 powerOn))) =
  set_clock 4294967396 (set_lastCommandTime 4294967196
    (moveForward 90 powerOn)) /\
  motorsStopped
    (processBluetoothMode decimalToFloat
       (set_clock 4294967597 (set_lastCommandTime 4294967196
          (moveForward 90 powerOn)))).
Proof.
  destruct (processBluetoothMode_watchdog decimalToFloat
              (set_clock 4294967396 (set_lastCommandTime 4294967196
                 (moveForward 90 powerOn))) 4294967196 200)
    as (H1 & _); [reflexivity | reflexivity | reflexivity | | ].
  { unfold two32. lia. }
  destruct (processBluetoothMode_watchdog decimalToFloat
              (set_clock 4294967597 (set_lastCommandTime 4294967196
                 (moveForward 90 powerOn))) 4294967196 401)
    as (_ & H2); [reflexivity | reflexivity | reflexivity | | ].
  { unfold two32. lia. }
  split; [apply H1; lia | apply H2; lia].
Defined.

Lemma controlMotors_times (rot mag : float) (s : State) :
  lastCommandTime (controlMotors rot mag s) = lastCommandTime s /\
  clock (controlMotors rot mag s) = clock s.
Proof. unfold controlMotors. split_ifs; split; reflexivity. Qed.

Lemma drive_times (rotation magnitude : float) (s : State) :
  lastCommandTime (drive rotation magnitude s) = millis s /\
  clock (drive rotation magnitude s) = clock s.
Proof.
  unfold drive. split; unfold seq at 1.
  - rewrite (proj1 (controlMotors_times _ _ _)). reflexivity.
  - rewrite (proj2 (controlMotors_times _ _ _)). reflexivity.
Qed.

(** X13: when the bytes up to a terminator complete a line "J0:<a>,<b>"
    (with the part buffered earlier), one run of the Bluetooth handler
    accepts the command, empties the buffer and does not trip the watchdog:
    the motors are left as [controlMotors] set them. *)
Theorem processBluetoothMode_accepts
    (toFloat : string -> float) (a b line : string) (c : ascii) (s : State) :
  noTerminator line = true ->
  isTerminator c = true ->
  serial1Rx s = String.append line (String c "") ->
  String.append (inputLine s) line = joystickLine a b ->
  indexOf "," a = -1 ->
  processBluetoothMode toFloat s =
  set_inputLine "" (drive (toFloat a) (toFloat b) (set_serial1Rx "" s)).
Proof.
  intros Hno Hc Hrx Hcmd Ha. unfold processBluetoothMode.
  rewrite Hrx, (processBluetoothMode_loop_line _ _ _ _ _ Hno Hc), Hcmd.
  rewrite (processJoystickCommand_joystickLine toFloat a b _ Ha).
  change (processBluetoothMode_loop toFloat ""
            (set_inputLine ""
               (drive (toFloat a) (toFloat b) (set_serial1Rx "" s))))
    with (set_inputLine ""
            (drive (toFloat a) (toFloat b) (set_serial1Rx "" s))).
  cbv zeta.
  destruct (drive_times (toFloat a) (toFloat b) (set_serial1Rx "" s))
    as [Hl Hk].
  change (lastCommandTime (set_inputLine ""
            (drive (toFloat a) (toFloat b) (set_serial1Rx "" s))))
    with (lastCommandTime (drive (toFloat a) (toFloat b) (set_serial1Rx "" s))).
  unfold millis at 1.
  change (clock (set_inputLine ""
            (drive (toFloat a) (toFloat b) (set_serial1Rx "" s))))
    with (clock (drive (toFloat a) (toFloat b) (set_serial1Rx "" s))).
  rewrite Hl, Hk. 
  change (clock (set_serial1Rx "" s) mod two32)
    with (millis (set_serial1Rx "" s)).
  rewrite usub_same. reflexivity.
Qed.

Lemma processBluetoothMode_accepts_witness :
  processBluetoothMode decimalToFloat
    (set_serial1Rx (lineThen "5,0.5" "")
       (set_inputLine "J0:4" (set_clock 9000 powerOn))) =
  set_inputLine ""
    (drive (float_of_int 45) float_0_5
       (set_serial1Rx ""
          (set_serial1Rx (lineThen "5,0.5" "")
             (set_inputLine "J0:4" (set_clock 9000 powerOn))))).
Proof.
  apply (processBluetoothMode_accepts decimalToFloat "45" "0.5" "5,0.5" newline
           (set_serial1Rx (lineThen "5,0.5" "")
              (set_inputLine "J0:4" (set_clock 9000 powerOn))));
    reflexivity.
Defined.

(** ** Invariant of the reachable states *)

Lemma invariant_issue (c : Command) (spd : Z) (s : State) :
  invariant s -> invariant (issue c spd s).
Proof.
  intros (Hp & _ & Hd).
  destruct c; (split; [exact Hp |]); (split; [| exact Hd]);
    repeat split; discriminate.
Qed.

Lemma invariant_emit (e : Event) (s : State) :
  invariant s -> invariant (emit e s).
Proof. exact (fun H => H). Qed.

Lemma invariant_set_currentMode (m : RobotMode) (s : State) :
  invariant s -> invariant (set_currentMode m s).
Proof. exact (fun H => H). Qed.

Lemma invariant_set_inputLine (x : string) (s : State) :
  invariant s -> invariant (set_inputLine x s).
Proof. exact (fun H => H). Qed.

Lemma invariant_set_testRunning (b : bool) (s : State) :
  invariant s -> invariant (set_testRunning b s).
Proof. exact (fun H => H). Qed.

Lemma invariant_set_testStartTime (v : Z) (s : State) :
  invariant s -> invariant (set_testStartTime v s).
Proof. exact (fun H => H). Qed.

Lemma invariant_set_lastCommandTime (v : Z) (s : State) :
  invariant s -> invariant (set_lastCommandTime v s).
Proof. exact (fun H => H). Qed.

Lemma invariant_set_serialRx (x : string) (s : State) :
  invariant s -> invariant (set_serialRx x s).
Proof. exact (fun H => H). Qed.

Lemma invariant_set_serial1Rx (x : string) (s : State) :
  invariant s -> invariant (set_serial1Rx x s).
Proof. exact (fun H => H). Qed.

Lemma invariant_phase (p : Z) (s : State) :
  p = 0 \/ p = 1 -> invariant s -> invariant (set_testPhase p s).
Proof. intros Hp (_ & Hm & Hd). split; [exact Hp | split; assumption]. Qed.

(** Strip the statements that cannot break the invariant, outermost first. *)
Ltac invariant_peel :=
  unfold seq, delay, Serial_println, Serial_print, Serial_print_long,
    Serial_print_float, Serial_println_float;
  cbv beta;
  repeat match goal with
         | |- invariant (emit _ _) => apply invariant_emit
         | |- invariant (set_currentMode _ _) => apply invariant_set_currentMode
         | |- invariant (set_inputLine _ _) => apply invariant_set_inputLine
         | |- invariant (set_testRunning _ _) => apply invariant_set_testRunning
         | |- invariant (set_testStartTime _ _) =>
             apply invariant_set_testStartTime
         | |- invariant (set_lastCommandTime _ _) =>
             apply invariant_set_lastCommandTime
         | |- invariant (set_serialRx _ _) => apply invariant_set_serialRx
         | |- invariant (set_serial1Rx _ _) => apply invariant_set_serial1Rx
         | |- invariant (set_testPhase 0 _) =>
             apply (invariant_phase 0 _ (or_introl eq_refl))
         | |- invariant (set_testPhase 1 _) =>
             apply (invariant_phase 1 _ (or_intror eq_refl))
         end.

Ltac invariant_after c v H :=
  invariant_peel;
  match type of H with
  | invariant ?t => exact (invariant_issue c v t H)
  end.

Lemma invariant_controlMotors (rot mag : float) (s : State) :
  invariant s -> invariant (controlMotors rot mag s).
Proof.
  intros H. unfold controlMotors. split_ifs.
  - apply (invariant_issue Stop 0 s H).
  - apply (invariant_issue TurnRight _ s H).
  - apply (invariant_issue Backward _ s H).
  - apply (invariant_issue TurnLeft _ s H).
  - apply (invariant_issue Forward _ s H).
  - exact H.
Qed.

Lemma invariant_processJoystickCommand
    (toFloat : string -> float) (cmd : string) (s : State) :
  invariant s -> invariant (processJoystickCommand toFloat cmd s).
Proof.
  intros H. unfold processJoystickCommand.
  destruct (startsWith "J0:" cmd); [| exact H].
  destruct (indexOf "," cmd =? -1); [exact H |].
  cbn [negb]. unfold seq at 1. apply invariant_controlMotors.
  invariant_peel. exact H.
Qed.

Lemma invariant_processBluetoothMode_loop
    (toFloat : string -> float) (rx : string) (s : State) :
  invariant s -> invariant (processBluetoothMode_loop toFloat rx s).
Proof.
  revert s. induction rx as [| c rest IH]; intros s H; [exact H |].
  rewrite processBluetoothMode_loop_cons. apply IH.
  destruct (isTerminator c); invariant_peel; [| exact H].
  apply invariant_processJoystickCommand. invariant_peel. exact H.
Qed.

Lemma invariant_processBluetoothMode (toFloat : string -> float) (s : State) :
  invariant s -> invariant (processBluetoothMode toFloat s).
Proof.
  intros H. unfold processBluetoothMode. cbv zeta.
  pose proof (invariant_processBluetoothMode_loop toFloat (serial1Rx s) s H)
    as H'.
  match goal with |- context [if ?b then _ else _] => destruct b end;
    [exact (invariant_issue Stop 0 _ H') | exact H'].
Qed.

Lemma invariant_sampled (s : State) : invariant s -> invariant (sampled s).
Proof.
  intros H. unfold sampled. rewrite getDistanceCM_snd. invariant_peel.
  unfold pinMode, digitalWrite, delayMicroseconds. invariant_peel.
  destruct H as (Hp & Hm & Hd). split; [exact Hp |]. split; assumption.
Qed.

Lemma invariant_processAutoFollowMode (s : State) :
  invariant s -> invariant (processAutoFollowMode s).
Proof.
  intros H. apply invariant_sampled in H.
  rewrite processAutoFollowMode_unfold.
  revert H. generalize (sampled s) as t, (fst (getDistanceCM pingPin s)) as d.
  intros t d H. split_ifs.
  - invariant_after Forward autoFollowSpeed H.
  - invariant_after Stop 0 H.
  - invariant_after Stop 0 H.
Qed.

Lemma invariant_processTestMode (s : State) :
  invariant s -> invariant (processTestMode s).
Proof.
  intros H.
  assert (H0 : invariant (processTestMode_init s)).
  { unfold processTestMode_init. destruct (testRunning s); [exact H |].
    cbn [negb]. invariant_peel. exact H. }
  unfold processTestMode. cbv zeta.
  revert H0. generalize (processTestMode_init s) as t. intros t Ht.
  split_ifs.
  - invariant_after Forward testSpeed Ht.
  - invariant_after Stop 0 Ht.
  - invariant_after Backward testSpeed Ht.
  - invariant_after Stop 0 Ht.
  - invariant_peel. exact Ht.
  - invariant_after TurnLeft testSpeed Ht.
  - invariant_after Stop 0 Ht.
  - invariant_peel. exact Ht.
  - exact Ht.
Qed.

Lemma invariant_switchMode (m : RobotMode) (s : State) :
  invariant s -> invariant (switchMode m s).
Proof.
  intros H. unfold switchMode.
  destruct (RobotMode_eqb (currentMode s) m); cbn [negb]; [exact H |].
  destruct m; invariant_after Stop 0 H.
Qed.

Lemma invariant_checkModeSwitch_body (s : State) :
  invariant s -> invariant (checkModeSwitch_body s).
Proof.
  intros H. rewrite checkModeSwitch_body_directive.
  assert (H1 : invariant (snd (Serial_readStringUntil newline s))).
  { unfold Serial_readStringUntil.
    destruct (takeUntil newline (serialRx s)) as [l [rest |]]; cbn [snd];
      invariant_peel; exact H. }
  revert H1. generalize (snd (Serial_readStringUntil newline s)) as t.
  generalize (tokenOf (fst (Serial_readStringUntil newline s))) as token.
  intros token t Ht. unfold directive.
  split_ifs; try apply invariant_switchMode; exact Ht.
Qed.

Lemma invariant_checkModeSwitch (s : State) :
  invariant s -> invariant (checkModeSwitch s).
Proof.
  unfold checkModeSwitch. generalize (String.length (serialRx s)) as fuel.
  intros fuel. revert s. induction fuel as [| f IH]; intros s H; cbn;
    [exact H |].
  destruct (Serial_available s); [| exact H].
  apply IH, invariant_checkModeSwitch_body, H.
Qed.

Lemma invariant_loop (toFloat : string -> float) (s : State) :
  invariant s -> invariant (loop toFloat s).
Proof.
  intros H. apply invariant_checkModeSwitch in H. unfold loop.
  destruct (currentMode (checkModeSwitch s)).
  - now apply invariant_processBluetoothMode.
  - now apply invariant_processAutoFollowMode.
  - now apply invariant_processTestMode.
Qed.

Lemma invariant_setup : invariant (setup powerOn).
Proof.
  split; [left; reflexivity |]. split; repeat split; discriminate.
Qed.

(** X14: in every state the sketch can reach, whatever arrives on the
    serial ports and whatever the sensor measures, the test phase index is 0
    or 1, no motor has both direction pins high, both motors have the same
    PWM duty, and the six driver pins are still configured as outputs. *)
Theorem reachable_invariant (toFloat : string -> float) (s : State) :
  reachable toFloat s ->
  (testPhase s = 0 \/ testPhase s = 1) /\
  leftMotor s <> Braked /\ rightMotor s <> Braked /\
  leftSpeed s = rightSpeed s /\
  driverPinsOutput s.
Proof.
  intros H.
  assert (Hinv : invariant s).
  { induction H as [| s clk rx rx1 width _ IH]; [apply invariant_setup |].
    apply invariant_loop. exact IH. }
  destruct Hinv as (Hp & (Hl & Hr & Hs) & Hd). auto.
Qed.

Lemma reachable_invariant_witness :
  leftSpeed
    (loop decimalToFloat
       (environment 50 "" (lineThen "J0:250,1" "") 0 (setup powerOn))) =
  rightSpeed
    (loop decimalToFloat
       (environment 50 "" (lineThen "J0:250,1" "") 0 (setup powerOn))).
Proof.
  destruct (reachable_invariant decimalToFloat
              (loop decimalToFloat
                 (environment 50 "" (lineThen "J0:250,1" "") 0 (setup powerOn)))
              (reachable_loop decimalToFloat _ 50 "" (lineThen "J0:250,1" "") 0
                 (reachable_setup decimalToFloat)))
    as (_ & _ & _ & H & _).
  exact H.
Defined.

(** ** The running flag follows the mode *)

Lemma testArmed_issue (c : Command) (spd : Z) (s : State) :
  testArmed s -> testArmed (issue c spd s).
Proof. intros H. destruct c; exact H. Qed.

Lemma testArmed_controlMotors (rot mag : float) (s : State) :
  testArmed s -> testArmed (controlMotors rot mag s).
Proof. intros H. unfold controlMotors. split_ifs; exact H. Qed.

Lemma testArmed_processJoystickCommand
    (toFloat : string -> float) (cmd : string) (s : State) :
  testArmed s -> testArmed (processJoystickCommand toFloat cmd s).
Proof.
  intros H. unfold processJoystickCommand.
  destruct (startsWith "J0:" cmd); [| exact H].
  destruct (indexOf "," cmd =? -1); [exact H |].
  cbn [negb]. unfold seq at 1. apply testArmed_controlMotors. exact H.
Qed.

Lemma testArmed_processBluetoothMode_loop
    (toFloat : string -> float) (rx : string) (s : State) :
  testArmed s -> testArmed (processBluetoothMode_loop toFloat rx s).
Proof.
  revert s. induction rx as [| c rest IH]; intros s H; [exact H |].
  rewrite processBluetoothMode_loop_cons. apply IH.
  destruct (isTerminator c); [| exact H].
  pose proof (testArmed_processJoystickCommand toFloat (inputLine s)
                (set_serial1Rx rest s) H) as H'.
  revert H'.
  generalize (processJoystickCommand toFloat (inputLine s)
                (set_serial1Rx rest s)) as t.
  intros t Ht. exact Ht.
Qed.

Lemma testArmed_processBluetoothMode (toFloat : string -> float) (s : State) :
  testArmed s -> testArmed (processBluetoothMode toFloat s).
Proof.
  intros H. unfold processBluetoothMode. cbv zeta.
  pose proof (testArmed_processBluetoothMode_loop toFloat (serial1Rx s) s H)
    as H'.
  revert H'. generalize (processBluetoothMode_loop toFloat (serial1Rx s) s) as t.
  intros t Ht. split_ifs; exact Ht.
Qed.

Lemma testArmed_processAutoFollowMode (s : State) :
  testArmed s -> testArmed (processAutoFollowMode s).
Proof.
  intros H.
  assert (H' : testArmed (sampled s)).
  { unfold sampled. rewrite getDistanceCM_snd. exact H. }
  rewrite processAutoFollowMode_unfold. revert H'.
  generalize (sampled s) as t, (fst (getDistanceCM pingPin s)) as d.
  intros t d Ht. split_ifs; exact Ht.
Qed.

Lemma testRunning_processTestMode (s : State) :
  testRunning (processTestMode s) = true.
Proof.
  unfold processTestMode, processTestMode_init.
  destruct (testRunning s) eqn:E; cbn [negb]; split_ifs;
    first [exact E | reflexivity].
Qed.

Lemma testArmed_switchMode (m : RobotMode) (s : State) :
  testArmed s -> testArmed (switchMode m s).
Proof.
  intros H. unfold switchMode.
  destruct (RobotMode_eqb (currentMode s) m); cbn [negb]; [exact H |].
  destruct m; reflexivity.
Qed.

Lemma testArmed_checkModeSwitch_body (s : State) :
  testArmed s -> testArmed (checkModeSwitch_body s).
Proof.
  intros H. rewrite checkModeSwitch_body_directive.
  assert (H1 : testArmed (snd (Serial_readStringUntil newline s))).
  { unfold Serial_readStringUntil.
    destruct (takeUntil newline (serialRx s)) as [l [rest |]]; exact H. }
  revert H1. generalize (snd (Serial_readStringUntil newline s)) as t.
  generalize (tokenOf (fst (Serial_readStringUntil newline s))) as token.
  intros token t Ht. unfold directive.
  split_ifs; try apply testArmed_switchMode; exact Ht.
Qed.

Lemma testArmed_checkModeSwitch (s : State) :
  testArmed s -> testArmed (checkModeSwitch s).
Proof.
  unfold checkModeSwitch. generalize (String.length (serialRx s)) as fuel.
  intros fuel. revert s. induction fuel as [| f IH]; intros s H; cbn;
    [exact H |].
  destruct (Serial_available s); [| exact H].
  apply IH, testArmed_checkModeSwitch_body, H.
Qed.

Lemma testArmed_loop (toFloat : string -> float) (s : State) :
  testArmed s -> testArmed (loop toFloat s).
Proof.
  intros H. apply testArmed_checkModeSwitch in H. unfold loop.
  destruct (currentMode (checkModeSwitch s)) eqn:E.
  - now apply testArmed_processBluetoothMode.
  - now apply testArmed_processAutoFollowMode.
  - unfold testArmed.
    rewrite testRunning_processTestMode, currentMode_processTestMode, E.
    reflexivity.
Qed.

Lemma reachable_testArmed (toFloat : string -> float) (s : State) :
  reachable toFloat s -> testArmed s.
Proof.
  intros H. induction H as [| s clk rx rx1 width _ IH]; [reflexivity |].
  apply testArmed_loop. exact IH.
Qed.

(** X15: in every reachable state the test sequence is marked as running
    exactly when the active mode is the test mode; therefore, when a later
    iteration dispatches to the test handler, the handler's
    re-initialisation branch ([if (!testRunning)]) is never taken. *)
Theorem reachable_running_iff_test (toFloat : string -> float) (s : State) :
  reachable toFloat s ->
  (testRunning s = true <-> currentMode s = MODE_TEST) /\
  (forall (clk : Z) (rx rx1 : string) (width : Z),
     currentMode (checkModeSwitch (environment clk rx rx1 width s)) = MODE_TEST ->
     processTestMode_init (checkModeSwitch (environment clk rx rx1 width s)) =
     checkModeSwitch (environment clk rx rx1 width s)).
Proof.
  intros H. pose proof (reachable_testArmed toFloat s H) as Ha. split.
  - unfold testArmed in Ha. rewrite Ha. apply RobotMode_eqb_eq.
  - intros clk rx rx1 width Hm.
    assert (Ha' : testArmed (environment clk rx rx1 width s)) by exact Ha.
    apply testArmed_checkModeSwitch in Ha'. unfold testArmed in Ha'.
    rewrite Hm in Ha'. apply processTestMode_init_running. exact Ha'.
Qed.

Lemma reachable_running_iff_test_witness :
  testRunning
    (loop decimalToFloat (environment 10 (lineThen "test" "") "" 0
       (setup powerOn))) = true.
Proof.
  destruct (reachable_running_iff_test decimalToFloat
              (loop decimalToFloat (environment 10 (lineThen "test" "") "" 0
                 (setup powerOn)))
              (reachable_loop decimalToFloat _ 10 (lineThen "test" "") "" 0
                 (reachable_setup decimalToFloat)))
    as (H & _).
  apply H. vm_compute. reflexivity.
Defined.

(** ** Test sequence across iterations *)

Lemma elapsed_after (t : State) (c dt : Z) :
  testStartTime t = c mod two32 -> clock t = c + dt -> 0 <= dt < two32 ->
  usub (millis t) (testStartTime t) = dt.
Proof.
  intros Hs Hc Hdt. unfold millis. rewrite Hs, Hc. now apply usub_elapsed.
Qed.

Lemma processTestMode_running_phase0 (t : State) :
  testRunning t = true -> testPhase t = 0 ->
  (usub (millis t) (testStartTime t) < 2000 ->
   processTestMode t =
   (moveForward 100 ;; Serial_println "Test: Moving forward") t) /\
  (6000 <= usub (millis t) (testStartTime t) ->
   processTestMode t = set_testStartTime (millis t) (set_testPhase 1 t)).
Proof.
  intros Hr Hp.
  pose proof (processTestMode_phase0 t) as H.
  rewrite (processTestMode_init_running t Hr) in H.
  destruct (H Hp) as (A & _ & _ & _ & E). split; assumption.
Qed.

Lemma processTestMode_running_phase1 (t : State) :
  testRunning t = true -> testPhase t = 1 ->
  (usub (millis t) (testStartTime t) < 10000 ->
   processTestMode t =
   (turnLeft 100 ;; Serial_println "Test: Rotating (circle)") t) /\
  (10000 <= usub (millis t) (testStartTime t) < 13000 ->
   processTestMode t = (stopMoving ;; Serial_println "Test: Stopped") t) /\
  (13000 <= usub (millis t) (testStartTime t) ->
   processTestMode t =
   emit restartLog (set_testStartTime (millis t) (set_testPhase 0 t))).
Proof.
  intros Hr Hp.
  pose proof (processTestMode_phase1 t) as H.
  rewrite (processTestMode_init_running t Hr) in H.
  exact (H Hp).
Qed.

Lemma switchMode_test_fields (s : State) :
  currentMode s <> MODE_TEST ->
  testRunning (switchMode MODE_TEST s) = true /\
  testPhase (switchMode MODE_TEST s) = 0 /\
  testStartTime (switchMode MODE_TEST s) = millis s /\
  clock (switchMode MODE_TEST s) = clock s.
Proof.
  intros H. apply RobotMode_eqb_neq in H. unfold switchMode. rewrite H.
  repeat split.
Qed.

(** X16: the test sequence starts without a wasted iteration: a handler
    call that finds the sequence not running, and the first handler call
    less than 2000 ms after a switch into test mode, both drive forward at
    the test speed. *)
Theorem processTestMode_starts_forward (s : State) :
  (testRunning s = false ->
   processTestMode s =
   (moveForward 100 ;; Serial_println "Test: Moving forward")
     (processTestMode_init s)) /\
  (currentMode s <> MODE_TEST ->
   forall dt : Z,
     0 <= dt < 2000 ->
     processTestMode (set_clock (clock s + dt) (switchMode MODE_TEST s)) =
     (moveForward 100 ;; Serial_println "Test: Moving forward")
       (set_clock (clock s + dt) (switchMode MODE_TEST s))).
Proof.
  split.
  - intros Hr. destruct (processTestMode_init_idle s Hr) as (Hp & _ & _ & He).
    destruct (processTestMode_phase0 s Hp) as (A & _).
    apply A. rewrite He. lia.
  - intros Hm dt Hdt.
    destruct (switchMode_test_fields s Hm) as (Hr & Hp & Hs & Hc).
    apply processTestMode_running_phase0; [exact Hr | exact Hp |].
    rewrite (elapsed_after _ (clock s) dt); [lia | exact Hs | | ].
    + reflexivity.
    + unfold two32. lia.
Qed.

Lemma processTestMode_starts_forward_witness :
  processTestMode powerOn =
    (moveForward 100 ;; Serial_println "Test: Moving forward")
      (processTestMode_init powerOn) /\
  leftMotor
    (processTestMode (set_clock (clock afterCommand + 1500)
       (switchMode MODE_TEST afterCommand))) = Forwards.
Proof.
  destruct (processTestMode_starts_forward powerOn) as (H1 & _).
  destruct (processTestMode_starts_forward afterCommand) as (_ & H2).
  split; [apply H1; reflexivity |].
  rewrite (H2 ltac:(vm_compute; discriminate) 1500 ltac:(lia)).
  reflexivity.
Defined.

(** X17: the test sequence cycles.  Once phase 0 has lasted 6000 ms the
    handler moves to phase 1 without touching the motors; [dt] ms later it
    turns left while [dt < 10000], stands still while [dt < 13000], and
    from 13000 ms on returns to phase 0, where the next call drives forward
    again.  [dt] is the true elapsed time even if the 32-bit millisecond
    counter wraps in between. *)
Theorem processTestMode_cycle (s : State) (dt : Z) :
  testRunning s = true -> testPhase s = 0 ->
  6000 <= usub (millis s) (testStartTime s) ->
  0 <= dt < two32 ->
  let s1 := set_clock (clock s + dt) (processTestMode s) in
  testPhase s1 = 1 /\ pinLevel s1 = pinLevel s /\ pinDuty s1 = pinDuty s /\
  (dt < 10000 ->
   processTestMode s1 =
   (turnLeft 100 ;; Serial_println "Test: Rotating (circle)") s1) /\
  (10000 <= dt < 13000 ->
   processTestMode s1 = (stopMoving ;; Serial_println "Test: Stopped") s1) /\
  (13000 <= dt ->
   testPhase (processTestMode s1) = 0 /\
   processTestMode (processTestMode s1) =
   (moveForward 100 ;; Serial_println "Test: Moving forward")
     (processTestMode s1)).
Proof.
  intros Hr Hp He Hdt s1.
  destruct (processTestMode_running_phase0 s Hr Hp) as (_ & E).
  specialize (E He).
  assert (Hr1 : testRunning s1 = true) by (subst s1; rewrite E; exact Hr).
  assert (Hp1 : testPhase s1 = 1) by (subst s1; rewrite E; reflexivity).
  assert (He1 : usub (millis s1) (testStartTime s1) = dt).
  { apply (elapsed_after s1 (clock s) dt); [| | exact Hdt];
      subst s1; rewrite E; reflexivity. }
  destruct (processTestMode_running_phase1 s1 Hr1 Hp1) as (A & B & C).
  rewrite He1 in A, B, C.
  split; [exact Hp1 |].
  split; [subst s1; rewrite E; reflexivity |].
  split; [subst s1; rewrite E; reflexivity |].
  split; [exact A |]. split; [exact B |].
  intros H13. specialize (C H13).
  split; [rewrite C; reflexivity |].
  assert (Hr2 : testRunning (processTestMode s1) = true)
    by apply testRunning_processTestMode.
  assert (Hp2 : testPhase (processTestMode s1) = 0) by (rewrite C; reflexivity).
  apply processTestMode_running_phase0; [exact Hr2 | exact Hp2 |].
  rewrite C.
  change (usub (millis s1) (millis s1) < 2000).
  rewrite usub_same. lia.
Qed.

Lemma processTestMode_cycle_witness :
  processTestMode (set_clock (4294967000 + 700) (processTestMode
    (inTest 0 4294961000 4294967000))) =
  (turnLeft 100 ;; Serial_println "Test: Rotating (circle)")
    (set_clock (4294967000 + 700) (processTestMode
       (inTest 0 4294961000 4294967000))) /\
  testPhase (processTestMode (set_clock (4294967000 + 13000) (processTestMode
    (inTest 0 4294961000 4294967000)))) = 0.
Proof.
  assert (R : testRunning (inTest 0 4294961000 4294967000) = true)
    by reflexivity.
  assert (P : testPhase (inTest 0 4294961000 4294967000) = 0) by reflexivity.
  assert (E : 6000 <= usub (millis (inTest 0 4294961000 4294967000))
                        (testStartTime (inTest 0 4294961000 4294967000)))
    by (vm_compute; discriminate).
  destruct (processTestMode_cycle (inTest 0 4294961000 4294967000) 700 R P E
              ltac:(unfold two32; lia)) as (_ & _ & _ & H1 & _).
  destruct (processTestMode_cycle (inTest 0 4294961000 4294967000) 13000 R P E
              ltac:(unfold two32; lia)) as (_ & _ & _ & _ & _ & H2).
  split; [apply H1; lia | apply H2; lia].
Defined.

(** ** Serial ports after an iteration *)

Lemma serial_controlMotors (rot mag : float) (s : State) :
  serialRx (controlMotors rot mag s) = serialRx s /\
  serial1Rx (controlMotors rot mag s) = serial1Rx s.
Proof. unfold controlMotors. split_ifs; split; reflexivity. Qed.

Lemma serialRx_processJoystickCommand
    (toFloat : string -> float) (cmd : string) (s : State) :
  serialRx (processJoystickCommand toFloat cmd s) = serialRx s.
Proof.
  unfold processJoystickCommand.
  destruct (startsWith "J0:" cmd); [| reflexivity].
  destruct (indexOf "," cmd =? -1); [reflexivity |].
  cbn [negb]. unfold seq at 1.
  rewrite (proj1 (serial_controlMotors _ _ _)). reflexivity.
Qed.

Lemma serialRx_processBluetoothMode_loop
    (toFloat : string -> float) (rx : string) (s : State) :
  serialRx (processBluetoothMode_loop toFloat rx s) = serialRx s.
Proof.
  revert s. induction rx as [| c rest IH]; intros s; [reflexivity |].
  rewrite processBluetoothMode_loop_cons, IH.
  destruct (isTerminator c); [| reflexivity].
  change (serialRx (processJoystickCommand toFloat (inputLine s)
                      (set_serial1Rx rest s)) = serialRx s).
  rewrite serialRx_processJoystickCommand. reflexivity.
Qed.

Lemma serial_processBluetoothMode (toFloat : string -> float) (s : State) :
  serialRx (processBluetoothMode toFloat s) = serialRx s /\
  serial1Rx (processBluetoothMode toFloat s) = "".
Proof.
  unfold processBluetoothMode. cbv zeta.
  pose proof (serialRx_processBluetoothMode_loop toFloat (serial1Rx s) s) as A.
  pose proof (serial1Rx_processBluetoothMode_loop toFloat (serial1Rx s) s
                eq_refl) as B.
  revert A B. generalize (processBluetoothMode_loop toFloat (serial1Rx s) s) as t.
  intros t A B. split_ifs; split; assumption.
Qed.

Lemma serial_processAutoFollowMode (s : State) :
  serialRx (processAutoFollowMode s) = serialRx s /\
  serial1Rx (processAutoFollowMode s) = serial1Rx s.
Proof.
  assert (A : serialRx (sampled s) = serialRx s /\
              serial1Rx (sampled s) = serial1Rx s).
  { unfold sampled. rewrite getDistanceCM_snd. split; reflexivity. }
  rewrite processAutoFollowMode_unfold. revert A.
  generalize (sampled s) as t, (fst (getDistanceCM pingPin s)) as d.
  intros t d A. split_ifs; exact A.
Qed.

Lemma serial_processTestMode (s : State) :
  serialRx (processTestMode s) = serialRx s /\
  serial1Rx (processTestMode s) = serial1Rx s.
Proof.
  unfold processTestMode, processTestMode_init.
  destruct (testRunning s); cbn [negb]; split_ifs; split; reflexivity.
Qed.

(** X18: an iteration of [loop] always empties the diagnostic port.  The
    Bluetooth port is emptied when the iteration ends in Bluetooth mode; in
    the two other modes its bytes are left waiting, untouched, and a mode
    switch does not discard them. *)
Theorem loop_serial_ports (toFloat : string -> float) (s : State) :
  serialRx (loop toFloat s) = "" /\
  (currentMode (loop toFloat s) = MODE_BLUETOOTH ->
   serial1Rx (loop toFloat s) = "") /\
  (currentMode (loop toFloat s) <> MODE_BLUETOOTH ->
   serial1Rx (loop toFloat s) = serial1Rx s).
Proof.
  assert (Hd : serialRx (checkModeSwitch s) = "")
    by (apply checkModeSwitch_loop_drains; lia).
  destruct (checkModeSwitch_loop_frame (String.length (serialRx s)) s)
    as (_ & H1 & _).
  fold (checkModeSwitch s) in H1.
  assert (Hm : currentMode (loop toFloat s) = currentMode (checkModeSwitch s)).
  { unfold loop. destruct (currentMode (checkModeSwitch s)) eqn:E.
    - now rewrite currentMode_processBluetoothMode.
    - now rewrite currentMode_processAutoFollowMode.
    - now rewrite currentMode_processTestMode. }
  rewrite Hm. unfold loop.
  destruct (currentMode (checkModeSwitch s)) eqn:E.
  - destruct (serial_processBluetoothMode toFloat (checkModeSwitch s))
      as [A B].
    rewrite A, B. split; [exact Hd |]. split; [reflexivity | congruence].
  - destruct (serial_processAutoFollowMode (checkModeSwitch s)) as [A B].
    rewrite A, B. split; [exact Hd |]. split; [discriminate | now intros _].
  - destruct (serial_processTestMode (checkModeSwitch s)) as [A B].
    rewrite A, B. split; [exact Hd |]. split; [discriminate | now intros _].
Qed.

Lemma loop_serial_ports_witness :
  serial1Rx
    (loop decimalToFloat
       (environment 10 (lineThen "auto" "") (lineThen "J0:250,1" "") 700
          (setup powerOn))) = lineThen "J0:250,1" "" /\
  serial1Rx
    (loop decimalToFloat
       (environment 10 "" (lineThen "J0:250,1" "") 700 (setup powerOn))) = "".
Proof.
  destruct (loop_serial_ports decimalToFloat
              (environment 10 (lineThen "auto" "") (lineThen "J0:250,1" "") 700
                 (setup powerOn))) as (_ & _ & H1).
  destruct (loop_serial_ports decimalToFloat
              (environment 10 "" (lineThen "J0:250,1" "") 700 (setup powerOn)))
    as (_ & H2 & _).
  split.
  - rewrite H1; [reflexivity | vm_compute; discriminate].
  - apply H2. vm_compute. reflexivity.
Defined.

(** ** Joystick speed *)

Lemma leftSpeed_issue (c : Command) (spd : Z) (s : State) :
  c <> Stop ->
  leftSpeed (issue c spd s) = spd /\ rightSpeed (issue c spd s) = spd.
Proof. intros H. destruct c; try contradiction; split; reflexivity. Qed.

Lemma controlMotors_speed (rot mag : float) (s : State) :
  is_nan rot = false ->
  leftSpeed (controlMotors rot mag s) =
    (if flt mag float_0_15 then 0 else speedOf mag) /\
  rightSpeed (controlMotors rot mag s) =
    (if flt mag float_0_15 then 0 else speedOf mag).
Proof.
  intros Hnan. destruct (flt mag float_0_15) eqn:E.
  - rewrite (controlMotors_stopped rot mag s E). split; reflexivity.
  - rewrite (controlMotors_moving rot mag s E).
    destruct (directionOf_number rot Hnan) as (c & Hc & Hns).
    rewrite Hc. now apply leftSpeed_issue.
Qed.

(** X19: for a rotation that is not NaN, [controlMotors] writes the same
    duty to both motors; for every magnitude up to 1 that duty is 0 (below
    the threshold) or lies between 27 and [maxSpeed] = 180; and the duty
    never decreases when the magnitude grows, as long as the magnitude stays
    within 182, where the product still fits the 16-bit [int]. *)
Theorem controlMotors_speed_bounds (rot mag mag' : float) (s : State) :
  is_nan rot = false ->
  leftSpeed (controlMotors rot mag s) = rightSpeed (controlMotors rot mag s) /\
  (is_finite mag = true -> (F2Q mag <= 1)%Q ->
   0 <= leftSpeed (controlMotors rot mag s) <= maxSpeed /\
   (leftSpeed (controlMotors rot mag s) = 0 \/
    27 <= leftSpeed (controlMotors rot mag s))) /\
  (is_finite mag = true -> is_finite mag' = true ->
   (F2Q mag <= F2Q mag')%Q -> (F2Q mag' <= 182)%Q ->
   leftSpeed (controlMotors rot mag s) <= leftSpeed (controlMotors rot mag' s)).
Proof.
  intros Hnan.
  destruct (controlMotors_speed rot mag s Hnan) as [A B].
  destruct (controlMotors_speed rot mag' s Hnan) as [A' _].
  rewrite A, B, A'. split; [reflexivity |].
  destruct float_0_15_value as [Hv _].
  split.
  - intros Hfin H. destruct (flt mag float_0_15) eqn:E.
    + unfold maxSpeed. split; [lia | now left].
    + apply flt_finite_false in E; [| assumption | reflexivity].
      assert (Hb : 27 <= speedOf mag <= maxSpeed)
        by (apply speed_within_maxSpeed; [assumption | lra]).
      split; [lia | right; lia].
  - intros Hfin Hfin' Hle Hhi.
    destruct (flt mag float_0_15) eqn:E; destruct (flt mag' float_0_15) eqn:E'.
    + lia.
    + apply flt_finite_false in E'; [| assumption | reflexivity].
      destruct (speedOf_bracket mag' Hfin') as (_ & [Hb _] & _); [lra |].
      apply Z.le_trans with (Qfloor (180 * F2Q mag')); [| exact Hb].
      rewrite <- (Qfloor_Z 0). apply Qfloor_resp_le.
      change (inject_Z 0) with 0%Q. lra.
    + apply flt_finite_false in E; [| assumption | reflexivity].
      apply flt_finite in E'; [| assumption | reflexivity]. lra.
    + apply flt_finite_false in E; [| assumption | reflexivity].
      apply speedOf_monotone; try assumption. lra.
Qed.

Lemma controlMotors_speed_bounds_witness :
  0 <= leftSpeed (controlMotors (float_of_int 250) (float_of_int 1) powerOn)
    <= maxSpeed /\
  leftSpeed (controlMotors (float_of_int 250) float_0_149999 powerOn) <=
  leftSpeed (controlMotors (float_of_int 250) float_0_7 powerOn) /\
  leftSpeed (controlMotors (float_of_int 250) float_0_7 powerOn) <=
  leftSpeed (controlMotors (float_of_int 250) (float_of_int 182) powerOn).
Proof.
  destruct (controlMotors_speed_bounds (float_of_int 250) (float_of_int 1)
              (float_of_int 1) powerOn eq_refl) as (_ & H1 & _).
  destruct (controlMotors_speed_bounds (float_of_int 250) float_0_149999
              float_0_7 powerOn eq_refl) as (_ & _ & H2).
  destruct (controlMotors_speed_bounds (float_of_int 250) float_0_7
              (float_of_int 182) powerOn eq_refl) as (_ & _ & H3).
  split; [apply H1; [reflexivity | discriminate] |].
  split; [apply H2 | apply H3]; reflexivity || discriminate.
Defined.

(** ** Fail-safe of the Bluetooth mode *)

Lemma stopMoving_times (s : State) :
  lastCommandTime (stopMoving s) = lastCommandTime s /\
  clock (stopMoving s) = clock s.
Proof. split; reflexivity. Qed.



(** ** Range of the measured distance *)

(** X21: an echo that arrives within the 30000 microsecond bound gives a
    distance between 0 and 517 cm, so the sentinel 999 can only mean a
    timeout; and a wider echo never gives a smaller distance. *)
Theorem getDistanceCM_range (pin : Z) (s s' : State) :
  (0 < echo s <= 30000 ->
   0 <= fst (getDistanceCM pin s) <= 517 /\
   fst (getDistanceCM pin s) <> 999) /\
  (0 < echo s <= echo s' ->
   fst (getDistanceCM pin s) <= fst (getDistanceCM pin s')).
Proof.
  split.
  - intros H. rewrite getDistanceCM_echo by lia.
    rewrite Z.quot_div_nonneg by lia.
    assert (0 <= echo s / 58) by (apply Z.div_pos; lia).
    assert (echo s / 58 <= 517).
    { apply Z.lt_succ_r. apply Z.div_lt_upper_bound; lia. }
    lia.
  - intros H. rewrite !getDistanceCM_echo by lia.
    rewrite !Z.quot_div_nonneg by lia.
    apply Z.div_le_mono; lia.
Qed.

Lemma getDistanceCM_range_witness :
  fst (getDistanceCM pingPin (set_echo 30000 powerOn)) <= 517 /\
  fst (getDistanceCM pingPin (set_echo 580 powerOn)) <=
  fst (getDistanceCM pingPin (set_echo 3538 powerOn)).
Proof.
  destruct (getDistanceCM_range pingPin (set_echo 30000 powerOn) powerOn)
    as (H1 & _).
  destruct (getDistanceCM_range pingPin (set_echo 580 powerOn)
              (set_echo 3538 powerOn)) as (_ & H2).
  split.
  - apply H1. cbn. lia.
  - apply H2. cbn. lia.
Defined.
